(** * PiREye: a PIR-triggered camera monitor for the Raspberry Pi

    A shallow embedding of [PiREye.py] and the properties of its
    detection / capture / notify loop.

    The script talks to the outside world all the time (the PIR pin, the
    camera, the clock, the SMTP server, the operator's keyboard), so the
    embedding is a state-and-exception monad over an explicit [World]: a
    record of functions of the instant, in microseconds, at which a call
    is issued.  Every call the script makes is appended to a time-stamped
    trace, and the properties below are statements about that trace.
    Python exceptions are values of type [exc]; [while True] loops take
    fuel and answer [Running] when it is used up. *)

From Stdlib Require Import Bool Arith NArith ZArith Lia List SpecFloat.
From Stdlib Require Import Ascii String DecimalString.
From Stdlib Require DecimalN DecimalPos.
Import ListNotations.

Local Open Scope nat_scope.
Local Open Scope list_scope.
Local Open Scope string_scope.

(** ** Strings *)

(** [str(n)] on a non-negative [int]. *)
Definition str (n : N) : string := NilZero.string_of_uint (N.to_uint n).

(** [range(n)]. *)
Definition range (n : nat) : list N := map N.of_nat (seq 0 n).

(** [s.replace(old, new)] for a one-character [old] and [new], the only
    use the script makes of it. *)
Fixpoint replace (old new : ascii) (s : string) : string :=
  match s with
  | EmptyString => EmptyString
  | String c s' =>
      String (if Ascii.eqb c old then new else c) (replace old new s')
  end.

Definition lower_ascii (c : ascii) : ascii :=
  let n := nat_of_ascii c in
  if ((65 <=? n) && (n <=? 90))%nat then ascii_of_nat (n + 32) else c.

(** [s.lower()] on ASCII text. *)
Fixpoint lower (s : string) : string :=
  match s with
  | EmptyString => EmptyString
  | String c s' => String (lower_ascii c) (lower s')
  end.

(** [needle in hay] on strings. *)
Fixpoint contains (needle hay : string) : bool :=
  String.prefix needle hay ||
  match hay with
  | EmptyString => false
  | String _ hay' => contains needle hay'
  end.

(** [x in xs] for a list or tuple of strings. *)
Definition str_in (x : string) (xs : list string) : bool :=
  existsb (String.eqb x) xs.

Fixpoint after_last_slash (acc s : string) : string :=
  match s with
  | EmptyString => acc
  | String c s' =>
      if Ascii.eqb c "/" then after_last_slash s' s'
      else after_last_slash acc s'
  end.

(** [os.path.basename]. *)
Definition basename (p : string) : string := after_last_slash p p.

(** ** datetime *)

Record datetime : Set := mk_datetime
  { year : N; month : N; day : N;
    hour : N; minute : N; second : N }.

(** The ranges of the fields of a [datetime] read from a clock that shows
    a four-digit year. *)
Definition wf_datetime (d : datetime) : Prop :=
  (1000 <= year d <= 9999 /\ 1 <= month d <= 12 /\ 1 <= day d <= 31 /\
   hour d < 24 /\ minute d < 60 /\ second d < 60)%N.

(** Zero-padded two-digit field. *)
Definition pad2 (n : N) : string :=
  if (n <? 10)%N then "0" ++ str n else str n.

Definition directive (d : datetime) (c : ascii) : string :=
  if Ascii.eqb c "Y" then str (year d)
  else if Ascii.eqb c "m" then pad2 (month d)
  else if Ascii.eqb c "d" then pad2 (day d)
  else if Ascii.eqb c "H" then pad2 (hour d)
  else if Ascii.eqb c "M" then pad2 (minute d)
  else if Ascii.eqb c "S" then pad2 (second d)
  else String "%" (String c EmptyString).

(** [d.strftime(fmt)] for the directives the script uses. *)
Fixpoint strftime (d : datetime) (fmt : string) : string :=
  match fmt with
  | EmptyString => EmptyString
  | String c rest =>
      match rest with
      | String k rest' =>
          if Ascii.eqb c "%" then directive d k ++ strftime d rest'
          else String c (strftime d rest)
      | EmptyString => String c EmptyString
      end
  end.

(** *** Names of the images, as the specification writes them *)

Definition is_digit (c : ascii) : bool :=
  ((48 <=? nat_of_ascii c) && (nat_of_ascii c <=? 57))%nat.

Fixpoint all_digits (s : string) : bool :=
  match s with
  | EmptyString => true
  | String c s' => is_digit c && all_digits s'
  end.

(** A field of [width] decimal digits. *)
Definition field (width : nat) (s : string) : bool :=
  (String.length s =? width)%nat && all_digits s.

(** [YYYY-MM-DD HH-MM-SS]. *)
Definition hyphenated (d : datetime) : string :=
  str (year d) ++ "-" ++ pad2 (month d) ++ "-" ++ pad2 (day d) ++ " "
  ++ pad2 (hour d) ++ "-" ++ pad2 (minute d) ++ "-" ++ pad2 (second d).

(** [Detection YYYY-MM-DD HH-MM-SS_i.jpg] in the output directory. *)
Definition burst_name (out_directory : string) (d : datetime) (i : string)
  : string :=
  out_directory ++ "Detection " ++ hyphenated d ++ "_" ++ i ++ ".jpg".

(** The number a string of digits writes. *)
Definition decode (s : string) : N :=
  match NilZero.uint_of_string s with
  | Some u => N.of_uint u
  | None => 0
  end.

(** ** Settings *)

Definition GPIO_PIR : N := 4.
Definition RECIPIENT : string := EmptyString.
Definition USER : string := "@gmail.com".
Definition APP_PWD : string := EmptyString.
Definition SERVER : string := "smtp.gmail.com".
Definition PORT : N := 587.
Definition DIRECTORY : string := "/media/pi/STORAGE".
Definition TIMES : list string := ["09:00:00"; "21:00:00"].


(** ** Exceptions *)

(** The instances of [Exception] a run can meet, told apart by where they
    are raised.  The three [raise Exception] statements of the script
    raise bare, indistinguishable instances; the tags are ghost data and
    no handler looks at them. *)
Inductive error : Set :=
| WifiUp              (* raise Exception: ifconfig lists wlan0 *)
| DatetimeRejected    (* raise Exception: the operator answered n *)
| LowFreeSpace        (* raise Exception: free space at or under 5 GB *)
| CalledProcessError  (* subprocess.check_output *)
| EOFError            (* input *)
| OSError             (* mkdir, disk_usage, open *)
| PiCameraError       (* the camera driver *)
| SMTPException.      (* smtplib, sockets *)

(** [KeyboardInterrupt] derives from [BaseException], not from
    [Exception]: [except Exception] does not catch it. *)
Inductive exc : Set :=
| Exception_ (e : error)
| KeyboardInterrupt.

Inductive result (A : Type) : Type :=
| Ret (a : A)
| Raise (e : exc).
Arguments Ret {A} a.
Arguments Raise {A} e.

(** ** Mail transport *)

(** The steps of one SMTP session, in the order [send_mail] takes them. *)
Inductive smtp_step : Set :=
| Connect | Ehlo | StartTls | EhloTls | Login | Sendmail | Close.

(** What the network and the file system do to one call of [send_mail]:
    which attachments can be opened and which steps of the session get
    through.  A step that does not get through raises (connection
    refused, timeout after 15 s, authentication failure, ...). *)
Record transport : Type := mk_transport
  { can_open : string -> bool;
    accepts : smtp_step -> bool }.

Definition reliable : transport :=
  {| can_open := fun _ => true; accepts := fun _ => true |}.

Definition unreachable : transport :=
  {| can_open := fun _ => true; accepts := fun _ => false |}.

(** A MIME message: the headers, the text part and the attachments, each
    attachment under the base name of its file. *)
Record message : Set := mk_message
  { msg_from : string; msg_to : string; msg_subject : string;
    msg_text : string; msg_parts : list string }.

(** ** Calls and traces *)

(** Where a call of [send_mail] or of [datetime.now] stands in the
    script (ghost data). *)
Inductive site : Set :=
| AtPrompt | AtArmed | AtSchedule | AtUpdate | AtDetection
| AtCancelled | AtDisarmed.

Definition site_eqb (a b : site) : bool :=
  match a, b with
  | AtPrompt, AtPrompt | AtArmed, AtArmed | AtSchedule, AtSchedule
  | AtUpdate, AtUpdate | AtDetection, AtDetection
  | AtCancelled, AtCancelled | AtDisarmed, AtDisarmed => true
  | _, _ => false
  end.

Inductive action : Type :=
| Print (text : string)
| Now (at_site : site)
| GpioSetmode
| GpioSetup (pin : N)
| PiCamera_
| SetRotation (degrees : N)
| Sleep (seconds : N)
| CheckOutput (command : string)
| Input (prompt : string)
| Mkdir (path : string)
| StartPreview
| Annotate (text : string)
| StopPreview
| GpioInput (pin : N)
| CaptureSequence (paths : list string)
| SendMail (at_site : site) (subject body : string)
    (files : option (list string))
| DiskUsage (path : string)
| CameraClose
| GpioCleanup.

(** [shutil.disk_usage]: a named tuple (total, used, free), in bytes. *)
Record usage : Set := mk_usage { total : Z; used : Z; free : Z }.

Inductive reply : Type :=
| Done
| Clock (d : datetime)
| Said (text : string)
| Level (high : bool)
| Space (u : usage)
| Delivered (m : message)
| Threw (e : exc).

Record entry : Type := mk_entry
  { at_ : N; act : action; answer : reply }.

(** ** The world *)

(** Everything outside the script, as functions of the instant (in
    microseconds) at which a call is issued. *)
Record World : Type := mk_World
  { latency : action -> N -> N;      (* how long the call takes *)
    ctrl_c : N -> bool;              (* the operator presses Ctrl+C during it *)
    wall : N -> datetime;            (* the system clock *)
    camera_present : N -> bool;      (* PiCamera() finds the camera *)
    ifconfig : N -> option string;   (* its output, None: the command fails *)
    keyboard : N -> option string;   (* the line typed, None: end of file *)
    writable : N -> bool;            (* mkdir and disk_usage get through *)
    camera_ok : N -> bool;           (* the camera driver works *)
    pir : N -> bool;                 (* level of the PIR pin *)
    network : N -> transport;
    statvfs : N -> usage }.

Definition set_network (w : World) (net : N -> transport) : World :=
  {| latency := latency w; ctrl_c := ctrl_c w; wall := wall w;
     camera_present := camera_present w; ifconfig := ifconfig w;
     keyboard := keyboard w; writable := writable w;
     camera_ok := camera_ok w; pir := pir w; network := net;
     statvfs := statvfs w |}.

Definition set_wall (w : World) (clock : N -> datetime) : World :=
  {| latency := latency w; ctrl_c := ctrl_c w; wall := clock;
     camera_present := camera_present w; ifconfig := ifconfig w;
     keyboard := keyboard w; writable := writable w;
     camera_ok := camera_ok w; pir := pir w; network := network w;
     statvfs := statvfs w |}.

Definition set_latency (w : World) (lat : action -> N -> N) : World :=
  {| latency := lat; ctrl_c := ctrl_c w; wall := wall w;
     camera_present := camera_present w; ifconfig := ifconfig w;
     keyboard := keyboard w; writable := writable w;
     camera_ok := camera_ok w; pir := pir w; network := network w;
     statvfs := statvfs w |}.

(** ** State, completions and the monad *)

Record State : Type := mk_State
  { now : N;                 (* the current instant *)
    armed : bool;            (* the script's variable [armed] *)
    trace : list entry }.    (* the calls made so far, oldest first *)

Inductive completion (A : Type) : Type :=
| Normal (a : A)     (* ran to its end *)
| Raised (e : exc)   (* left by an exception *)
| Running.           (* still executing when the fuel ran out *)
Arguments Normal {A} a.
Arguments Raised {A} e.
Arguments Running {A}.

Definition M (A : Type) : Type := State -> completion A * State.

Definition ret {A} (a : A) : M A := fun s => (Normal a, s).

Definition bind {A B} (m : M A) (f : A -> M B) : M B :=
  fun s =>
    match m s with
    | (Normal a, s') => f a s'
    | (Raised e, s') => (Raised e, s')
    | (Running, s') => (Running, s')
    end.

Definition raise {A} (e : exc) : M A := fun s => (Raised e, s).

Declare Scope py_scope.
Delimit Scope py_scope with py.
Notation "x <- m ;; k" := (bind m (fun x => k))
  (at level 61, m at next level, right associativity) : py_scope.
Notation "m ;; k" := (bind m (fun _ => k))
  (at level 61, right associativity) : py_scope.

(** [try: m except Exception: pass]. *)
Definition except_Exception (m : M unit) : M unit :=
  fun s =>
    match m s with
    | (Raised (Exception_ _), s') => (Normal tt, s')
    | r => r
    end.

(** [try: m except Exception: pass except KeyboardInterrupt: pass]. *)
Definition except_Exception_KeyboardInterrupt (m : M unit) : M unit :=
  fun s =>
    match m s with
    | (Raised (Exception_ _), s') => (Normal tt, s')
    | (Raised KeyboardInterrupt, s') => (Normal tt, s')
    | r => r
    end.

(** [try: m finally: f].  The [finally] suite runs when [m] is left,
    normally or by an exception; an exception of the suite replaces the
    pending one.  While [m] is still running the suite has not started. *)
Definition try_finally (m : M unit) (f : M unit) : M unit :=
  fun s =>
    match m s with
    | (Normal _, s') => f s'
    | (Raised e, s') =>
        match f s' with
        | (Normal _, s'') => (Raised e, s'')
        | r => r
        end
    | (Running, s') => (Running, s')
    end.

Definition log (t : N) (a : action) (r : reply) (d : N) (s : State) : State :=
  {| now := t + d; armed := armed s;
     trace := (trace s ++ [mk_entry t a r])%list |}.

Definition set_armed (b : bool) : M unit :=
  fun s => (Normal tt, {| now := now s; armed := b; trace := trace s |}).

Definition get_armed : M bool := fun s => (Normal (armed s), s).

Definition running {A} : M A := fun s => (Running, s).

(** ** The body of [send_mail] against a transport *)

(** The loop over [files or []]: each file is opened and read, and
    attached under its base name.  [open] raises [OSError] on a file it
    cannot open. *)
Fixpoint attach (tp : transport) (files : list string) : result (list string) :=
  match files with
  | [] => Ret []
  | i :: files' =>
      if can_open tp i then
        match attach tp files' with
        | Ret parts => Ret (basename i :: parts)
        | Raise e => Raise e
        end
      else Raise (Exception_ OSError)
  end.

(** The [with smtplib.SMTP(server, port, timeout = 15) as mail] block:
    the constructor connects, then ehlo, starttls, ehlo, login, sendmail
    and close.  The first step that does not get through raises. *)
Definition dialogue : list smtp_step :=
  [Connect; Ehlo; StartTls; EhloTls; Login; Sendmail; Close].

Fixpoint session (tp : transport) (steps : list smtp_step) : result unit :=
  match steps with
  | [] => Ret tt
  | st :: steps' =>
      if accepts tp st then session tp steps'
      else Raise (Exception_ SMTPException)
  end.

Definition files_or_empty (files : option (list string)) : list string :=
  match files with Some l => l | None => [] end.

Definition deliver (tp : transport) (user recipient subject body : string)
    (files : option (list string)) : result message :=
  match attach tp (files_or_empty files) with
  | Raise e => Raise e
  | Ret parts =>
      match session tp dialogue with
      | Raise e => Raise e
      | Ret _ => Ret (mk_message user recipient subject body parts)
      end
  end.

(** Every attachment can be opened and every step of the session gets
    through. *)
Definition gets_through (tp : transport) (files : option (list string)) : bool :=
  forallb (can_open tp) (files_or_empty files) && forallb (accepts tp) dialogue.

(** *** Floating point

    [disk_usage(DIRECTORY)[2]/1000000000 <= 5] divides an [int] by an
    [int]: [/] gives the binary64 number nearest to the exact quotient,
    ties to even, whatever the size of the operands, and [<=] compares
    that [float] with the [int] 5 exactly.  The binary64 numbers and their
    operations are those of [SpecFloat], with 53 bits of precision and
    1024 as the exponent of the infinities.

    An [int] goes into the division as it is: the integer for mantissa
    and 0 for exponent.  [SFdiv] scales the mantissas itself before it
    divides and rounds once, after. *)
Definition int_operand (z : Z) : spec_float :=
  match z with
  | Z0 => S754_zero false
  | Zpos p => S754_finite false p 0
  | Zneg p => S754_finite true p 0
  end.

(** [a / b] on two [int]s.  Beyond the largest binary64 number Python
    raises OverflowError where this gives an infinity; that takes more
    than 10^317 bytes, and [statvfs] counts in 64 bits. *)
Definition int_truediv (a b : Z) : spec_float :=
  SFdiv 53 1024 (int_operand a) (int_operand b).

(** [float(z)]. *)
Definition float_of_int (z : Z) : spec_float :=
  binary_normalize 53 1024 z 0 false.

(** [disk_usage(DIRECTORY)[2]/1000000000 <= 5]. *)
Definition low_space (u : usage) : bool :=
  SFleb (int_truediv (free u) 1000000000) (float_of_int 5).

Definition nl : string := String "010" EmptyString.

(** [sequence] of the detection loop. *)
Definition sequence (out_directory detection_time : string) : list string :=
  map (fun i => out_directory ++ replace ":" "-" detection_time
                ++ "_" ++ str (i + 1) ++ ".jpg")
      (range 5).

(** ** The script *)

Section Script.

Variable w : World.

Local Open Scope py_scope.

(** A call that neither fails nor is interrupted. *)
Definition atomic (a : action) : M unit :=
  fun s => (Normal tt, log (now s) a Done (latency w a (now s)) s).

(** A call that Ctrl+C interrupts and that may raise.  It lasts [hold]
    microseconds at the least. *)
Definition call {A} (a : action) (hold : N) (ans : N -> result A)
    (show : A -> reply) : M A :=
  fun s =>
    let t := now s in
    let d := (hold + latency w a t)%N in
    if ctrl_c w t then
      (Raised KeyboardInterrupt, log t a (Threw KeyboardInterrupt) d s)
    else
      match ans t with
      | Ret v => (Normal v, log t a (show v) d s)
      | Raise e => (Raised e, log t a (Threw e) d s)
      end.

Definition guard (ok : N -> bool) (e : error) : N -> result unit :=
  fun t => if ok t then Ret tt else Raise (Exception_ e).

Definition print (text : string) : M unit := atomic (Print text).

Definition datetime_now (st : site) : M datetime :=
  fun s =>
    let d := wall w (now s) in
    (Normal d, log (now s) (Now st) (Clock d) (latency w (Now st) (now s)) s).

(** [time.sleep(seconds)] suspends for at least [seconds]. *)
Definition time_sleep (seconds : N) : M unit :=
  call (Sleep seconds) (seconds * 1000000) (fun _ => Ret tt) (fun _ => Done).

Definition check_output (command : string) : M string :=
  call (CheckOutput command) 0
       (fun t => match ifconfig w t with
                 | Some out => Ret out
                 | None => Raise (Exception_ CalledProcessError)
                 end) Said.

Definition input (prompt : string) : M string :=
  call (Input prompt) 0
       (fun t => match keyboard w t with
                 | Some line => Ret line
                 | None => Raise (Exception_ EOFError)
                 end) Said.

Definition mkdir (path : string) : M unit :=
  call (Mkdir path) 0 (guard (writable w) OSError) (fun _ => Done).

Definition PiCamera : M unit :=
  call PiCamera_ 0 (guard (camera_present w) PiCameraError) (fun _ => Done).

Definition start_preview : M unit :=
  call StartPreview 0 (guard (camera_ok w) PiCameraError) (fun _ => Done).

Definition stop_preview : M unit :=
  call StopPreview 0 (guard (camera_ok w) PiCameraError) (fun _ => Done).

Definition annotate_text (text : string) : M unit :=
  call (Annotate text) 0 (guard (camera_ok w) PiCameraError) (fun _ => Done).

Definition capture_sequence (paths : list string) : M unit :=
  call (CaptureSequence paths) 0 (guard (camera_ok w) PiCameraError)
       (fun _ => Done).

Definition GPIO_input (pin : N) : M bool :=
  call (GpioInput pin) 0 (fun t => Ret (pir w t)) Level.

Definition disk_usage (path : string) : M usage :=
  call (DiskUsage path) 0
       (fun t => if writable w t then Ret (statvfs w t)
                 else Raise (Exception_ OSError)) Space.

(** The last statement of [send_mail]; the latency of the [SendMail]
    entry covers the whole body of the function, this line included. *)
Definition print_transmitted : M unit :=
  fun s => (Normal tt, log (now s) (Print "Transmitted") Done 0 s).

(** [send_mail]: one call of the trace, whose outcome is that of the body
    of the function against the transport of the moment.  There is no
    [try] in the function: what the transport raises leaves it. *)
Definition send_mail (st : site) (user app_pwd recipient subject body : string)
    (files : option (list string)) (server : string) (port : N) : M unit :=
  _ <- call (SendMail st subject body files) 0
            (fun t => deliver (network w t) user recipient subject body files)
            Delivered ;;
  print_transmitted.

(** *** Setup: the lines before the [try] statement *)

Definition setup : M unit :=
  print ("PiREye" ++ nl ++ nl ++ "Ctrl+C to abort") ;;
  atomic GpioSetmode ;;
  atomic (GpioSetup GPIO_PIR) ;;
  PiCamera ;;
  atomic (SetRotation 180) ;;
  time_sleep 2.

(** *** The datetime prompt: [while True] until the answer is y or n *)

Fixpoint datetime_check (fuel : nat) : M string :=
  match fuel with
  | O => running
  | S fuel' =>
      d <- datetime_now AtPrompt ;;
      line <- input ("Datetime Check" ++ nl ++ "Is "
                     ++ strftime d "%Y-%m-%d %H:%M:%S" ++ " correct?" ++ nl
                     ++ "(y) Yes" ++ nl ++ "(n) No" ++ nl ++ ": ") ;;
      let data := lower line in
      if negb (str_in data ["y"; "n"]) then
        print (nl ++ "Invalid input, try again") ;;
        datetime_check fuel'
      else ret data
  end.

(** *** The checks *)

Definition checks (fuel : nat) : M unit :=
  out <- check_output "ifconfig" ;;
  (if contains "wlan0:" out then
     print (nl ++ "WiFi appears to be up, turn it off to prevent interference with the PIR sensor") ;;
     raise (Exception_ WifiUp)
   else ret tt) ;;
  data <- datetime_check fuel ;;
  if String.eqb data "n" then
    print (nl ++ "Set with 'sudo date -s YYYY-MM-DD HH:MM' or sync over the network") ;;
    raise (Exception_ DatetimeRejected)
  else ret tt.

(** *** The detection loop: [while GPIO.input(GPIO_PIR) == 1] *)

Definition detection (out_directory : string) : M unit :=
  d <- datetime_now AtDetection ;;
  let detection_time := strftime d "Detection %Y-%m-%d %H:%M:%S" in
  print detection_time ;;
  annotate_text detection_time ;;
  let sequence := sequence out_directory detection_time in
  capture_sequence sequence ;;
  except_Exception
    (send_mail AtDetection USER APP_PWD RECIPIENT detection_time detection_time
               (Some sequence) SERVER PORT) ;;
  u <- disk_usage DIRECTORY ;;
  if low_space u then
    print (nl ++ "Low free space") ;;
    raise (Exception_ LowFreeSpace)
  else ret tt.

Fixpoint detect (fuel : nat) (out_directory : string) : M unit :=
  match fuel with
  | O => running
  | S fuel' =>
      level <- GPIO_input GPIO_PIR ;;
      if level then
        detection out_directory ;;
        detect fuel' out_directory
      else ret tt
  end.

(** *** The monitoring loop: [while True] *)

Definition status_update : M unit :=
  d <- datetime_now AtSchedule ;;
  if str_in (strftime d "%H:%M:%S") TIMES then
    d' <- datetime_now AtUpdate ;;
    let update_time := strftime d' "Active %Y-%m-%d %H:%M:%S" in
    print update_time ;;
    time_sleep 1 ;;
    except_Exception
      (send_mail AtUpdate USER APP_PWD RECIPIENT update_time update_time
                 None SERVER PORT)
  else ret tt.

Fixpoint monitor (fuel : nat) (out_directory : string) : M unit :=
  match fuel with
  | O => running
  | S fuel' =>
      status_update ;;
      detect fuel' out_directory ;;
      monitor fuel' out_directory
  end.

(** *** The suite of the [try] statement *)

Definition preparation (out_directory : string) : M unit :=
  mkdir out_directory ;;
  start_preview ;;
  annotate_text "Preview (15 seconds)" ;;
  time_sleep 15 ;;
  stop_preview.

Definition arming_delay : M unit :=
  print (nl ++ "Arming in 60 seconds...") ;;
  time_sleep 60.

Definition announce : M unit :=
  d <- datetime_now AtArmed ;;
  let armed_time := strftime d "*** ARMED *** %Y-%m-%d %H:%M:%S" in
  print armed_time ;;
  except_Exception
    (send_mail AtArmed USER APP_PWD RECIPIENT armed_time armed_time
               None SERVER PORT).

Definition suite (fuel : nat) : M unit :=
  set_armed false ;;
  checks fuel ;;
  let out_directory := DIRECTORY ++ "/Detections/" in
  preparation out_directory ;;
  arming_delay ;;
  set_armed true ;;
  announce ;;
  monitor fuel out_directory.

(** *** The [finally] suite *)

Definition teardown : M unit :=
  atomic CameraClose ;;
  atomic GpioCleanup ;;
  a <- get_armed ;;
  if negb a then
    d <- datetime_now AtCancelled ;;
    print (strftime d "Cancelled")
  else
    d <- datetime_now AtDisarmed ;;
    let disarmed_time := strftime d "*** DISARMED *** %Y-%m-%d %H:%M:%S" in
    print disarmed_time ;;
    except_Exception
      (send_mail AtDisarmed USER APP_PWD RECIPIENT disarmed_time disarmed_time
                 None SERVER PORT ;;
       print "Status Transmitted").

(** *** The [try] statement and the whole script *)

Definition system (fuel : nat) : M unit :=
  try_finally (except_Exception_KeyboardInterrupt (suite fuel)) teardown.

Definition script (fuel : nat) : M unit :=
  setup ;; system fuel.

Definition boot : State := {| now := 0; armed := false; trace := [] |}.

Definition run (fuel : nat) : completion unit * State := script fuel boot.

End Script.

(** ** Observing a trace *)

Definition count (p : entry -> bool) (tr : list entry) : nat :=
  List.length (filter p tr).

Definition is_close (e : entry) : bool :=
  match act e with CameraClose => true | _ => false end.

Definition is_cleanup (e : entry) : bool :=
  match act e with GpioCleanup => true | _ => false end.

(** A call of [send_mail] from the given place of the script. *)
Definition is_send (st : site) (e : entry) : bool :=
  match act e with
  | SendMail st' _ _ _ => site_eqb st st'
  | _ => false
  end.

Definition is_print (text : string) (e : entry) : bool :=
  match act e with
  | Print text' => String.eqb text text'
  | _ => false
  end.

Definition is_poll (e : entry) : bool :=
  match act e with GpioInput _ => true | _ => false end.

Definition is_capture (e : entry) : bool :=
  match act e with CaptureSequence _ => true | _ => false end.

Definition is_disk_usage (e : entry) : bool :=
  match act e with DiskUsage _ => true | _ => false end.

(** The call came back without an exception. *)
Definition returned (e : entry) : bool :=
  match answer e with Threw _ => false | _ => true end.

(** ** Footprints

    [emits m P E]: whatever the state, [m] only appends to the trace, the
    entries it appends satisfy [P], the exceptions it raises satisfy [E],
    it leaves the variable [armed] alone and time does not run
    backwards. *)

Definition emits {A} (m : M A) (P : entry -> Prop) (E : exc -> Prop) : Prop :=
  forall s,
    exists tr,
      trace (snd (m s)) = (trace s ++ tr)%list /\ Forall P tr /\
      armed (snd (m s)) = armed s /\
      (forall e, fst (m s) = Raised e -> E e) /\
      (now s <= now (snd (m s)))%N.

(** Under [except Exception] only [KeyboardInterrupt] still gets out. *)
Definition let_through (E : exc -> Prop) (e : exc) : Prop :=
  match e with
  | KeyboardInterrupt => E KeyboardInterrupt
  | Exception_ _ => True
  end.

(** *** The footprint of each part of the script *)

Definition detection_format : string := "Detection %Y-%m-%d %H:%M:%S".

(** The entries of the armed phase, from the arming message to the last
    cycle of the monitoring loop. *)
Definition armed_entry (w : World) (out_directory : string) (e : entry) : Prop :=
  match act e with
  | Now st => st = AtArmed \/ st = AtSchedule \/ st = AtUpdate \/ st = AtDetection
  | Print text => text <> "Cancelled"
  | Sleep seconds => seconds = 1%N
  | GpioInput pin => pin = GPIO_PIR
  | Annotate text => exists t, text = strftime (wall w t) detection_format
  | CaptureSequence paths =>
      exists t,
        paths = sequence out_directory (strftime (wall w t) detection_format)
  | SendMail st subject body files =>
      subject = body /\
      ((st = AtArmed /\ files = None) \/ (st = AtUpdate /\ files = None) \/
       (st = AtDetection /\
        exists t,
          subject = strftime (wall w t) detection_format /\
          files = Some (sequence out_directory subject)))
  | DiskUsage path => path = DIRECTORY
  | _ => False
  end.

(** The exceptions that end the armed phase. *)
Definition armed_exc (e : exc) : Prop :=
  match e with
  | KeyboardInterrupt => True
  | Exception_ x => x = PiCameraError \/ x = OSError \/ x = LowFreeSpace
  end.

(** The entries from the first line of the [try] suite to the end of the
    arming delay. *)
Definition disarmed_entry (e : entry) : Prop :=
  match act e with
  | Now st => st = AtPrompt
  | Print text => text <> "Cancelled"
  | Sleep seconds => seconds = 15%N \/ seconds = 60%N
  | CheckOutput _ | Input _ | Mkdir _ | StartPreview | StopPreview => True
  | Annotate text => text = "Preview (15 seconds)"
  | _ => False
  end.

Definition disarmed_exc (e : exc) : Prop :=
  match e with
  | KeyboardInterrupt => True
  | Exception_ x => x <> LowFreeSpace
  end.

(** The entries of the lines before the [try] statement. *)
Definition setup_entry (e : entry) : Prop :=
  match act e with
  | Print text => text <> "Cancelled"
  | GpioSetmode | PiCamera_ => True
  | GpioSetup pin => pin = GPIO_PIR
  | SetRotation degrees => degrees = 180%N
  | Sleep seconds => seconds = 2%N
  | _ => False
  end.

Definition out_directory : string := DIRECTORY ++ "/Detections/".

(** The entries of the [finally] suite after the two release calls. *)
Definition farewell_entry (e : entry) : Prop :=
  match act e with
  | Now st => st = AtCancelled \/ st = AtDisarmed
  | Print _ => True
  | SendMail st _ _ files => st = AtDisarmed /\ files = None
  | _ => False
  end.

(** [yields m T]: from any state, [m] appends to the trace some entries
    [ext] with [T a b ext], where [a] is the instant at which [m] starts
    and [b] the instant at which it stops. *)
Definition yields {A} (m : M A) (T : N -> N -> list entry -> Prop) : Prop :=
  forall s,
    exists ext,
      trace (snd (m s)) = (trace s ++ ext)%list /\
      T (now s) (now (snd (m s))) ext.

(** The entries of everything but the monitoring loop: the setup lines,
    the checks, the preview, the arming delay and message, the [finally]
    suite. *)
Definition outside_loop (e : entry) : Prop :=
  match act e with
  | GpioInput _ | CaptureSequence _ | DiskUsage _ => False
  | Now st => st = AtPrompt \/ st = AtArmed \/ st = AtCancelled \/ st = AtDisarmed
  | SendMail st _ _ _ => st = AtArmed \/ st = AtDisarmed
  | Annotate text => text = "Preview (15 seconds)"
  | Sleep seconds => seconds <> 1%N
  | _ => True
  end.

(** *** Detections in a trace *)

(** A poll of the PIR pin that read high. *)
Definition is_high (e : entry) : bool :=
  match act e, answer e with
  | GpioInput _, Level true => true
  | _, _ => false
  end.

(** The clock read that opens a detection. *)
Definition is_detection (e : entry) : bool :=
  match act e with Now AtDetection => true | _ => false end.

(** The caption of a detection is set. *)
Definition is_caption (e : entry) : bool :=
  match act e with
  | Annotate text => negb (String.eqb text "Preview (15 seconds)")
  | _ => false
  end.

Definition returned_caption (e : entry) : bool := is_caption e && returned e.

Definition returned_capture (e : entry) : bool := is_capture e && returned e.

Definition capture_paths (e : entry) : list string :=
  match act e with CaptureSequence paths => paths | _ => [] end.

Definition mail_files (e : entry) : list string :=
  match act e with SendMail _ _ _ (Some files) => files | _ => [] end.

(** Every call to the camera in the trace came back. *)
Definition camera_returned (e : entry) : bool :=
  implb (is_caption e || is_capture e) (returned e).

(** Ctrl+C arrived during the call. *)
Definition interrupted (r : reply) : bool :=
  match r with Threw KeyboardInterrupt => true | _ => false end.

(** A mail of the detection loop that was not interrupted: it was
    delivered or lost, and the script went on. *)
Definition settled_mail (e : entry) : bool :=
  is_send AtDetection e && negb (interrupted (answer e)).

(** The books of the detection loop: one detection per high poll, one
    caption per detection, one capture per caption that came back, one
    mail per capture that came back, the mail carrying the paths of the
    capture, five of them, and one look at the free space per mail that
    was not interrupted. *)
Definition tallies (ext : list entry) : Prop :=
  count is_high ext = count is_detection ext /\
  count is_detection ext = count is_caption ext /\
  count is_capture ext = count returned_caption ext /\
  count (is_send AtDetection) ext = count returned_capture ext /\
  map mail_files (filter (is_send AtDetection) ext)
  = map capture_paths (filter returned_capture ext) /\
  Forall (fun e => is_capture e = true -> List.length (capture_paths e) = 5)
         ext /\
  count is_disk_usage ext = count settled_mail ext.

(** An entry the books do not count. *)
Definition off_the_books (e : entry) : Prop :=
  is_high e = false /\ is_detection e = false /\ is_caption e = false /\
  is_capture e = false /\ is_send AtDetection e = false /\
  is_disk_usage e = false.

(** *** One detection

    The entries one pass through the body of the detection loop can
    append, and how the pass ends.  [t0] is the instant of its clock
    read. *)
Definition detection_time_at (w : World) (t0 : N) : string :=
  strftime (wall w t0) detection_format.

Definition captioned (w : World) (t0 t1 t2 : N) (r : reply) : list entry :=
  [mk_entry t0 (Now AtDetection) (Clock (wall w t0));
   mk_entry t1 (Print (detection_time_at w t0)) Done;
   mk_entry t2 (Annotate (detection_time_at w t0)) r].

Definition captured (w : World) (out : string) (t0 t1 t2 t3 : N) (r : reply)
  : list entry :=
  (captioned w t0 t1 t2 Done
   ++ [mk_entry t3 (CaptureSequence (sequence out (detection_time_at w t0))) r])
  %list.

Definition mailed (w : World) (out : string) (t0 t1 t2 t3 t4 : N) (r : reply)
  : list entry :=
  (captured w out t0 t1 t2 t3 Done
   ++ [mk_entry t4
         (SendMail AtDetection (detection_time_at w t0)
                   (detection_time_at w t0)
                   (Some (sequence out (detection_time_at w t0)))) r])%list.

Definition not_low_space (e : exc) : Prop := e <> Exception_ LowFreeSpace.

(** The line [send_mail] prints after a delivery. *)
Definition confirmation (t : N) (r : reply) : list entry :=
  match r with
  | Delivered _ => [mk_entry t (Print "Transmitted") Done]
  | _ => []
  end.

Inductive cycle (w : World) (out : string)
  : list entry -> completion unit -> Prop :=
| caption_raises t0 t1 t2 e :
    not_low_space e ->
    cycle w out (captioned w t0 t1 t2 (Threw e)) (Raised e)
| capture_raises t0 t1 t2 t3 e :
    not_low_space e ->
    cycle w out (captured w out t0 t1 t2 t3 (Threw e)) (Raised e)
| mail_interrupted t0 t1 t2 t3 t4 :
    cycle w out (mailed w out t0 t1 t2 t3 t4 (Threw KeyboardInterrupt))
          (Raised KeyboardInterrupt)
| check_raises t0 t1 t2 t3 t4 t5 t6 r e :
    interrupted r = false ->
    not_low_space e ->
    cycle w out
          (mailed w out t0 t1 t2 t3 t4 r ++ confirmation t5 r
           ++ [mk_entry t6 (DiskUsage DIRECTORY) (Threw e)])%list
          (Raised e)
| space_low t0 t1 t2 t3 t4 t5 t6 t7 r u :
    interrupted r = false ->
    low_space u = true ->
    cycle w out
          (mailed w out t0 t1 t2 t3 t4 r ++ confirmation t5 r
           ++ [mk_entry t6 (DiskUsage DIRECTORY) (Space u);
               mk_entry t7 (Print (nl ++ "Low free space")) Done])%list
          (Raised (Exception_ LowFreeSpace))
| space_left t0 t1 t2 t3 t4 t5 t6 r u :
    interrupted r = false ->
    low_space u = false ->
    cycle w out
          (mailed w out t0 t1 t2 t3 t4 r ++ confirmation t5 r
           ++ [mk_entry t6 (DiskUsage DIRECTORY) (Space u)])%list
          (Normal tt).

(** *** Readings of the free space *)

Definition readings (tr : list entry) : list usage :=
  flat_map (fun e => match act e, answer e with
                     | DiskUsage _, Space u => [u]
                     | _, _ => []
                     end) tr.

Definition raised {A} (c : completion A) : option exc :=
  match c with Raised e => Some e | _ => None end.

(** What the readings of a stretch say about its end: left by the
    low-space exception, its last reading was of 5,000,000,000 bytes or
    less and every reading before it was of more; otherwise every reading
    was of more. *)
Definition verdict (ext : list entry) (r : option exc) : Prop :=
  match r with
  | Some (Exception_ LowFreeSpace) =>
      exists earlier u,
        readings ext = (earlier ++ [u])%list /\
        (free u <= 5000000000)%Z /\
        Forall (fun v => (5000000000 < free v)%Z) earlier
  | _ => Forall (fun v => (5000000000 < free v)%Z) (readings ext)
  end.

(** What one pass through the body of the detection loop read, and how
    it ended: without a reading, by an exception that is not the
    low-space one; with one reading, by the low-space exception when it
    was of 5,000,000,000 bytes or less, normally when it was of more. *)
Definition cutoff (ext : list entry) (c : completion unit) : Prop :=
  (readings ext = [] /\
   exists e, c = Raised e /\ e <> Exception_ LowFreeSpace) \/
  (exists u,
     readings ext = [u] /\
     (((free u <= 5000000000)%Z /\ c = Raised (Exception_ LowFreeSpace)) \/
      ((5000000000 < free u)%Z /\ c = Normal tt))).

(** [concludes m Q]: the entries [m] appends and the exception it raises,
    if any, satisfy [Q]. *)
Definition concludes {A} (m : M A) (Q : list entry -> option exc -> Prop)
  : Prop :=
  forall s,
    exists ext,
      trace (snd (m s)) = (trace s ++ ext)%list /\
      Q ext (raised (fst (m s))).

(** No look at the free space, and no low-space exception. *)
Definition no_reading (e : entry) : Prop := is_disk_usage e = false.

(** *** What a run does, whatever became of its mails

    [control] forgets what the transport did to each mail (delivered, or
    an [Exception]) and drops the two console lines that are printed
    only after a delivery.  Everything else stays: the instants, the
    calls and their arguments, the other answers, a Ctrl+C during a
    mail. *)
Definition silent (e : entry) : entry :=
  match act e, answer e with
  | SendMail _ _ _ _, Delivered _ => mk_entry (at_ e) (act e) Done
  | SendMail _ _ _ _, Threw (Exception_ _) => mk_entry (at_ e) (act e) Done
  | _, _ => e
  end.

Definition is_confirmation (e : entry) : bool :=
  is_print "Transmitted" e || is_print "Status Transmitted" e.

Definition control (tr : list entry) : list entry :=
  map silent (filter (fun e => negb (is_confirmation e)) tr).

(** States that differ at most in what became of the mails. *)
Definition alike (s s' : State) : Prop :=
  now s = now s' /\ armed s = armed s' /\
  control (trace s) = control (trace s').

Definition alike_traces (s s' : State) : Prop :=
  control (trace s) = control (trace s').

(** [agree Q m m']: from states that are alike, [m] and [m'] complete
    alike and leave states related by [Q]. *)
Definition agree {A} (Q : State -> State -> Prop) (m m' : M A) : Prop :=
  forall s s',
    alike s s' ->
    fst (m s) = fst (m' s') /\ Q (snd (m s)) (snd (m' s')).

(** Neither a capture nor a look at the free space. *)
Definition idle_entry (e : entry) : Prop :=
  is_disk_usage e = false /\ is_capture e = false.

(** The entries of the [finally] suite. *)
Definition final_entry (e : entry) : Prop :=
  match act e with
  | CameraClose | GpioCleanup => True
  | _ => farewell_entry e
  end.

(** *** The schedule

    A schedule check is the clock read of the line
    [if datetime.now().strftime("%H:%M:%S") in TIMES]. *)

(** The check found the time of day in [TIMES]: the status update
    follows. *)
Definition triggers (e : entry) : bool :=
  match act e, answer e with
  | Now AtSchedule, Clock d => str_in (strftime d "%H:%M:%S") TIMES
  | _, _ => false
  end.

Definition datetime_eqb (d1 d2 : datetime) : bool :=
  ((year d1 =? year d2) && (month d1 =? month d2) && (day d1 =? day d2) &&
   (hour d1 =? hour d2) && (minute d1 =? minute d2) &&
   (second d1 =? second d2))%N.

(** The check triggered on the wall-clock second [d]. *)
Definition triggered_at (d : datetime) (e : entry) : bool :=
  triggers e &&
  match answer e with Clock d' => datetime_eqb d d' | _ => false end.

(** The instants of the checks that triggered. *)
Definition stamps (ext : list entry) : list N := map at_ (filter triggers ext).

(** [chain a l b]: the instants of [l] lie between [a] and [b], each at
    least a second (1,000,000 microseconds) after the one before, and the
    last at least a second before [b]. *)
Fixpoint chain (a : N) (l : list N) (b : N) : Prop :=
  match l with
  | [] => (a <= b)%N
  | t :: l' => (a <= t)%N /\ chain (t + 1000000) l' b
  end.

(** What a schedule check reads is what the clock shows at its instant. *)
Definition true_reading (w : World) (e : entry) : Prop :=
  match act e, answer e with
  | Now AtSchedule, Clock d => d = wall w (at_ e)
  | Now AtSchedule, _ => False
  | _, _ => True
  end.

(** Every scheduled status mail is the mail of a check that triggered,
    and a check has one mail at most: [due] tells whether the last check
    that triggered still has its mail to come. *)
Fixpoint one_ping_each (due : bool) (ext : list entry) : Prop :=
  match ext with
  | [] => True
  | e :: ext' =>
      if triggers e then one_ping_each true ext'
      else if is_send AtUpdate e then due = true /\ one_ping_each false ext'
      else one_ping_each due ext'
  end.

(** The three together, on the entries appended between the instants [a]
    and [b]. *)
Definition on_schedule (w : World) (a b : N) (ext : list entry) : Prop :=
  chain a (stamps ext) b /\ Forall (true_reading w) ext /\
  one_ping_each false ext.

(** Neither a schedule check nor a scheduled status mail. *)
Definition off_schedule (e : entry) : Prop :=
  match act e with
  | Now st => st <> AtSchedule
  | SendMail st _ _ _ => st <> AtUpdate
  | _ => True
  end.

(** The wall clock is not set back, nor stopped, up to the instant
    [horizon]: a second of elapsed time later it shows another second. *)
Definition runs_true (w : World) (horizon : N) : Prop :=
  forall t t',
    (t + 1000000 <= t')%N -> (t' <= horizon)%N -> wall w t <> wall w t'.

(** ** Steps

    What every run is made of: single calls outside [send_mail], the
    mails of the [try] suite with the line they print after a delivery,
    and the disarm mail with its two lines. *)

Definition is_mail (e : entry) : bool :=
  match act e with SendMail _ _ _ _ => true | _ => false end.

(** The mail was delivered. *)
Definition delivered (e : entry) : bool :=
  match act e, answer e with
  | SendMail _ _ _ _, Delivered _ => true
  | _, _ => false
  end.

(** The least a call lasts: [time.sleep(n)] holds the script for [n]
    seconds, in microseconds. *)
Definition hold (a : action) : N :=
  match a with Sleep seconds => seconds * 1000000 | _ => 0 end.

(** A call outside [send_mail]: neither the mail nor one of the two lines
    printed after a delivery. *)
Definition scripted (e : entry) : Prop :=
  is_mail e = false /\ is_confirmation e = false.

(** The line the [finally] suite prints after the disarm mail went
    out. *)
Definition status_line (t : N) (r : reply) : list entry :=
  match r with
  | Delivered _ => [mk_entry t (Print "Status Transmitted") Done]
  | _ => []
  end.

(** *** The lines after a mail *)

(** Every delivered mail is followed at once by the line Transmitted,
    and that line stands nowhere else. *)
Fixpoint confirmed (ext : list entry) : Prop :=
  match ext with
  | [] => True
  | e :: ext' =>
      if delivered e then
        match ext' with
        | p :: ext'' => is_print "Transmitted" p = true /\ confirmed ext''
        | [] => False
        end
      else is_print "Transmitted" e = false /\ confirmed ext'
  end.

(** The disarm mail was delivered. *)
Definition farewell_delivered (e : entry) : bool :=
  is_send AtDisarmed e && delivered e.

Definition truthful (a b : N) (ext : list entry) : Prop :=
  confirmed ext /\
  count (is_print "Status Transmitted") ext = count farewell_delivered ext.

(** *** Chronology *)

(** [chrono a ext b]: the calls of [ext] are made in order between the
    instants [a] and [b], none before the one before it has lasted what
    it lasts at the least. *)
Fixpoint chrono (a : N) (ext : list entry) (b : N) : Prop :=
  match ext with
  | [] => (a <= b)%N
  | e :: ext' => (a <= at_ e)%N /\ chrono (at_ e + hold (act e)) ext' b
  end.

(** The calls of the armed phase up to the end of the monitoring loop. *)
Definition is_armed_call (e : entry) : bool :=
  match act e with
  | Now st =>
      site_eqb st AtArmed || site_eqb st AtSchedule || site_eqb st AtUpdate
      || site_eqb st AtDetection
  | SendMail st _ _ _ =>
      site_eqb st AtArmed || site_eqb st AtUpdate || site_eqb st AtDetection
  | GpioInput _ | CaptureSequence _ | DiskUsage _ => true
  | Annotate text => negb (String.eqb text "Preview (15 seconds)")
  | _ => false
  end.

(** *** How a run can end *)

(** The exceptions that can leave the lines before the [try]
    statement. *)
Definition setup_exc (e : exc) : Prop :=
  e = KeyboardInterrupt \/ e = Exception_ PiCameraError.

(** The exceptions that can leave the suite of the [try] statement while
    [armed] is false. *)
Definition before_arming_exc (e : exc) : Prop :=
  match e with
  | KeyboardInterrupt => True
  | Exception_ x =>
      x = WifiUp \/ x = DatetimeRejected \/ x = CalledProcessError \/
      x = EOFError \/ x = OSError \/ x = PiCameraError
  end.

(** A call to the camera or to the GPIO pins. *)
Definition is_device_call (e : entry) : bool :=
  match act e with
  | GpioSetmode | GpioSetup _ | PiCamera_ | SetRotation _ | StartPreview
  | Annotate _ | StopPreview | GpioInput _ | CaptureSequence _
  | CameraClose | GpioCleanup => true
  | _ => false
  end.

(** *** The checks and the way to arming *)

(** The prompt of the datetime check. *)
Definition datetime_prompt (d : datetime) : string :=
  "Datetime Check" ++ nl ++ "Is " ++ strftime d "%Y-%m-%d %H:%M:%S"
  ++ " correct?" ++ nl ++ "(y) Yes" ++ nl ++ "(n) No" ++ nl ++ ": ".

(** [data in ("y", "n")] for [data] the line typed, in lower case. *)
Definition yes_or_no (line : string) : bool := str_in (lower line) ["y"; "n"].

(** One question of the datetime check: the clock is read at [t], and
    shown in the prompt at [t'], to which the operator types [line]. *)
Definition asked (w : World) (t t' : N) (line : string) : list entry :=
  [mk_entry t (Now AtPrompt) (Clock (wall w t));
   mk_entry t' (Input (datetime_prompt (wall w t))) (Said line)].

(** A question whose answer is turned down at [t'']. *)
Definition turned_down (w : World) (q : N * N * string * N) : list entry :=
  let '(t, t', line, t'') := q in
  (asked w t t' line
   ++ [mk_entry t'' (Print (nl ++ "Invalid input, try again")) Done])%list.

Definition line_of (q : N * N * string * N) : string :=
  let '(_, _, line, _) := q in line.

(** The calls between the checks and [armed = True], all returned: the
    output directory, the preview and the arming delay. *)
Definition prepared (t1 t2 t3 t4 t5 t6 t7 : N) : list entry :=
  [mk_entry t1 (Mkdir out_directory) Done;
   mk_entry t2 StartPreview Done;
   mk_entry t3 (Annotate "Preview (15 seconds)") Done;
   mk_entry t4 (Sleep 15) Done;
   mk_entry t5 StopPreview Done;
   mk_entry t6 (Print (nl ++ "Arming in 60 seconds...")) Done;
   mk_entry t7 (Sleep 60) Done].

(** *** What the mails say *)

(** The format of the subject at each call site of [send_mail]. *)
Definition subject_format (st : site) : string :=
  match st with
  | AtArmed => "*** ARMED *** %Y-%m-%d %H:%M:%S"
  | AtUpdate => "Active %Y-%m-%d %H:%M:%S"
  | AtDetection => "Detection %Y-%m-%d %H:%M:%S"
  | AtDisarmed => "*** DISARMED *** %Y-%m-%d %H:%M:%S"
  | _ => EmptyString
  end.

Definition mail_site (st : site) : Prop :=
  st = AtArmed \/ st = AtUpdate \/ st = AtDetection \/ st = AtDisarmed.

(** The argument [files] at each call site: the paths of the burst for
    a detection, [None] otherwise. *)
Definition files_at (st : site) (subject : string) : option (list string) :=
  if site_eqb st AtDetection then Some (sequence out_directory subject)
  else None.

(** The names of the attachments of a detection mail: those of the five
    images, without the directory. *)
Definition attachment_names (d : datetime) : list string :=
  map (fun i => "Detection " ++ hyphenated d ++ "_" ++ i ++ ".jpg")
      ["1"; "2"; "3"; "4"; "5"].

Definition parts_at (st : site) (d : datetime) : list string :=
  if site_eqb st AtDetection then attachment_names d else [].

(** A call of [send_mail] as the script makes it, and the message that
    went out when it was delivered. *)
Definition posted (w : World) (e : entry) : Prop :=
  match act e with
  | SendMail st subject body files =>
      exists t,
        mail_site st /\
        subject = strftime (wall w t) (subject_format st) /\
        body = subject /\
        files = files_at st subject /\
        forall m,
          answer e = Delivered m ->
          m = mk_message USER RECIPIENT subject body (parts_at st (wall w t))
  | _ => True
  end.

Fixpoint no_slash (s : string) : bool :=
  match s with
  | EmptyString => true
  | String c s' => negb (Ascii.eqb c "/") && no_slash s'
  end.

(** [P] holds of every entry of a stretch. *)
Definition everywhere (P : entry -> Prop) (a b : N) (ext : list entry) : Prop :=
  Forall P ext.

(** *** The pace of the monitoring loop *)

(** The clock read of the line
    [if datetime.now().strftime("%H:%M:%S") in TIMES]. *)
Definition is_schedule_check (e : entry) : bool :=
  match act e with Now AtSchedule => true | _ => false end.

(** A poll of the PIR pin that read low. *)
Definition is_low (e : entry) : bool :=
  match act e, answer e with
  | GpioInput _, Level false => true
  | _, _ => false
  end.

Definition unscheduled (e : entry) : Prop := is_schedule_check e = false.

(** [paced prev ext]: a schedule check in [ext] comes right after a poll
    that read low; [prev] stands for the entry before [ext]. *)
Fixpoint paced (prev : bool) (ext : list entry) : Prop :=
  match ext with
  | [] => True
  | e :: ext' =>
      (is_schedule_check e = true -> prev = true) /\ paced (is_low e) ext'
  end.

(** Whether the last entry of [ext] is a poll that read low ([p] when
    [ext] is empty). *)
Fixpoint ending (p : bool) (ext : list entry) : bool :=
  match ext with
  | [] => p
  | e :: ext' => ending (is_low e) ext'
  end.

(** *** A world in which nothing stands in the way of arming *)

(** The operator does not press Ctrl+C, the camera is there and works,
    the storage can be written, [ifconfig] shows [out], with no wlan0:
    in it, and the operator types [line], y or Y. *)
Definition all_is_well (w : World) (out line : string) : Prop :=
  (forall t, ctrl_c w t = false) /\
  (forall t, camera_present w t = true) /\
  (forall t, camera_ok w t = true) /\
  (forall t, writable w t = true) /\
  (forall t, ifconfig w t = Some out) /\
  contains "wlan0:" out = false /\
  (forall t, keyboard w t = Some line) /\
  (line = "y" \/ line = "Y").

(** The lines before the [try] statement, all returned. *)
Definition set_up (t1 t2 t3 t4 t5 : N) : list entry :=
  [mk_entry 0 (Print ("PiREye" ++ nl ++ nl ++ "Ctrl+C to abort")) Done;
   mk_entry t1 GpioSetmode Done;
   mk_entry t2 (GpioSetup GPIO_PIR) Done;
   mk_entry t3 PiCamera_ Done;
   mk_entry t4 (SetRotation 180) Done;
   mk_entry t5 (Sleep 2) Done].

(** *** A capture and the reading it is named after *)

(** [led w out ext]: every capture of [ext] comes right after the clock
    read of its own detection, the line printed from that reading and
    the caption made from it, and it is handed the paths made from that
    very line. *)
Definition led (w : World) (out : string) (ext : list entry) : Prop :=
  forall x e y,
    ext = (x ++ e :: y)%list -> is_capture e = true ->
    exists x' t0 t1 t2,
      x = (x' ++ captioned w t0 t1 t2 Done)%list /\
      act e = CaptureSequence (sequence out (detection_time_at w t0)).

(** ** Example worlds *)

(** A clock that shows [d0] at instant 0 and runs true from there (within
    the day of [d0]). *)
Definition tick (d0 : datetime) (t : N) : datetime :=
  let s := (hour d0 * 3600 + minute d0 * 60 + second d0 + t / 1000000)%N in
  {| year := year d0; month := month d0; day := day d0;
     hour := (s / 3600) mod 24; minute := (s / 60) mod 60;
     second := s mod 60 |}.

(** The camera takes a second to open and three for a burst, the operator
    two seconds to answer, a poll of the pin a quarter of a second and a
    mail half a second. *)
Definition usual_latency (a : action) (t : N) : N :=
  match a with
  | PiCamera_ => 1000000
  | Input _ => 2000000
  | CaptureSequence _ => 3000000
  | SendMail _ _ _ _ => 500000
  | GpioInput _ => 250000
  | _ => 0
  end.

Definition between (lo hi t : N) : bool := ((lo <=? t) && (t <? hi))%N.

Definition never : N -> bool := fun _ => false.
Definition always : N -> bool := fun _ => true.

(** A world around the usual latencies, booted on 2 January 2024 at
    08:58:00, with WiFi off and a camera. *)
Definition world (interface answer_ : string) (interrupt working motion : N -> bool)
    (net : transport) (bytes_free : Z) : World :=
  {| latency := usual_latency;
     ctrl_c := interrupt;
     wall := tick (mk_datetime 2024 1 2 8 58 0);
     camera_present := always;
     ifconfig := fun _ => Some interface;
     keyboard := fun _ => Some answer_;
     writable := always;
     camera_ok := working;
     pir := motion;
     network := fun _ => net;
     statvfs := fun _ => mk_usage 32000000000 (32000000000 - bytes_free)
                                  bytes_free |}.

(** Nothing moves and nothing fails; the operator confirms the time. *)
Definition quiet_world : World :=
  world "eth0: flags=4163" "y" never always never reliable 20000000000.


(** The operator says the time is wrong. *)
Definition wrong_clock_world : World :=
  world "eth0: flags=4163" "N" never always never reliable 20000000000.

(** Motion two seconds after arming, with exactly 5 GB left. *)
Definition full_disk_world : World :=
  world "eth0: flags=4163" "y" never always (between 82000000 83000000)
        unreachable 5000000000.

(** Motion two seconds after arming, and a camera that has died by then. *)
Definition dead_camera_world : World :=
  world "eth0: flags=4163" "y" never (between 0 81000000)
        (between 82000000 83000000) reliable 20000000000.


(** Nothing moves and there is no space left at all; the operator
    presses Ctrl+C five seconds after arming. *)
Definition starved_world : World :=
  world "eth0: flags=4163" "y" (between 85000000 85250000) always never
        reliable 0.

(** Motion for seven seconds from two seconds after arming: one episode,
    and time for more than one burst. *)
Definition long_motion_world : World :=
  world "eth0: flags=4163" "y" never always (between 82000000 89000000)
        reliable 20000000000.

(** The same motion in front of a quick camera: a burst takes three
    tenths of a second, a mail a tenth, a poll of the pin a hundredth.
    The clock runs true. *)
Definition brisk_latency (a : action) (t : N) : N :=
  match a with
  | PiCamera_ => 1000000
  | Input _ => 2000000
  | CaptureSequence _ => 300000
  | SendMail _ _ _ _ => 100000
  | GpioInput _ => 10000
  | _ => 0
  end.

Definition brisk_world : World :=
  set_latency
    (world "eth0: flags=4163" "y" never always (between 80500000 89000000)
           reliable 20000000000)
    brisk_latency.

(** Nothing moves, and the clock is set back by one second (a time sync)
    120.5 seconds after the start, half a second past 09:00:00. *)
Definition set_back_world : World :=
  set_wall quiet_world
    (fun t => if (t <? 120500000)%N
              then tick (mk_datetime 2024 1 2 8 58 0) t
              else tick (mk_datetime 2024 1 2 8 58 0) (t - 1000000)).

(** The same motion with one byte more than 5 GB left. *)
Definition roomy_world : World :=
  world "eth0: flags=4163" "y" never always (between 82000000 89000000)
        reliable 5000000001.

(** The operator presses Ctrl+C during the arming delay. *)
Definition impatient_world : World :=
  world "eth0: flags=4163" "y" (between 20000000 21000000) always never
        reliable 20000000000.

(** No camera is attached. *)
Definition no_camera_world : World :=
  {| latency := usual_latency;
     ctrl_c := never;
     wall := tick (mk_datetime 2024 1 2 8 58 0);
     camera_present := never;
     ifconfig := fun _ => Some "eth0: flags=4163";
     keyboard := fun _ => Some "y";
     writable := always;
     camera_ok := always;
     pir := never;
     network := fun _ => reliable;
     statvfs := fun _ => mk_usage 32000000000 12000000000 20000000000 |}.

(** The operator types yes, then Y. *)
Definition hesitant_world : World :=
  {| latency := usual_latency;
     ctrl_c := never;
     wall := tick (mk_datetime 2024 1 2 8 58 0);
     camera_present := always;
     ifconfig := fun _ => Some "eth0: flags=4163";
     keyboard := fun t => if (t <? 4000000)%N then Some "yes" else Some "Y";
     writable := always;
     camera_ok := always;
     pir := never;
     network := fun _ => reliable;
     statvfs := fun _ => mk_usage 32000000000 12000000000 20000000000 |}.

(** The operator presses Ctrl+C five seconds after arming, and again
    while the disarm mail is on its way. *)
Definition insistent_world : World :=
  world "eth0: flags=4163" "y"
        (fun t => between 85000000 85250000 t || between 85250000 86000000 t)
        always never reliable 20000000000.

(** Motion from two seconds after arming until ten seconds past
    09:00:00. *)
Definition busy_world : World :=
  world "eth0: flags=4163" "y" never always (between 82000000 130000000)
        reliable 20000000000.


(** * Properties *)

Example strftime_detection :
  strftime (mk_datetime 2024 1 2 15 4 5) "Detection %Y-%m-%d %H:%M:%S"
  = "Detection 2024-01-02 15:04:05".
Proof. reflexivity. Qed.

(** ** Counting entries *)

Lemma count_app p tr1 tr2 : count p (tr1 ++ tr2)%list = count p tr1 + count p tr2.
Proof. unfold count. now rewrite filter_app, length_app. Qed.

Lemma count_none p tr :
  Forall (fun e => p e = false) tr -> count p tr = 0.
Proof.
  unfold count. induction 1 as [|e tr He _ IH]; cbn; [reflexivity|].
  now rewrite He.
Qed.

Section Footprints.

Variable w : World.
Variable P : entry -> Prop.
Variable E : exc -> Prop.

Lemma emits_ret {A} (a : A) : emits (ret a) P E.
Proof.
  intros s. exists []. cbn. rewrite app_nil_r.
  repeat split; auto; try discriminate. lia.
Qed.

Lemma emits_running {A} : emits (@running A) P E.
Proof.
  intros s. exists []. cbn. rewrite app_nil_r.
  repeat split; auto; try discriminate. lia.
Qed.

Lemma emits_raise {A} (e : exc) : E e -> emits (@raise A e) P E.
Proof.
  intros He s. exists []. cbn. rewrite app_nil_r.
  repeat split; auto; try lia. intros e' [= <-]. exact He.
Qed.

Lemma emits_bind {A B} (m : M A) (f : A -> M B) :
  emits m P E -> (forall a, emits (f a) P E) -> emits (bind m f) P E.
Proof.
  intros Hm Hf s. unfold bind.
  destruct (Hm s) as (tr1 & Ht1 & Hp1 & Ha1 & He1 & Hn1).
  destruct (m s) as [[a|e|] s1]; cbn in *.
  - destruct (Hf a s1) as (tr2 & Ht2 & Hp2 & Ha2 & He2 & Hn2).
    exists (tr1 ++ tr2)%list. rewrite Ht2, Ht1, app_assoc.
    repeat split; auto; try congruence; try lia.
    apply Forall_app; auto.
  - exists tr1. repeat split; try assumption. intros e0 [= <-]. auto.
  - exists tr1. repeat split; try assumption. discriminate.
Qed.

Lemma emits_atomic (a : action) :
  (forall t, P (mk_entry t a Done)) -> emits (atomic w a) P E.
Proof.
  intros Hp s. exists [mk_entry (now s) a Done]. cbn.
  repeat split; auto; try discriminate. lia.
Qed.

Lemma emits_call {A} (a : action) (hold : N) (ans : N -> result A)
    (show : A -> reply) :
  (forall t r, P (mk_entry t a r)) ->
  E KeyboardInterrupt ->
  (forall t e, ans t = Raise e -> E e) ->
  emits (call w a hold ans show) P E.
Proof.
  intros Hp Hk He s. unfold call.
  destruct (ctrl_c w (now s)).
  - eexists [_]. cbn. repeat split; auto; try lia.
    intros e [= <-]. exact Hk.
  - destruct (ans (now s)) as [v|e] eqn:Ha.
    + eexists [_]. cbn. repeat split; auto; try lia. discriminate.
    + eexists [_]. cbn. repeat split; auto; try lia.
      intros e' [= <-]. eauto.
Qed.

(** The value a clock read hands on is a reading of [wall]. *)
Lemma emits_now {B} (st : site) (f : datetime -> M B) :
  (forall t d, P (mk_entry t (Now st) (Clock d))) ->
  (forall t, emits (f (wall w t)) P E) ->
  emits (bind (datetime_now w st) f) P E.
Proof.
  intros Hp Hf s. unfold bind, datetime_now.
  destruct (Hf (now s) (log (now s) (Now st) (Clock (wall w (now s)))
                            (latency w (Now st) (now s)) s))
    as (tr & Ht & Hq & Ha & He & Hn).
  eexists (_ :: tr). cbn in *. rewrite Ht, <- app_assoc. cbn.
  repeat split; auto. lia.
Qed.

(** The level a poll hands on is a reading of [pir]. *)
Lemma emits_poll {B} (pin : N) (f : bool -> M B) :
  (forall t r, P (mk_entry t (GpioInput pin) r)) ->
  E KeyboardInterrupt ->
  (forall t, emits (f (pir w t)) P E) ->
  emits (bind (GPIO_input w pin) f) P E.
Proof.
  intros Hp Hk Hf s. unfold bind, GPIO_input, call.
  destruct (ctrl_c w (now s)).
  - eexists [_]. cbn. repeat split; auto; try lia.
    intros e [= <-]. exact Hk.
  - match goal with |- context [f _ ?s1] =>
      destruct (Hf (now s) s1) as (tr & Ht & Hq & Ha & He & Hn) end.
    eexists (_ :: tr). cbn in *. rewrite Ht, <- app_assoc. cbn.
    repeat split; auto. lia.
Qed.

Lemma emits_get_armed : emits get_armed P E.
Proof.
  intros s. exists []. cbn. rewrite app_nil_r.
  repeat split; auto; try discriminate. lia.
Qed.

Lemma emits_except (m : M unit) :
  emits m P (let_through E) -> emits (except_Exception m) P E.
Proof.
  intros Hm s. unfold except_Exception.
  destruct (Hm s) as (tr & Ht & Hp & Ha & He & Hn).
  destruct (m s) as [[a|[e|]|] s1]; cbn in *;
    exists tr; repeat split; auto; try discriminate.
  intros e [= <-]. apply (He KeyboardInterrupt). reflexivity.
Qed.

End Footprints.

Lemma emits_weaken {A} (m : M A) (P P' : entry -> Prop) (E E' : exc -> Prop) :
  emits m P E ->
  (forall e, P e -> P' e) -> (forall e, E e -> E' e) ->
  emits m P' E'.
Proof.
  intros Hm Hp He s. destruct (Hm s) as (tr & Ht & Hq & Ha & Hr & Hn).
  exists tr. repeat split; auto.
  eapply Forall_impl; eauto.
Qed.

Lemma emits_and {A} (m : M A) (P P' : entry -> Prop) (E E' : exc -> Prop) :
  emits m P E -> emits m P' E' ->
  emits m (fun e => P e /\ P' e) (fun e => E e /\ E' e).
Proof.
  intros H H' s.
  destruct (H s) as (tr & Ht & Hp & Ha & He & Hn).
  destruct (H' s) as (tr' & Ht' & Hp' & _ & He' & _).
  assert (tr' = tr) by (rewrite Ht in Ht'; eapply app_inv_head; eauto).
  subst tr'. exists tr. repeat split; auto.
  apply Forall_forall. intros e Hin. split.
  - eapply Forall_forall in Hp; eauto.
  - eapply Forall_forall in Hp'; eauto.
Qed.

Ltac side_condition :=
  cbn;
  repeat match goal with
         | |- forall _, _ => intro
         | H : guard _ _ _ = Raise _ |- _ =>
             unfold guard in H
         | H : (if ?b then _ else _) = Raise _ |- _ => destruct b
         | H : match ?x with Some _ => _ | None => _ end = Raise _ |- _ =>
             destruct x
         | H : match ?x with Ret _ => _ | Raise _ => _ end = Raise _ |- _ =>
             destruct x eqn:?
         | H : Ret _ = Raise _ |- _ => discriminate H
         | H : Raise _ = Raise _ |- _ => injection H as <-
         end;
  cbn;
  try solve [ auto | discriminate | intuition (auto; discriminate)
            | eexists; eauto | intuition eauto ].

Lemma attach_raises tp files e :
  attach tp files = Raise e -> e = Exception_ OSError.
Proof.
  induction files as [|i files IH]; cbn; [discriminate|].
  destruct (can_open tp i); [|now intros [= <-]].
  destruct (attach tp files); [discriminate|].
  intros [= <-]. now apply IH.
Qed.

Lemma session_raises tp steps e :
  session tp steps = Raise e -> e = Exception_ SMTPException.
Proof.
  induction steps as [|st steps IH]; cbn; [discriminate|].
  destruct (accepts tp st); [exact IH|now intros [= <-]].
Qed.

Arguments deliver : simpl never.

(** What the body of [send_mail] raises is an [Exception]. *)
Lemma deliver_raises tp user recipient subject body files e :
  deliver tp user recipient subject body files = Raise e ->
  e = Exception_ OSError \/ e = Exception_ SMTPException.
Proof.
  unfold deliver.
  destruct (attach tp (files_or_empty files)) eqn:Ha.
  - destruct (session tp dialogue) eqn:Hs; [discriminate|].
    intros [= <-]. right. eapply session_raises; eauto.
  - intros [= <-]. left. eapply attach_raises; eauto.
Qed.

Lemma emits_send_mail (w : World) (P : entry -> Prop) (E : exc -> Prop)
    st user app_pwd recipient subject body files server port :
  (forall t r, P (mk_entry t (SendMail st subject body files) r)) ->
  (forall t, P (mk_entry t (Print "Transmitted") Done)) ->
  E KeyboardInterrupt ->
  (forall x, E (Exception_ x)) ->
  emits (send_mail w st user app_pwd recipient subject body files server port)
        P E.
Proof.
  intros Hs Hp Hk Hx. unfold send_mail.
  apply emits_bind.
  - apply emits_call; auto.
    intros t e He. apply deliver_raises in He as [-> | ->]; auto.
  - intros _ s. exists [mk_entry (now s) (Print "Transmitted") Done]. cbn.
    repeat split; auto; try discriminate. lia.
Qed.

Ltac footprint_step :=
  cbv beta zeta;
  lazymatch goal with
  | |- emits (ret _) _ _ => apply emits_ret
  | |- emits running _ _ => apply emits_running
  | |- emits (raise _) _ _ => apply emits_raise
  | |- emits get_armed _ _ => apply emits_get_armed
  | |- emits (atomic _ _) _ _ => apply emits_atomic
  | |- emits (call _ _ _ _ _) _ _ => apply emits_call
  | |- emits (except_Exception _) _ _ => apply emits_except
  | |- emits (send_mail _ _ _ _ _ _ _ _ _ _) _ _ => apply emits_send_mail
  | |- emits (bind (datetime_now _ _) _) _ _ => apply emits_now
  | |- emits (bind (GPIO_input _ _) _) _ _ => apply emits_poll
  | |- emits (bind _ _) _ _ => apply emits_bind
  | |- emits (if ?b then _ else _) _ _ => destruct b
  | |- forall _, emits _ _ _ => intro
  end.

Ltac footprint := repeat footprint_step.

Section PartFootprints.

Variable w : World.

Lemma emits_detection out_directory :
  emits (detection w out_directory) (armed_entry w out_directory) armed_exc.
Proof.
  unfold detection, print, annotate_text, capture_sequence, disk_usage.
  footprint; side_condition.
Qed.

Lemma emits_detect fuel out_directory :
  emits (detect w fuel out_directory) (armed_entry w out_directory) armed_exc.
Proof.
  induction fuel as [|fuel IH]; cbn [detect]; [apply emits_running|].
  apply emits_poll; [side_condition | side_condition | intros t].
  destruct (pir w t); [|apply emits_ret].
  apply emits_bind; [apply emits_detection|intros _; exact IH].
Qed.

Lemma emits_status_update out_directory :
  emits (status_update w) (armed_entry w out_directory) armed_exc.
Proof.
  unfold status_update, print, time_sleep.
  footprint; side_condition.
Qed.

Lemma emits_monitor fuel out_directory :
  emits (monitor w fuel out_directory) (armed_entry w out_directory) armed_exc.
Proof.
  induction fuel as [|fuel IH]; cbn [monitor]; [apply emits_running|].
  apply emits_bind; [apply emits_status_update|intros _].
  apply emits_bind; [apply emits_detect|intros _; exact IH].
Qed.

Lemma emits_announce out_directory :
  emits (announce w) (armed_entry w out_directory) armed_exc.
Proof.
  unfold announce, print.
  footprint; side_condition.
Qed.

Lemma emits_datetime_check fuel :
  emits (datetime_check w fuel) disarmed_entry disarmed_exc.
Proof.
  induction fuel as [|fuel IH]; cbn [datetime_check]; [apply emits_running|].
  unfold input, print.
  footprint; try exact IH; side_condition.
Qed.

Lemma emits_checks fuel :
  emits (checks w fuel) disarmed_entry disarmed_exc.
Proof.
  unfold checks, check_output, print.
  footprint; try apply emits_datetime_check; side_condition.
Qed.

Lemma emits_preparation out_directory :
  emits (preparation w out_directory) disarmed_entry disarmed_exc.
Proof.
  unfold preparation, mkdir, start_preview, stop_preview, annotate_text,
    time_sleep.
  footprint; side_condition.
Qed.

Lemma emits_arming_delay :
  emits (arming_delay w) disarmed_entry disarmed_exc.
Proof.
  unfold arming_delay, print, time_sleep.
  footprint; side_condition.
Qed.

Lemma emits_teardown :
  emits (teardown w) final_entry (fun _ => True).
Proof.
  unfold teardown, print.
  footprint; side_condition.
Qed.

Lemma emits_announce_outside :
  emits (announce w) outside_loop (fun _ => True).
Proof.
  unfold announce, print.
  footprint; side_condition.
Qed.

Lemma emits_setup :
  emits (setup w) setup_entry (fun _ => True).
Proof.
  unfold setup, print, PiCamera, time_sleep.
  footprint; side_condition.
Qed.

(** Outside a detection nothing looks at the free space and nothing
    raises the low-space exception. *)
Lemma emits_idle_status_update :
  emits (status_update w) idle_entry not_low_space.
Proof.
  unfold status_update, print, time_sleep.
  footprint; unfold idle_entry, not_low_space; side_condition.
Qed.

Lemma emits_idle_announce :
  emits (announce w) idle_entry not_low_space.
Proof.
  unfold announce, print.
  footprint; unfold idle_entry, not_low_space; side_condition.
Qed.

Lemma emits_idle_poll :
  emits (GPIO_input w GPIO_PIR) idle_entry not_low_space.
Proof.
  unfold GPIO_input.
  footprint; unfold idle_entry, not_low_space; side_condition.
Qed.

Lemma emits_idle_disarmed {A} (m : M A) :
  emits m disarmed_entry disarmed_exc -> emits m idle_entry not_low_space.
Proof.
  intros H. eapply emits_weaken; [exact H| |].
  - intros [t a r]. unfold disarmed_entry, idle_entry.
    destruct a; cbn; intuition.
  - intros [x|]; unfold not_low_space; cbn; congruence.
Qed.

End PartFootprints.

(** ** The [try] statement as a whole *)

Ltac farewell :=
  repeat split; cbn; auto;
  repeat (apply Forall_cons; cbn; auto); try apply Forall_nil.

Section TryStatement.

Variable w : World.

Lemma emits_inv {A} (m : M A) P E s c s1 :
  emits m P E -> m s = (c, s1) ->
  exists tr,
    trace s1 = (trace s ++ tr)%list /\ Forall P tr /\
    armed s1 = armed s /\ (forall e, c = Raised e -> E e) /\
    (now s <= now s1)%N.
Proof.
  intros Hm Hs. destruct (Hm s) as (tr & H). rewrite Hs in H. now exists tr.
Qed.

(** The monitoring loop has no normal end: it is left by an exception or
    not at all. *)
Lemma detect_monitor_no_return fuel :
  forall out s, fst (monitor w fuel out s) <> Normal tt.
Proof.
  induction fuel as [|fuel IH]; intros out s; cbn [monitor]; [discriminate|].
  unfold bind.
  destruct (status_update w s) as [[[]|e|] s1]; cbn; try discriminate.
  destruct (detect w fuel out s1) as [[[]|e|] s2]; cbn; try discriminate.
  apply IH.
Qed.

(** The [finally] suite: the camera is closed, then the pins are
    released, then comes the farewell: the word Cancelled when [armed] is
    false, one disarm message otherwise. *)
Lemma teardown_spec s :
  exists t1 t2 tl,
    trace (snd (teardown w s))
    = (trace s ++ mk_entry t1 CameraClose Done
                  :: mk_entry t2 GpioCleanup Done :: tl)%list /\
    Forall farewell_entry tl /\
    count (is_send AtDisarmed) tl = (if armed s then 1 else 0) /\
    count (is_print "Cancelled") tl = (if armed s then 0 else 1) /\
    armed (snd (teardown w s)) = armed s /\
    (fst (teardown w s) = Normal tt \/
     fst (teardown w s) = Raised KeyboardInterrupt).
Proof.
  unfold teardown, bind, atomic, get_armed, datetime_now, print, atomic,
    except_Exception, send_mail, bind, call, print_transmitted.
  cbn. destruct (armed s) eqn:Harmed; cbn.
  - destruct (ctrl_c w _); cbn.
    + do 3 eexists. rewrite <- !app_assoc. cbn. split; [reflexivity|].
      farewell.
    + match goal with
      | |- context [deliver ?a ?b ?c ?d ?e ?f] =>
          destruct (deliver a b c d e f) as [m|[x|]]
      end; cbn;
        do 3 eexists; rewrite <- !app_assoc; cbn; (split; [reflexivity|]);
        farewell.
  - do 3 eexists. rewrite <- !app_assoc. cbn. split; [reflexivity|].
    farewell.
Qed.

(** How the suite of the [try] statement can stand: a disarmed stretch,
    then, once [armed] is true, an armed stretch.  It has no normal end. *)
Lemma suite_stretches (P1 : entry -> Prop) (E1 : exc -> Prop) fuel s c s1 :
  emits (announce w) P1 E1 ->
  emits (monitor w fuel out_directory) P1 E1 ->
  suite w fuel s = (c, s1) ->
  exists tr0 tr1,
    trace s1 = (trace s ++ tr0 ++ tr1)%list /\
    Forall disarmed_entry tr0 /\
    Forall P1 tr1 /\
    c <> Normal tt /\
    (if armed s1
     then forall e, c = Raised e -> E1 e
     else tr1 = [] /\ forall e, c = Raised e -> disarmed_exc e).
Proof.
  intros Hannounce Hmonitor.
  unfold suite. unfold bind at 1. cbn [set_armed].
  set (s0 := {| now := now s; armed := false; trace := trace s |}).
  assert (H0 : trace s0 = trace s) by reflexivity.
  assert (A0 : armed s0 = false) by reflexivity.
  clearbody s0. rewrite <- H0. clear H0 s.
  unfold bind at 1.
  destruct (checks w fuel s0) as [[[]|e|] sa] eqn:Ea;
    destruct (emits_inv _ _ _ _ _ _ (emits_checks w fuel) Ea)
      as (ta & Hta & Hpa & Haa & Hea & _);
    [| intros [= <- <-]; exists ta, []; rewrite app_nil_r, Haa, A0;
       repeat split; auto; discriminate ..].
  unfold bind at 1.
  destruct (preparation w (DIRECTORY ++ "/Detections/") sa)
    as [[[]|e|] sb] eqn:Eb;
    destruct (emits_inv _ _ _ _ _ _ (emits_preparation w _) Eb)
      as (tb & Htb & Hpb & Hab & Heb & _);
    [| intros [= <- <-]; exists (ta ++ tb)%list, [];
       rewrite app_nil_r, Hab, Haa, A0, Htb, Hta, app_assoc;
       repeat split; auto using Forall_app; try discriminate;
       apply Forall_app; auto ..].
  unfold bind at 1.
  destruct (arming_delay w sb) as [[[]|e|] sc] eqn:Ec;
    destruct (emits_inv _ _ _ _ _ _ (emits_arming_delay w) Ec)
      as (tc & Htc & Hpc & Hac & Hec & _);
    [| intros [= <- <-]; exists (ta ++ tb ++ tc)%list, [];
       rewrite app_nil_r, Hac, Hab, Haa, A0, Htc, Htb, Hta, <- !app_assoc;
       repeat split; auto; try discriminate;
       repeat (apply Forall_app; split); auto ..].
  unfold bind at 1. cbn [set_armed].
  set (sd := {| now := now sc; armed := true; trace := trace sc |}).
  assert (Hd : trace sd = trace sc) by reflexivity.
  assert (Ad : armed sd = true) by reflexivity.
  clearbody sd.
  assert (Hdis : Forall disarmed_entry (ta ++ tb ++ tc)%list)
    by (repeat (apply Forall_app; split); auto).
  assert (Htr : trace sd = (trace s0 ++ (ta ++ tb ++ tc))%list)
    by (rewrite Hd, Htc, Htb, Hta, <- !app_assoc; reflexivity).
  unfold bind at 1.
  destruct (announce w sd) as [[[]|e|] se] eqn:Ee;
    destruct (emits_inv _ _ _ _ _ _ Hannounce Ee)
      as (te & Hte & Hpe & Hae & Hee & _);
    [| intros [= <- <-]; exists (ta ++ tb ++ tc)%list, te;
       rewrite Hae, Ad, Hte, Htr, <- !app_assoc;
       repeat split; auto; discriminate ..].
  intros Hm.
  destruct (emits_inv _ _ _ _ _ _ Hmonitor Hm)
    as (tm & Htm & Hpm & Ham & Hem & _).
  exists (ta ++ tb ++ tc)%list, (te ++ tm)%list.
  rewrite Ham, Hae, Ad, Htm, Hte, Htr, <- !app_assoc.
  repeat split; auto.
  - apply Forall_app; auto.
  - intros ->. apply (detect_monitor_no_return fuel out_directory se).
    change (fst (monitor w fuel (DIRECTORY ++ "/Detections/") se) = Normal tt).
    now rewrite Hm.
Qed.

Lemma suite_outcome fuel s c s1 :
  suite w fuel s = (c, s1) ->
  exists tr0 tr1,
    trace s1 = (trace s ++ tr0 ++ tr1)%list /\
    Forall disarmed_entry tr0 /\
    Forall (armed_entry w out_directory) tr1 /\
    c <> Normal tt /\
    (if armed s1
     then forall e, c = Raised e -> armed_exc e
     else tr1 = [] /\ forall e, c = Raised e -> disarmed_exc e).
Proof.
  apply suite_stretches; [apply emits_announce|apply emits_monitor].
Qed.

(** Once its suite is left, the [try] statement runs the [finally] suite
    on the state the suite left, and ends as the [finally] suite ends. *)
Lemma system_left fuel s e s1 :
  suite w fuel s = (Raised e, s1) ->
  system w fuel s = teardown w s1.
Proof.
  intros Hs. unfold system, try_finally, except_Exception_KeyboardInterrupt.
  rewrite Hs. destruct e; reflexivity.
Qed.

Lemma system_running fuel s s1 :
  suite w fuel s = (Running, s1) ->
  system w fuel s = (Running, s1).
Proof.
  intros Hs. unfold system, try_finally, except_Exception_KeyboardInterrupt.
  now rewrite Hs.
Qed.

End TryStatement.

(** ** Runs of the whole script *)

Section Runs.

Variable w : World.

(** The lines before the [try] statement have no loop. *)
Lemma bind_ends {A B} (m : M A) (f : A -> M B) s :
  fst (m s) <> Running -> (forall a s', fst (f a s') <> Running) ->
  fst (bind m f s) <> Running.
Proof.
  unfold bind. destruct (m s) as [[a|e|] s']; cbn; auto. discriminate.
Qed.

Lemma call_ends {A} a hold (ans : N -> result A) show s :
  fst (call w a hold ans show s) <> Running.
Proof.
  unfold call. destruct (ctrl_c w (now s)); [discriminate|].
  destruct (ans (now s)); discriminate.
Qed.

Lemma setup_ends s : fst (setup w s) <> Running.
Proof.
  unfold setup, print, PiCamera, time_sleep.
  repeat (apply bind_ends; [|intros ? ?]);
    solve [apply call_ends | discriminate].
Qed.

(** A run stops in the setup lines, or is still inside the suite of the
    [try] statement, or has left it and gone through the [finally]
    suite. *)
Lemma run_cases fuel :
  (exists e s0, setup w boot = (Raised e, s0) /\ run w fuel = (Raised e, s0)) \/
  (exists s0, setup w boot = (Normal tt, s0) /\
     ((exists s1, suite w fuel s0 = (Running, s1) /\
                  run w fuel = (Running, s1)) \/
      (exists e s1, suite w fuel s0 = (Raised e, s1) /\
                    run w fuel = teardown w s1))).
Proof.
  assert (Hrun : run w fuel
                 = match setup w boot with
                   | (Normal _, s0) => system w fuel s0
                   | (Raised e, s0) => (Raised e, s0)
                   | (Running, s0) => (Running, s0)
                   end) by reflexivity.
  rewrite Hrun. clear Hrun.
  pose proof (setup_ends boot) as Hend.
  destruct (setup w boot) as [[[]|e|] s0]; cbn in Hend; [| |congruence].
  - right. exists s0. split; [reflexivity|].
    destruct (suite w fuel s0) as [[[]|e|] s1] eqn:Hs.
    + exfalso.
      destruct (suite_outcome w fuel s0 _ _ Hs) as (_ & _ & _ & _ & _ & H & _).
      now apply H.
    + right. exists e, s1. split; [reflexivity|].
      now apply system_left with (e := e).
    + left. exists s1. split; [reflexivity|]. now apply system_running.
  - left. now exists e, s0.
Qed.

Lemma count_zero (P : entry -> Prop) (p : entry -> bool) tr :
  (forall e, P e -> p e = false) -> Forall P tr -> count p tr = 0.
Proof.
  intros Hp Htr. apply count_none. eapply Forall_impl; eauto.
Qed.

Lemma print_other text text' :
  text' <> text -> String.eqb text text' = false.
Proof. intros H. apply String.eqb_neq. congruence. Qed.

Lemma setup_trace s c s0 :
  setup w s = (c, s0) ->
  exists pre, trace s0 = (trace s ++ pre)%list /\ Forall setup_entry pre /\
              armed s0 = armed s.
Proof.
  intros H.
  destruct (emits_inv _ _ _ _ _ _ (emits_setup w) H)
    as (pre & ? & ? & ? & _ & _).
  now exists pre.
Qed.

(** The trace of a run that left the [try] statement: the setup lines, the
    disarmed stretch, the armed stretch (empty when [armed] stayed false),
    the two release calls and the farewell. *)
Lemma exit_anatomy fuel s0 e s1 :
  setup w boot = (Normal tt, s0) ->
  suite w fuel s0 = (Raised e, s1) ->
  exists pre tr0 tr1 t1 t2 tl,
    trace (snd (run w fuel))
    = (pre ++ tr0 ++ tr1 ++ mk_entry t1 CameraClose Done
                         :: mk_entry t2 GpioCleanup Done :: tl)%list /\
    trace s1 = (pre ++ tr0 ++ tr1)%list /\
    Forall setup_entry pre /\
    Forall disarmed_entry tr0 /\
    Forall (armed_entry w out_directory) tr1 /\
    Forall farewell_entry tl /\
    count (is_send AtDisarmed) tl = (if armed s1 then 1 else 0) /\
    count (is_print "Cancelled") tl = (if armed s1 then 0 else 1) /\
    armed (snd (run w fuel)) = armed s1 /\
    (if armed s1 then armed_exc e else tr1 = [] /\ disarmed_exc e) /\
    (fst (run w fuel) = Normal tt \/ fst (run w fuel) = Raised KeyboardInterrupt).
Proof.
  intros Hsetup Hsuite.
  destruct (run_cases fuel) as [(e' & s0' & H & _)|(s0' & H & Hrun)];
    [congruence|].
  assert (s0' = s0) by congruence. subst s0'. clear H.
  destruct Hrun as [(s1' & H & _)|(e' & s1' & H & Hrun)]; [congruence|].
  assert (s1' = s1) by congruence. subst s1'. clear H e'.
  destruct (setup_trace _ _ _ Hsetup) as (pre & Hpre & Hfp & _).
  cbn in Hpre.
  destruct (suite_outcome w fuel s0 _ _ Hsuite)
    as (tr0 & tr1 & Htr & H0 & H1 & _ & Hexc).
  destruct (teardown_spec w s1)
    as (t1 & t2 & tl & Htl & Hf & Hd & Hc & Ha & Hr).
  exists pre, tr0, tr1, t1, t2, tl.
  rewrite Hrun, Htl, Htr, Hpre, <- !app_assoc.
  repeat split; auto.
  destruct (armed s1); intuition.
Qed.

(** The trace of any run, ended or not: the setup lines, the disarmed
    stretch, the armed stretch and, once the [try] statement is left, the
    [finally] suite. *)
Lemma run_anatomy (P1 : entry -> Prop) (E1 : exc -> Prop) fuel :
  emits (announce w) P1 E1 ->
  emits (monitor w fuel out_directory) P1 E1 ->
  exists pre tr0 tr1 fin,
    trace (snd (run w fuel)) = (pre ++ tr0 ++ tr1 ++ fin)%list /\
    Forall setup_entry pre /\
    Forall disarmed_entry tr0 /\
    Forall P1 tr1 /\
    Forall final_entry fin.
Proof.
  intros Hannounce Hmonitor.
  destruct (run_cases fuel)
    as [(e & s0 & Hs & Hr)|(s0 & Hs & [(s1 & Hx & Hr)|(e & s1 & Hx & Hr)])].
  - destruct (setup_trace _ _ _ Hs) as (pre & Hpre & Hfp & _).
    exists pre, [], [], []. rewrite Hr. cbn [snd]. rewrite Hpre, !app_nil_r.
    repeat split; auto.
  - destruct (setup_trace _ _ _ Hs) as (pre & Hpre & Hfp & _).
    destruct (suite_stretches w P1 E1 fuel s0 _ _ Hannounce Hmonitor Hx)
      as (tr0 & tr1 & Htr & H0 & H1 & _).
    exists pre, tr0, tr1, []. rewrite Hr. cbn [snd].
    rewrite Htr, Hpre, !app_nil_r, <- !app_assoc.
    repeat split; auto.
  - destruct (setup_trace _ _ _ Hs) as (pre & Hpre & Hfp & _).
    destruct (suite_stretches w P1 E1 fuel s0 _ _ Hannounce Hmonitor Hx)
      as (tr0 & tr1 & Htr & H0 & H1 & _).
    destruct (teardown_spec w s1) as (t1 & t2 & tl & Htl & Hf & _).
    exists pre, tr0, tr1,
      (mk_entry t1 CameraClose Done :: mk_entry t2 GpioCleanup Done :: tl).
    rewrite Hr, Htl, Htr, Hpre, <- !app_assoc.
    repeat split; auto.
    repeat (apply Forall_cons; [exact I|]).
    eapply Forall_impl; [|exact Hf].
    intros [t a r]; destruct a; cbn; tauto.
Qed.

End Runs.

(** ** Teardown and the disarm message *)

Section Exits.

Variable w : World.

Ltac by_kind :=
  let t := fresh "t" in
  let a := fresh "a" in
  let r := fresh "r" in
  intros [t a r]; destruct a; cbn -[String.eqb]; try tauto;
  try (intros; apply print_other; assumption);
  try solve [ intuition (subst; auto; discriminate)
            | intuition (subst; reflexivity) ].

Lemma setup_entry_plain p :
  p = is_close \/ p = is_cleanup \/ p = is_send AtDisarmed \/
  p = is_print "Cancelled" \/ p = is_capture \/ p = is_disk_usage \/
  p = is_poll ->
  forall e, setup_entry e -> p e = false.
Proof. intros [->|[->|[->|[->|[->|[->| ->]]]]]]; by_kind. Qed.

Lemma disarmed_entry_plain p :
  p = is_close \/ p = is_cleanup \/ p = is_send AtDisarmed \/
  p = is_print "Cancelled" \/ p = is_capture \/ p = is_disk_usage \/
  p = is_poll ->
  forall e, disarmed_entry e -> p e = false.
Proof. intros [->|[->|[->|[->|[->|[->| ->]]]]]]; by_kind. Qed.

Lemma armed_entry_plain p :
  p = is_close \/ p = is_cleanup \/ p = is_send AtDisarmed \/
  p = is_print "Cancelled" ->
  forall e, armed_entry w out_directory e -> p e = false.
Proof. intros [->|[->|[->| ->]]]; by_kind. Qed.

Lemma farewell_entry_plain p :
  p = is_close \/ p = is_cleanup \/ p = is_capture \/ p = is_disk_usage \/
  p = is_poll ->
  forall e, farewell_entry e -> p e = false.
Proof. intros [->|[->|[->|[->| ->]]]]; by_kind. Qed.

Lemma final_entry_plain p :
  p = is_capture \/ p = is_disk_usage \/ p = is_poll ->
  forall e, final_entry e -> p e = false.
Proof. intros [->|[->| ->]]; by_kind. Qed.

End Exits.

(** Counting over the pieces of a trace whose kinds are known. *)
Ltac tally :=
  rewrite ?count_app;
  repeat match goal with
         | |- context [count ?p (?a :: ?b :: ?l)] =>
             is_var l;
             change (a :: b :: l) with ([a; b] ++ l)%list;
             rewrite (count_app p [a; b] l)
         end;
  repeat match goal with
         | H : Forall setup_entry ?l |- context [count ?p ?l] =>
             rewrite (count_zero _ p l (setup_entry_plain p ltac:(auto 10)) H)
         | H : Forall disarmed_entry ?l |- context [count ?p ?l] =>
             rewrite (count_zero _ p l
                        (disarmed_entry_plain p ltac:(auto 10)) H)
         | H : Forall (armed_entry ?w _) ?l |- context [count ?p ?l] =>
             rewrite (count_zero _ p l
                        (armed_entry_plain w p ltac:(auto 10)) H)
         | H : Forall farewell_entry ?l |- context [count ?p ?l] =>
             rewrite (count_zero _ p l
                        (farewell_entry_plain p ltac:(auto 10)) H)
         | H : Forall final_entry ?l |- context [count ?p ?l] =>
             rewrite (count_zero _ p l
                        (final_entry_plain p ltac:(auto 10)) H)
         end;
  cbn [count filter is_close is_cleanup is_send is_capture is_disk_usage
       is_poll act length site_eqb Nat.add].

(** ** Sequencing

    Properties of the entries a part appends that survive sequencing:
    they hold of nothing, and of two stretches in a row when they hold
    of each. *)

Section Sequencing.

Variable T : N -> N -> list entry -> Prop.
Hypothesis T_nil : forall a, T a a [].
Hypothesis T_app :
  forall a b c x y, T a b x -> T b c y -> T a c (x ++ y)%list.

Lemma yields_ret {A} (a : A) : yields (ret a) T.
Proof. intros s. exists []. cbn. rewrite app_nil_r. auto. Qed.

Lemma yields_running {A} : yields (@running A) T.
Proof. intros s. exists []. cbn. rewrite app_nil_r. auto. Qed.

Lemma yields_raise {A} e : yields (@raise A e) T.
Proof. intros s. exists []. cbn. rewrite app_nil_r. auto. Qed.

Lemma yields_set_armed b : yields (set_armed b) T.
Proof. intros s. exists []. cbn. rewrite app_nil_r. auto. Qed.

Lemma yields_bind {A B} (m : M A) (f : A -> M B) :
  yields m T -> (forall a, yields (f a) T) -> yields (bind m f) T.
Proof.
  intros Hm Hf s. unfold bind.
  destruct (Hm s) as (x & Hx & Tx).
  destruct (m s) as [[a|e|] s1]; cbn in *; [|now exists x..].
  destruct (Hf a s1) as (y & Hy & Ty).
  exists (x ++ y)%list. rewrite Hy, Hx, app_assoc. eauto.
Qed.

Lemma yields_except_both (m : M unit) :
  yields m T -> yields (except_Exception_KeyboardInterrupt m) T.
Proof.
  intros Hm s. unfold except_Exception_KeyboardInterrupt.
  destruct (Hm s) as (x & Hx & Tx).
  destruct (m s) as [[a|[e|]|] s1]; cbn in *; now exists x.
Qed.

Lemma yields_try_finally (m f : M unit) :
  yields m T -> yields f T -> yields (try_finally m f) T.
Proof.
  intros Hm Hf s. unfold try_finally.
  destruct (Hm s) as (x & Hx & Tx).
  destruct (m s) as [[a|e|] s1]; cbn in *; [| |now exists x].
  - destruct (Hf s1) as (y & Hy & Ty).
    exists (x ++ y)%list. rewrite Hy, Hx, app_assoc. eauto.
  - destruct (Hf s1) as (y & Hy & Ty).
    exists (x ++ y)%list.
    destruct (f s1) as [[b|e'|] s2]; cbn in *;
      rewrite Hy, Hx, app_assoc; eauto.
Qed.

Lemma yields_of_emits {A} (m : M A) P E :
  emits m P E ->
  (forall a b ext, (a <= b)%N -> Forall P ext -> T a b ext) ->
  yields m T.
Proof.
  intros Hm HT s. destruct (Hm s) as (ext & Hx & Hp & _ & _ & Hn).
  exists ext. auto.
Qed.

(** A run: what holds of the entries outside the monitoring loop, of the
    scheduled status update and of the detection loop holds of the whole
    run. *)
Section Script.

Variable w : World.
Hypothesis T_outside :
  forall a b ext, (a <= b)%N -> Forall outside_loop ext -> T a b ext.
Hypothesis T_status_update : yields (status_update w) T.
Hypothesis T_detect : forall fuel out, yields (detect w fuel out) T.

Lemma yields_monitor fuel out : yields (monitor w fuel out) T.
Proof.
  induction fuel as [|fuel IH]; cbn [monitor]; [apply yields_running|].
  apply yields_bind; [exact T_status_update|intros _].
  apply yields_bind; [apply T_detect|intros _; exact IH].
Qed.

Ltac outside H by_kind :=
  eapply yields_of_emits; [apply H|];
  intros a b ext Hab Hext; apply T_outside; [exact Hab|];
  eapply Forall_impl; [|exact Hext]; by_kind.

Lemma yields_suite fuel : yields (suite w fuel) T.
Proof.
  unfold suite.
  apply yields_bind; [apply yields_set_armed|intros _].
  apply yields_bind; [|intros _].
  { outside (emits_checks w fuel)
      ltac:(intros [t k r]; destruct k; cbn; try tauto;
            intuition (subst; discriminate)). }
  apply yields_bind; [|intros _].
  { outside (emits_preparation w (DIRECTORY ++ "/Detections/"))
      ltac:(intros [t k r]; destruct k; cbn; try tauto;
            intuition (subst; discriminate)). }
  apply yields_bind; [|intros _].
  { outside (emits_arming_delay w)
      ltac:(intros [t k r]; destruct k; cbn; try tauto;
            intuition (subst; discriminate)). }
  apply yields_bind; [apply yields_set_armed|intros _].
  apply yields_bind; [|intros _; apply yields_monitor].
  outside (emits_announce_outside w) ltac:(auto).
Qed.

Lemma yields_script fuel : yields (script w fuel) T.
Proof.
  unfold script, system.
  apply yields_bind; [|intros _].
  { outside (emits_setup w)
      ltac:(intros [t k r]; destruct k; cbn; try tauto;
            intuition (subst; discriminate)). }
  apply yields_try_finally.
  - apply yields_except_both, yields_suite.
  - outside (emits_teardown w)
      ltac:(intros [t k r]; destruct k; cbn; tauto).
Qed.

(** The same, read on the trace of a run. *)
Lemma run_yields fuel :
  T 0 (now (snd (run w fuel))) (trace (snd (run w fuel))).
Proof.
  destruct (yields_script fuel boot) as (ext & Hx & Tx).
  unfold run. cbn [boot trace app] in Hx. rewrite Hx. exact Tx.
Qed.

End Script.

End Sequencing.

(** ** Reading a part backwards

    From the completion and the final state of a part to what each of its
    calls did. *)

Section Inversion.

Variable w : World.

Lemma bind_inv {A B} (m : M A) (f : A -> M B) s c s2 :
  bind m f s = (c, s2) ->
  (exists a s1, m s = (Normal a, s1) /\ f a s1 = (c, s2)) \/
  (exists e, m s = (Raised e, s2) /\ c = Raised e) \/
  (m s = (Running, s2) /\ c = Running).
Proof.
  unfold bind. destruct (m s) as [[a|e|] s1].
  - intros H. left. now exists a, s1.
  - intros [= <- <-]. right. left. now exists e.
  - intros [= <- <-]. right. right. now split.
Qed.

Lemma ret_inv {A} (a : A) s c s1 :
  ret a s = (c, s1) -> c = Normal a /\ s1 = s.
Proof. now intros [= <- <-]. Qed.

Lemma raise_inv {A} e s (c : completion A) s1 :
  raise e s = (c, s1) -> c = Raised e /\ s1 = s.
Proof. now intros [= <- <-]. Qed.

Lemma atomic_inv a s c s1 :
  atomic w a s = (c, s1) ->
  c = Normal tt /\
  trace s1 = (trace s ++ [mk_entry (now s) a Done])%list /\
  now s1 = (now s + latency w a (now s))%N.
Proof. now intros [= <- <-]. Qed.

Lemma now_inv st s c s1 :
  datetime_now w st s = (c, s1) ->
  c = Normal (wall w (now s)) /\
  trace s1
  = (trace s ++ [mk_entry (now s) (Now st) (Clock (wall w (now s)))])%list /\
  now s1 = (now s + latency w (Now st) (now s))%N.
Proof. now intros [= <- <-]. Qed.

Lemma call_inv {A} a hold (ans : N -> result A) show s c s1 :
  call w a hold ans show s = (c, s1) ->
  exists r,
    trace s1 = (trace s ++ [mk_entry (now s) a r])%list /\
    now s1 = (now s + (hold + latency w a (now s)))%N /\
    ((c = Raised KeyboardInterrupt /\ r = Threw KeyboardInterrupt) \/
     (exists v, c = Normal v /\ ans (now s) = Ret v /\ r = show v) \/
     (exists e, c = Raised e /\ ans (now s) = Raise e /\ r = Threw e)).
Proof.
  unfold call. destruct (ctrl_c w (now s)).
  - intros [= <- <-]. eexists. repeat split. now left.
  - destruct (ans (now s)) as [v|e]; intros [= <- <-];
      eexists; repeat split; right; [left|right]; eauto.
Qed.

(** A mail under [except Exception]. *)
Lemma attempt_inv st user app_pwd recipient subject body files server port
    s c s1 :
  except_Exception
    (send_mail w st user app_pwd recipient subject body files server port) s
  = (c, s1) ->
  exists r,
    trace s1
    = (trace s ++ mk_entry (now s) (SendMail st subject body files) r
               :: confirmation
                    (now s + (0 + latency w (SendMail st subject body files)
                                         (now s))) r)%list /\
    now s1 = (now s + latency w (SendMail st subject body files) (now s))%N /\
    ((c = Raised KeyboardInterrupt /\ r = Threw KeyboardInterrupt) \/
     (c = Normal tt /\ interrupted r = false)).
Proof.
  unfold except_Exception, send_mail, bind, call, print_transmitted.
  destruct (ctrl_c w (now s)).
  - intros [= <- <-]. exists (Threw KeyboardInterrupt).
    unfold log. cbn [trace now confirmation].
    split; [reflexivity|]. split; [lia|]. now left.
  - destruct (deliver _ _ _ _ _ _) as [m|e] eqn:Hd.
    + intros [= <- <-]. exists (Delivered m).
      unfold log. cbn [trace now confirmation]. rewrite <- app_assoc.
      split; [reflexivity|]. split; [lia|]. now right.
    + apply deliver_raises in Hd as [-> | ->]; intros [= <- <-];
        eexists (Threw (Exception_ _));
        unfold log; cbn [trace now confirmation];
        (split; [reflexivity|]; split; [lia|]; now right).
Qed.

End Inversion.

Ltac unravel :=
  repeat match goal with
         | H : bind _ _ _ = _ |- _ =>
             apply bind_inv in H;
             destruct H as [(? & ? & ? & H)|[(? & H & ->)|(H & ->)]]
         | H : ret _ _ = _ |- _ =>
             apply ret_inv in H; destruct H as (-> & ->)
         | H : raise _ _ = _ |- _ =>
             apply raise_inv in H; destruct H as (-> & ->)
         | H : atomic _ _ _ = (?c, _) |- _ =>
             apply atomic_inv in H;
             let E := fresh in destruct H as (E & ? & ?);
             first [discriminate E | clear E]
         | H : datetime_now _ _ _ = (?c, _) |- _ =>
             apply now_inv in H;
             let E := fresh in destruct H as (E & ? & ?);
             first [discriminate E | injection E as -> ]
         | H : call _ _ _ _ _ _ = _ |- _ =>
             apply call_inv in H;
             let E := fresh in
             destruct H as (? & ? & ? & [(E & ->)|[(? & E & ? & ->)
                                                 |(? & E & ? & ->)]]);
             first [discriminate E | injection E as <- | injection E as ->
                   | idtac]
         | H : except_Exception (send_mail _ _ _ _ _ _ _ _ _ _) _ = _ |- _ =>
             apply attempt_inv in H;
             let E := fresh in
             destruct H as (? & ? & ? & [(E & ->)|(E & ?)]);
             first [discriminate E | injection E as <- | injection E as ->
                   | idtac]
         | H : (if ?b then _ else _) _ = _ |- _ => destruct b eqn:?
         end.

(** The place of the one entry of a kind. *)
Lemma split_unique (p : entry -> bool) l1 a l2 :
  Forall (fun e => p e = false) l1 -> Forall (fun e => p e = false) l2 ->
  forall x e y,
    (l1 ++ a :: l2 = x ++ e :: y)%list -> p e = true ->
    x = l1 /\ e = a /\ y = l2.
Proof.
  intros F1 F2. induction F1 as [|b l1 Hb F1 IH]; intros x e y H He.
  - destruct x as [|c x]; cbn [app] in H.
    + injection H as <- <-. auto.
    + exfalso. injection H as _ ->.
      rewrite Forall_forall in F2.
      rewrite (F2 e) in He; [discriminate He|].
      apply in_or_app. right. now left.
  - destruct x as [|c x]; cbn [app] in H.
    + exfalso. injection H as <- _. rewrite Hb in He. discriminate He.
    + injection H as <- H. destruct (IH _ _ _ H He) as (-> & -> & ->). auto.
Qed.

(** ** Claims about teardown *)






(** ** Claims about the free-space cutoff *)

Section NoMotion.

Variable w : World.
Hypothesis still : forall t, pir w t = false.

Lemma idle_detect fuel out :
  emits (detect w fuel out) idle_entry not_low_space.
Proof.
  destruct fuel as [|fuel]; cbn [detect]; [apply emits_running|].
  apply emits_poll; [side_condition | discriminate | intros t].
  rewrite still. apply emits_ret.
Qed.

Lemma idle_monitor fuel out :
  emits (monitor w fuel out) idle_entry not_low_space.
Proof.
  induction fuel as [|fuel IH]; cbn [monitor]; [apply emits_running|].
  apply emits_bind; [apply emits_idle_status_update|intros _].
  apply emits_bind; [apply idle_detect|intros _; exact IH].
Qed.

End NoMotion.

(** C10.  The free space is looked at only inside a detection.  In a
    world where the PIR pin never reads high, however little space is
    left, no run ever calls [disk_usage] and the suite of the [try]
    statement is never left by the low-space exception. *)
Theorem no_motion_no_cutoff (w : World) :
  (forall t, pir w t = false) ->
  forall fuel,
    count is_disk_usage (trace (snd (run w fuel))) = 0 /\
    forall s0 c s1,
      setup w boot = (Normal tt, s0) ->
      suite w fuel s0 = (c, s1) ->
      c <> Raised (Exception_ LowFreeSpace).
Proof.
  intros still fuel. split.
  - destruct (run_anatomy w idle_entry not_low_space fuel
                (emits_idle_announce w) (idle_monitor w still fuel _))
      as (pre & tr0 & tr1 & fin & -> & Hpre & H0 & H1 & Hfin).
    tally.
    rewrite (count_zero _ _ tr1 (fun e (H : idle_entry e) => proj1 H) H1).
    reflexivity.
  - intros s0 c s1 _ Hs.
    destruct (suite_stretches w idle_entry not_low_space fuel s0 c s1
                (emits_idle_announce w) (idle_monitor w still fuel _) Hs)
      as (tr0 & tr1 & _ & _ & _ & _ & Hexc).
    intros ->. destruct (armed s1).
    + now apply (Hexc (Exception_ LowFreeSpace)).
    + destruct Hexc as [_ Hexc].
      now apply (Hexc (Exception_ LowFreeSpace)).
Qed.

Lemma no_motion_no_cutoff_witness :
  (forall t, pir starved_world t = false) /\
  free (statvfs starved_world 0) = 0%Z /\
  count is_poll (trace (snd (run starved_world 30))) = 19 /\
  count is_disk_usage (trace (snd (run starved_world 30))) = 0.
Proof.
  assert (H : forall t, pir starved_world t = false) by reflexivity.
  split; [exact H|]. split; [reflexivity|]. split; [vm_compute; reflexivity|].
  exact (proj1 (no_motion_no_cutoff starved_world H 30)).
Defined.

(** ** Claims about the mail *)

Lemma attach_spec tp files :
  attach tp files
  = if forallb (can_open tp) files then Ret (map basename files)
    else Raise (Exception_ OSError).
Proof.
  induction files as [|i files IH]; cbn; [reflexivity|].
  destruct (can_open tp i); cbn; [|reflexivity].
  rewrite IH. now destruct (forallb (can_open tp) files).
Qed.

Lemma session_spec tp steps :
  session tp steps
  = if forallb (accepts tp) steps then Ret tt
    else Raise (Exception_ SMTPException).
Proof.
  induction steps as [|st steps IH]; cbn; [reflexivity|].
  destruct (accepts tp st); cbn; [exact IH|reflexivity].
Qed.

Lemma deliver_spec tp user recipient subject body files :
  deliver tp user recipient subject body files
  = if gets_through tp files
    then Ret (mk_message user recipient subject body
                         (map basename (files_or_empty files)))
    else Raise (Exception_ (if forallb (can_open tp) (files_or_empty files)
                            then SMTPException else OSError)).
Proof.
  unfold deliver, gets_through. rewrite attach_spec, session_spec.
  destruct (forallb (can_open tp) (files_or_empty files)); cbn [andb];
    [|reflexivity].
  now destruct (forallb (accepts tp) dialogue).
Qed.

Section SendMail.

Variable w : World.

Lemma send_mail_completion st user app_pwd recipient subject body files
    server port s :
  fst (send_mail w st user app_pwd recipient subject body files server port s)
  = if ctrl_c w (now s) then Raised KeyboardInterrupt
    else match deliver (network w (now s)) user recipient subject body files
         with
         | Ret _ => Normal tt
         | Raise e => Raised e
         end.
Proof.
  unfold send_mail, bind, call, print_transmitted.
  destruct (ctrl_c w (now s)); [reflexivity|].
  now destruct (deliver _ _ _ _ _ _).
Qed.

(** At a call site, [try: send_mail(...) except Exception: pass]: only
    Ctrl+C gets out. *)
Lemma attempt_completion st user app_pwd recipient subject body files
    server port s :
  fst (except_Exception
         (send_mail w st user app_pwd recipient subject body files server port)
         s)
  = if ctrl_c w (now s) then Raised KeyboardInterrupt else Normal tt.
Proof.
  pose proof (send_mail_completion st user app_pwd recipient subject body
                files server port s) as H.
  unfold except_Exception.
  destruct (send_mail w st user app_pwd recipient subject body files
              server port s) as [c s1].
  cbn [fst] in H. subst c.
  destruct (ctrl_c w (now s)); [reflexivity|].
  destruct (deliver _ _ _ _ _ _) as [m|e] eqn:Hd; [reflexivity|].
  apply deliver_raises in Hd as [-> | ->]; reflexivity.
Qed.

End SendMail.

(** C4, as the code has it.  [send_mail] has no handler of its own: when
    the transport fails -- an attachment that cannot be opened, a server
    that cannot be reached, a login that is refused, a timeout -- the
    exception leaves [send_mail] and reaches the caller; the call returns
    normally only when every step gets through.  It is the caller's
    [try: ... except Exception: pass] that turns every such failure into a
    normal end. *)
Theorem send_mail_propagates (w : World) st user app_pwd recipient subject
    body files server port s :
  fst (send_mail w st user app_pwd recipient subject body files server port s)
  = (if ctrl_c w (now s) then Raised KeyboardInterrupt
     else if gets_through (network w (now s)) files then Normal tt
     else Raised (Exception_
                    (if forallb (can_open (network w (now s)))
                                (files_or_empty files)
                     then SMTPException else OSError))) /\
  fst (except_Exception
         (send_mail w st user app_pwd recipient subject body files server port)
         s)
  = (if ctrl_c w (now s) then Raised KeyboardInterrupt else Normal tt).
Proof.
  split; [|apply attempt_completion].
  rewrite send_mail_completion, deliver_spec.
  destruct (ctrl_c w (now s)); [reflexivity|].
  now destruct (gets_through _ _).
Qed.

(** C4, as the claim has it, fails: with a server that cannot be reached
    the call of [send_mail] does not return, it raises. *)
Lemma send_mail_raises :
  fst (send_mail full_disk_world AtArmed USER APP_PWD RECIPIENT
                 "*** ARMED *** 2024-01-02 08:59:20"
                 "*** ARMED *** 2024-01-02 08:59:20" None SERVER PORT boot)
  = Raised (Exception_ SMTPException).
Proof. reflexivity. Qed.

(** *** Two networks, one control flow *)

Lemma control_app tr1 tr2 :
  control (tr1 ++ tr2)%list = (control tr1 ++ control tr2)%list.
Proof. unfold control. now rewrite filter_app, map_app. Qed.

Lemma count_send_control st tr :
  count (is_send st) (control tr) = count (is_send st) tr.
Proof.
  unfold control, count.
  induction tr as [|[t a r] tr IH]; [reflexivity|].
  destruct a; cbn -[String.eqb]; try exact IH;
    try (destruct (negb _); cbn -[String.eqb]; exact IH).
  destruct r as [| | | | | |[x|]]; cbn;
    destruct (site_eqb st at_site); cbn; now rewrite IH.
Qed.

Section Agreement.

Variable w : World.
Variable net : N -> transport.

Let w' : World := set_network w net.

Lemma alike_log s s' t a r d :
  alike s s' -> alike (log t a r d s) (log t a r d s').
Proof.
  intros (Hn & Ha & Ht). unfold alike, log. cbn [now armed trace].
  rewrite !control_app, Ht. auto.
Qed.

Lemma agree_ret {A} (a : A) : agree alike (ret a) (ret a).
Proof. intros s s' H. now split. Qed.

Lemma agree_running {A} : agree alike (@running A) (@running A).
Proof. intros s s' H. now split. Qed.

Lemma agree_raise {A} e : agree alike (@raise A e) (@raise A e).
Proof. intros s s' H. now split. Qed.

Lemma agree_bind {A B} Q (m m' : M A) (f f' : A -> M B) :
  (forall s s', alike s s' -> Q s s') ->
  agree alike m m' -> (forall a, agree Q (f a) (f' a)) ->
  agree Q (bind m f) (bind m' f').
Proof.
  intros HQ Hm Hf s s' H. unfold bind.
  destruct (Hm s s' H) as [Hc Hs].
  destruct (m s) as [c s1], (m' s') as [c' s1']. cbn in Hc, Hs. subst c'.
  destruct c as [a|e|]; cbn; auto.
  now apply Hf.
Qed.

Lemma agree_atomic a : agree alike (atomic w a) (atomic w' a).
Proof.
  intros s s' H. unfold atomic. cbn.
  destruct H as (Hn & Ha & Ht). rewrite <- Hn.
  split; [reflexivity|]. apply alike_log. now repeat split.
Qed.

Lemma agree_now st : agree alike (datetime_now w st) (datetime_now w' st).
Proof.
  intros s s' H. unfold datetime_now. cbn.
  destruct H as (Hn & Ha & Ht). rewrite <- Hn.
  split; [reflexivity|]. apply alike_log. now repeat split.
Qed.

Lemma agree_call {A} a hold (ans : N -> result A) show :
  agree alike (call w a hold ans show) (call w' a hold ans show).
Proof.
  intros s s' H. unfold call. cbn.
  pose proof H as (Hn & Ha & Ht). rewrite <- Hn.
  destruct (ctrl_c w (now s)); cbn.
  - split; [reflexivity|]. now apply alike_log.
  - destruct (ans (now s)); cbn; (split; [reflexivity|]);
      now apply alike_log.
Qed.

Lemma agree_set_armed b : agree alike (set_armed b) (set_armed b).
Proof.
  intros s s' (Hn & Ha & Ht). cbn. repeat split; auto.
Qed.

(** A mail under [except Exception]: delivered in one world and lost in
    the other, the call site goes on the same. *)
Lemma agree_attempt st user app_pwd recipient subject body files server port :
  agree alike
    (except_Exception
       (send_mail w st user app_pwd recipient subject body files server port))
    (except_Exception
       (send_mail w' st user app_pwd recipient subject body files server port)).
Proof.
  intros s s' H. pose proof H as (Hn & Ha & Ht).
  unfold except_Exception, send_mail, bind, call, print_transmitted. cbn.
  rewrite <- Hn.
  destruct (ctrl_c w (now s)); cbn.
  - split; [reflexivity|]. now apply alike_log.
  - destruct (deliver (network w (now s)) _ _ _ _ _) as [m|e] eqn:Hd;
      destruct (deliver (net (now s)) _ _ _ _ _) as [m'|e'] eqn:Hd';
      try (apply deliver_raises in Hd as [-> | ->]);
      try (apply deliver_raises in Hd' as [-> | ->]);
      cbn [fst snd]; (split; [reflexivity|]);
      unfold alike, log; cbn [now armed trace];
      rewrite !control_app, Ht; rewrite ?N.add_0_r;
      repeat split; auto;
      cbn; rewrite ?app_nil_r; reflexivity.
Qed.

Lemma agree_get_armed : agree alike get_armed get_armed.
Proof.
  intros s s' H. pose proof H as (_ & Ha & _). cbn. rewrite Ha. now split.
Qed.

Lemma alike_alike_traces s s' : alike s s' -> alike_traces s s'.
Proof. now intros (_ & _ & H). Qed.

(** The last mail, with the line that follows a delivery. *)
Lemma agree_last_attempt st user app_pwd recipient subject body files
    server port :
  agree alike_traces
    (except_Exception
       (bind (send_mail w st user app_pwd recipient subject body files
                        server port)
             (fun _ => print w "Status Transmitted")))
    (except_Exception
       (bind (send_mail w' st user app_pwd recipient subject body files
                        server port)
             (fun _ => print w' "Status Transmitted"))).
Proof.
  intros s s' H. pose proof H as (Hn & Ha & Ht).
  unfold except_Exception, send_mail, bind, call, print_transmitted, print,
    atomic.
  cbn. rewrite <- Hn.
  destruct (ctrl_c w (now s)); cbn.
  - split; [reflexivity|]. unfold alike_traces, log. cbn [trace].
    now rewrite !control_app, Ht.
  - destruct (deliver (network w (now s)) _ _ _ _ _) as [m|e] eqn:Hd;
      destruct (deliver (net (now s)) _ _ _ _ _) as [m'|e'] eqn:Hd';
      try (apply deliver_raises in Hd as [-> | ->]);
      try (apply deliver_raises in Hd' as [-> | ->]);
      cbn [fst snd]; (split; [reflexivity|]);
      unfold alike_traces, log; cbn [trace];
      rewrite !control_app, Ht;
      cbn; rewrite ?app_nil_r; reflexivity.
Qed.

Lemma agree_traces {A} (m m' : M A) :
  agree alike m m' -> agree alike_traces m m'.
Proof.
  intros Hm s s' H. destruct (Hm s s' H) as [Hc Hs].
  split; [exact Hc|]. now apply alike_alike_traces.
Qed.

Lemma agree_except_both Q (m m' : M unit) :
  agree Q m m' ->
  agree Q (except_Exception_KeyboardInterrupt m)
          (except_Exception_KeyboardInterrupt m').
Proof.
  intros Hm s s' H. unfold except_Exception_KeyboardInterrupt.
  destruct (Hm s s' H) as [Hc Hs].
  destruct (m s) as [c s1], (m' s') as [c' s1']. cbn in Hc, Hs. subst c'.
  destruct c as [a|[x|]|]; cbn; auto.
Qed.

Lemma agree_try_finally Q (m m' f f' : M unit) :
  (forall s s', alike s s' -> Q s s') ->
  agree alike m m' -> agree Q f f' ->
  agree Q (try_finally m f) (try_finally m' f').
Proof.
  intros HQ Hm Hf s s' H. unfold try_finally.
  destruct (Hm s s' H) as [Hc Hs].
  destruct (m s) as [c s1], (m' s') as [c' s1']. cbn in Hc, Hs. subst c'.
  destruct c as [a|e|]; cbn; [now apply Hf| |auto].
  destruct (Hf s1 s1' Hs) as [Hc Hs2].
  destruct (f s1) as [c s2], (f' s1') as [c' s2']. cbn in Hc, Hs2.
  subst c'. destruct c; cbn; auto.
Qed.

End Agreement.

Ltac agreement_step :=
  cbv beta zeta;
  lazymatch goal with
  | |- agree _ (ret _) (ret _) => apply agree_ret
  | |- agree _ running running => apply agree_running
  | |- agree _ (raise _) (raise _) => apply agree_raise
  | |- agree _ (atomic _ _) (atomic _ _) => apply agree_atomic
  | |- agree _ (call _ _ _ _ _) (call _ _ _ _ _) => apply agree_call
  | |- agree _ (datetime_now _ _) (datetime_now _ _) => apply agree_now
  | |- agree _ (set_armed _) (set_armed _) => apply agree_set_armed
  | |- agree _ get_armed get_armed => apply agree_get_armed
  | |- agree _ (except_Exception (send_mail _ _ _ _ _ _ _ _ _ _))
               (except_Exception (send_mail _ _ _ _ _ _ _ _ _ _)) =>
      apply agree_attempt
  | |- agree _ (except_Exception (bind (send_mail _ _ _ _ _ _ _ _ _ _) _))
               (except_Exception (bind (send_mail _ _ _ _ _ _ _ _ _ _) _)) =>
      apply agree_last_attempt
  | |- agree _ (bind _ _) (bind _ _) =>
      apply agree_bind;
      [first [exact (fun s s' H => H) | exact alike_alike_traces] | | intro]
  | |- agree _ (if ?b then _ else _) (if ?b then _ else _) => destruct b
  end.

Ltac agreement := repeat agreement_step.

Section SameControl.

Variable w : World.
Variable net : N -> transport.

Let w' : World := set_network w net.

Lemma agree_setup : agree alike (setup w) (setup w').
Proof.
  unfold setup, print, PiCamera, time_sleep. agreement.
Qed.

Lemma agree_datetime_check fuel :
  agree alike (datetime_check w fuel) (datetime_check w' fuel).
Proof.
  induction fuel as [|fuel IH]; cbn [datetime_check]; [apply agree_running|].
  unfold input, print. agreement. exact IH.
Qed.

Lemma agree_checks fuel : agree alike (checks w fuel) (checks w' fuel).
Proof.
  unfold checks, check_output, print. agreement.
  apply agree_datetime_check.
Qed.

Lemma agree_preparation out :
  agree alike (preparation w out) (preparation w' out).
Proof.
  unfold preparation, mkdir, start_preview, stop_preview, annotate_text,
    time_sleep.
  agreement.
Qed.

Lemma agree_arming_delay : agree alike (arming_delay w) (arming_delay w').
Proof. unfold arming_delay, print, time_sleep. agreement. Qed.

Lemma agree_announce : agree alike (announce w) (announce w').
Proof. unfold announce, print. agreement. Qed.

Lemma agree_status_update :
  agree alike (status_update w) (status_update w').
Proof. unfold status_update, print, time_sleep. agreement. Qed.

Lemma agree_detection out :
  agree alike (detection w out) (detection w' out).
Proof.
  unfold detection, print, annotate_text, capture_sequence, disk_usage.
  agreement.
Qed.

Lemma agree_detect fuel out :
  agree alike (detect w fuel out) (detect w' fuel out).
Proof.
  induction fuel as [|fuel IH]; cbn [detect]; [apply agree_running|].
  unfold GPIO_input. agreement; [apply agree_detection|exact IH].
Qed.

Lemma agree_monitor fuel out :
  agree alike (monitor w fuel out) (monitor w' fuel out).
Proof.
  induction fuel as [|fuel IH]; cbn [monitor]; [apply agree_running|].
  agreement; [apply agree_status_update|apply agree_detect|exact IH].
Qed.

Lemma agree_suite fuel : agree alike (suite w fuel) (suite w' fuel).
Proof.
  unfold suite. agreement;
    auto using agree_checks, agree_preparation, agree_arming_delay,
      agree_announce, agree_monitor.
Qed.

Lemma agree_teardown : agree alike_traces (teardown w) (teardown w').
Proof.
  unfold teardown, print. agreement. apply agree_traces, agree_atomic.
Qed.

Lemma agree_script fuel :
  agree alike_traces (script w fuel) (script w' fuel).
Proof.
  unfold script, system.
  apply agree_bind; [exact alike_alike_traces|apply agree_setup|intros _].
  apply agree_try_finally; [exact alike_alike_traces| |apply agree_teardown].
  apply agree_except_both, agree_suite.
Qed.

End SameControl.


(** C5.  Take any world and replace its network by any other: whatever
    now becomes of each mail (delivered, connection refused, login
    refused, timeout), the run completes the same way and makes the same
    calls at the same instants with the same arguments and the same
    answers, mails apart -- the same polls, captures and checks of the
    free space, the same sleeps, the same release calls, and the same
    calls of [send_mail], one for one, so no mail is sent again.  Only
    the two console lines that follow a delivery come and go.  At every
    call site no [Exception] of the transmission gets past the handler. *)
Theorem notification_outcome_irrelevant (w : World) (net : N -> transport)
    (fuel : nat) :
  fst (run (set_network w net) fuel) = fst (run w fuel) /\
  control (trace (snd (run (set_network w net) fuel)))
  = control (trace (snd (run w fuel))) /\
  (forall st,
     count (is_send st) (trace (snd (run (set_network w net) fuel)))
     = count (is_send st) (trace (snd (run w fuel)))) /\
  (forall st subject body files s x,
     fst (except_Exception
            (send_mail w st USER APP_PWD RECIPIENT subject body files
                       SERVER PORT) s)
     <> Raised (Exception_ x)).
Proof.
  assert (Hboot : alike boot boot) by (repeat split).
  destruct (agree_script w net fuel boot boot Hboot) as [Hc Ht].
  unfold alike_traces in Ht. fold (run w fuel) in Hc, Ht.
  fold (run (set_network w net) fuel) in Hc, Ht.
  repeat split; auto.
  - intros st.
    rewrite <- (count_send_control st (trace (snd (run w fuel)))), Ht.
    symmetry. apply count_send_control.
  - intros st subject body files s x. rewrite attempt_completion.
    destruct (ctrl_c w (now s)); discriminate.
Qed.

(** ** Claims about the detection loop *)

Lemma caption_not_preview d :
  String.eqb (strftime d detection_format) "Preview (15 seconds)" = false.
Proof. reflexivity. Qed.

Lemma tallies_nil : tallies [].
Proof. repeat split; constructor. Qed.

Lemma tallies_app x y : tallies x -> tallies y -> tallies (x ++ y)%list.
Proof.
  intros (H1 & H2 & H3 & H4 & H5 & H6 & H7) (K1 & K2 & K3 & K4 & K5 & K6 & K7).
  unfold tallies. rewrite !count_app, !filter_app, !map_app.
  repeat split; try congruence.
  apply Forall_app; auto.
Qed.

Lemma tallies_off_the_books ext : Forall off_the_books ext -> tallies ext.
Proof.
  induction 1 as [|e ext (H1 & H2 & H3 & H4 & H5 & H6) _ IH];
    [apply tallies_nil|].
  change (e :: ext) with ([e] ++ ext)%list.
  apply tallies_app; [|exact IH].
  unfold tallies, count, returned_caption, returned_capture, settled_mail.
  cbn. rewrite H1, H2, H3, H4, H5, H6. cbn.
  repeat split. constructor; [congruence|constructor].
Qed.

Lemma outside_off_the_books e : outside_loop e -> off_the_books e.
Proof.
  destruct e as [t a r]. unfold off_the_books.
  destruct a; cbn; try tauto;
    intros He;
    repeat match goal with
           | H : _ \/ _ |- _ => destruct H
           end;
    subst; repeat split; auto; destruct r as [| | | [|] | | |]; auto.
Qed.

Lemma tallies_outside ext : Forall outside_loop ext -> tallies ext.
Proof.
  intros H. apply tallies_off_the_books.
  eapply Forall_impl; [|exact H]. exact outside_off_the_books.
Qed.

Section Detections.

Variable w : World.

Lemma sequence_length out detection_time :
  List.length (sequence out detection_time) = 5.
Proof. reflexivity. Qed.

(** One pass through the body of the detection loop is a [cycle]. *)
Opaque strftime sequence.

Lemma detection_cycle out s :
  exists ext,
    trace (snd (detection w out s)) = (trace s ++ ext)%list /\
    cycle w out ext (fst (detection w out s)).
Proof.
  destruct (detection w out s) as [c s1] eqn:H. cbn [fst snd].
  unfold detection, print, annotate_text, capture_sequence, disk_usage in H.
  unravel;
    repeat match goal with
           | K : trace _ = _ |- _ => rewrite K; clear K
           end;
    rewrite <- ?app_assoc; cbn [app confirmation];
    (eexists; split; [reflexivity|]);
    lazymatch goal with
    | |- cycle _ _ _ (Normal _) => eapply space_left; eassumption
    | |- cycle _ _ (_ :: _ :: _ :: _ :: _ :: _ ++ [_; _]) _ =>
        eapply space_low; eassumption
    | |- cycle _ _ (_ :: _ :: _ :: _ :: _ :: _ ++ [_]) _ =>
        eapply check_raises; [eassumption|]
    | |- cycle _ _ [_; _; _] _ => apply caption_raises
    | |- cycle _ _ [_; _; _; _] _ => apply capture_raises
    | |- cycle _ _ _ _ => apply mail_interrupted
    end;
    unfold not_low_space; side_condition.
Qed.

Transparent strftime sequence.

(** One detection, with the high poll that opened it. *)
Lemma tallies_detection out t s :
  exists ext,
    trace (snd (detection w out s)) = (trace s ++ ext)%list /\
    tallies (mk_entry t (GpioInput GPIO_PIR) (Level true) :: ext).
Proof.
  destruct (detection_cycle out s) as (ext & Hx & Hc).
  exists ext. split; [exact Hx|].
  destruct Hc as [t0 t1 t2 e _|t0 t1 t2 t3 e _|t0 t1 t2 t3 t4
                 |t0 t1 t2 t3 t4 t5 t6 r e Hr _
                 |t0 t1 t2 t3 t4 t5 t6 t7 r u Hr Hu
                 |t0 t1 t2 t3 t4 t5 t6 r u Hr Hu];
    try (destruct r as [| | | | | |[x|]]; try discriminate Hr);
    unfold tallies, count, returned_caption, returned_capture, settled_mail,
      mailed, captured, captioned, confirmation, detection_time_at;
    cbn -[String.eqb sequence];
    rewrite ?caption_not_preview; cbn -[sequence];
    repeat split; auto; repeat constructor; cbn -[sequence]; auto;
    try discriminate.
Qed.

Lemma tallies_detect fuel out :
  yields (detect w fuel out) (fun _ _ => tallies).
Proof.
  induction fuel as [|fuel IH]; intros s; cbn [detect].
  { exists []. cbn. rewrite app_nil_r. auto using tallies_nil. }
  unfold bind at 1. unfold GPIO_input, call.
  destruct (ctrl_c w (now s)).
  { eexists [_]. cbn. split; [reflexivity|].
    apply tallies_off_the_books. repeat constructor. }
  destruct (pir w (now s)).
  - set (t0 := now s).
    match goal with |- context [log ?a ?b ?c ?d ?e] =>
      set (s0 := log a b c d e) end.
    destruct (tallies_detection out t0 s0) as (ext & Hx & Tx).
    assert (H0 : trace s0 = (trace s ++ [mk_entry t0 (GpioInput GPIO_PIR)
                                                   (Level true)])%list)
      by reflexivity.
    clearbody s0. unfold bind.
    destruct (detection w out s0) as [[[]|e|] s1]; cbn [fst snd] in *.
    + destruct (IH s1) as (y & Hy & Ty).
      exists ((mk_entry t0 (GpioInput GPIO_PIR) (Level true) :: ext) ++ y)%list.
      split; [rewrite Hy, Hx, H0, <- !app_assoc; reflexivity|].
      now apply tallies_app.
    + exists (mk_entry t0 (GpioInput GPIO_PIR) (Level true) :: ext).
      split; [rewrite Hx, H0, <- !app_assoc; reflexivity|exact Tx].
    + exists (mk_entry t0 (GpioInput GPIO_PIR) (Level true) :: ext).
      split; [rewrite Hx, H0, <- !app_assoc; reflexivity|exact Tx].
  - eexists [_]. cbn. split; [reflexivity|].
    apply tallies_off_the_books. repeat constructor.
Qed.

Lemma tallies_status_update :
  yields (status_update w) (fun _ _ => tallies).
Proof.
  eapply yields_of_emits with (P := off_the_books) (E := fun _ => True).
  - unfold status_update, print, time_sleep.
    footprint; unfold off_the_books; side_condition;
      repeat split; auto;
      match goal with |- is_high (mk_entry _ _ ?r) = false =>
        destruct r as [| | | [|] | | |]; reflexivity end.
  - intros _ _ ext _. apply tallies_off_the_books.
Qed.

(** The books of a whole run balance. *)
Lemma run_tallies fuel : tallies (trace (snd (run w fuel))).
Proof.
  apply (run_yields (fun _ _ => tallies)).
  - intros _. apply tallies_nil.
  - intros _ _ _. apply tallies_app.
  - intros _ _ ext _. apply tallies_outside.
  - apply tallies_status_update.
  - apply tallies_detect.
Qed.

End Detections.

Lemma count_all p q tr :
  Forall (fun e => p e = true -> q e = true) tr ->
  count (fun e => p e && q e) tr = count p tr.
Proof.
  unfold count. induction 1 as [|e tr He _ IH]; [reflexivity|]. cbn.
  destruct (p e); cbn; [|exact IH].
  rewrite He by reflexivity. cbn. now rewrite IH.
Qed.

(** C2.  In every run, at every point of it: each poll that reads high
    opens exactly one detection; each detection sets its caption; each
    caption that comes back is followed by exactly one capture, of five
    paths; each capture that comes back is followed by exactly one call of
    [send_mail] from the detection loop, and the mails carry, in order,
    the paths of those captures.  So as long as the camera answers, N
    high polls make N captures and N mails, whether the highs come in one
    run or in several. *)
Theorem one_cycle_per_high_poll (w : World) (fuel : nat) :
  let tr := trace (snd (run w fuel)) in
  count is_high tr = count is_detection tr /\
  count is_capture tr = count returned_caption tr /\
  count (is_send AtDetection) tr = count returned_capture tr /\
  map mail_files (filter (is_send AtDetection) tr)
  = map capture_paths (filter returned_capture tr) /\
  Forall (fun e => is_capture e = true -> List.length (capture_paths e) = 5)
         tr /\
  (forallb camera_returned tr = true ->
   count is_capture tr = count is_high tr /\
   count (is_send AtDetection) tr = count is_high tr).
Proof.
  intros tr.
  destruct (run_tallies w fuel) as (H1 & H2 & H3 & H4 & H5 & H6 & _).
  fold tr in H1, H2, H3, H4, H5, H6.
  repeat split; auto.
  - rewrite H3, H1, H2. apply count_all.
    apply Forall_forall. intros e He Hc.
    rewrite forallb_forall in H. specialize (H e He).
    unfold camera_returned in H. rewrite Hc in H. exact H.
  - rewrite H4, H1, H2.
    rewrite <- (count_all is_caption returned tr).
    + fold returned_caption. rewrite <- H3. apply count_all.
      apply Forall_forall. intros e He Hc.
      rewrite forallb_forall in H. specialize (H e He).
      unfold camera_returned in H. rewrite Hc, orb_true_r in H. exact H.
    + apply Forall_forall. intros e He Hc.
      rewrite forallb_forall in H. specialize (H e He).
      unfold camera_returned in H. rewrite Hc in H. exact H.
Qed.

Lemma one_cycle_per_high_poll_witness :
  forallb camera_returned (trace (snd (run long_motion_world 12))) = true /\
  count is_high (trace (snd (run long_motion_world 12))) = 2 /\
  count is_capture (trace (snd (run long_motion_world 12)))
  = count is_high (trace (snd (run long_motion_world 12))) /\
  count (is_send AtDetection) (trace (snd (run long_motion_world 12)))
  = count is_high (trace (snd (run long_motion_world 12))).
Proof.
  assert (H : forallb camera_returned
                (trace (snd (run long_motion_world 12))) = true)
    by (vm_compute; reflexivity).
  split; [exact H|]. split; [vm_compute; reflexivity|].
  exact (proj2 (proj2 (proj2 (proj2 (proj2
           (one_cycle_per_high_poll long_motion_world 12))))) H).
Defined.

(** ** Claims about the names of the images *)

Lemma replace_app old new a b :
  replace old new (a ++ b) = replace old new a ++ replace old new b.
Proof. induction a as [|c a IH]; cbn; [reflexivity|now rewrite IH]. Qed.

Lemma replace_digits old new s :
  is_digit old = false -> all_digits s = true -> replace old new s = s.
Proof.
  intros Hold. induction s as [|c s IH]; cbn; [reflexivity|].
  intros [Hc Hs]%andb_prop. rewrite (IH Hs).
  destruct (Ascii.eqb_spec c old) as [->|_]; [congruence|reflexivity].
Qed.

Lemma all_digits_uint u : all_digits (NilEmpty.string_of_uint u) = true.
Proof. induction u; cbn; auto. Qed.

Lemma all_digits_str n : all_digits (str n) = true.
Proof.
  unfold str, NilZero.string_of_uint.
  destruct (N.to_uint n) eqn:E; try reflexivity;
    rewrite <- E; apply all_digits_uint.
Qed.

Lemma all_digits_pad2 n : all_digits (pad2 n) = true.
Proof.
  unfold pad2. destruct (n <? 10)%N; [cbn|]; apply all_digits_str.
Qed.

Lemma replace_str n : replace ":" "-" (str n) = str n.
Proof. apply replace_digits; [reflexivity|apply all_digits_str]. Qed.

Lemma replace_pad2 n : replace ":" "-" (pad2 n) = pad2 n.
Proof. apply replace_digits; [reflexivity|apply all_digits_pad2]. Qed.

Lemma append_empty (a : string) : a ++ "" = a.
Proof. induction a as [|x a IH]; cbn; [reflexivity|now rewrite IH]. Qed.

(** The colons of the timestamp become hyphens and nothing else moves. *)
Lemma replace_detection_time d :
  replace ":" "-" (strftime d detection_format) = "Detection " ++ hyphenated d.
Proof.
  unfold detection_format, hyphenated.
  cbn -[str pad2].
  repeat (rewrite ?replace_app, ?replace_str, ?replace_pad2; cbn -[str pad2]).
  now rewrite append_empty.
Qed.

Lemma append_assoc (a b c : string) : (a ++ b) ++ c = a ++ (b ++ c).
Proof. induction a as [|x a IH]; cbn; [reflexivity|now rewrite IH]. Qed.

(** The five paths of a burst, as the specification names them. *)
Lemma sequence_names out d :
  sequence out (strftime d detection_format)
  = map (burst_name out d) ["1"; "2"; "3"; "4"; "5"].
Proof.
  unfold sequence, burst_name. rewrite replace_detection_time.
  cbn [range seq map N.of_nat Pos.of_succ_nat Pos.succ].
  change (str (0 + 1)) with "1". change (str (1 + 1)) with "2".
  change (str (2 + 1)) with "3". change (str (3 + 1)) with "4".
  change (str (4 + 1)) with "5".
  rewrite !append_assoc. reflexivity.
Qed.

(** *** Fields of fixed width *)

Lemma below_all (P : N -> bool) (b : N) :
  forallb P (map N.of_nat (seq 0 (N.to_nat b))) = true ->
  forall x, (x < b)%N -> P x = true.
Proof.
  intros H x Hx. rewrite forallb_forall in H. apply H.
  rewrite <- (N2Nat.id x). apply in_map. apply in_seq. lia.
Qed.

Lemma year_field y : (1000 <= y <= 9999)%N -> field 4 (str y) = true.
Proof.
  intros [Hlo Hhi].
  assert (H : ((y <? 1000)%N || field 4 (str y)) = true).
  { apply (below_all (fun y => (y <? 1000)%N || field 4 (str y)) 10000);
      [vm_compute; reflexivity|lia]. }
  apply orb_prop in H as [H|H]; [|exact H].
  apply N.ltb_lt in H. lia.
Qed.

Lemma pad2_field n : (n < 100)%N -> field 2 (pad2 n) = true.
Proof.
  apply (below_all (fun n => field 2 (pad2 n)) 100). vm_compute. reflexivity.
Qed.

Lemma field_length width s : field width s = true -> String.length s = width.
Proof. now intros [H _]%andb_prop; apply Nat.eqb_eq. Qed.

Lemma decode_str n : decode (str n) = n.
Proof.
  unfold decode, str. rewrite NilZero.usu.
  - apply DecimalN.Unsigned.of_to.
  - destruct n; [discriminate|]. apply DecimalPos.Unsigned.to_uint_nonnil.
Qed.

Lemma decode_pad2 n : (n < 100)%N -> decode (pad2 n) = n.
Proof.
  intros H. apply N.eqb_eq.
  apply (below_all (fun n => (decode (pad2 n) =? n)%N) 100);
    [vm_compute; reflexivity|exact H].
Qed.

Lemma length_append (a b : string) :
  String.length (a ++ b) = String.length a + String.length b.
Proof. induction a as [|x a IH]; cbn; [reflexivity|now rewrite IH]. Qed.

Lemma append_cancel (a b c : string) : a ++ b = a ++ c -> b = c.
Proof. induction a as [|x a IH]; cbn; [auto|]. intros [= H]. auto. Qed.

Lemma append_split (a a' b b' : string) :
  String.length a = String.length a' ->
  a ++ b = a' ++ b' -> a = a' /\ b = b'.
Proof.
  revert a'. induction a as [|x a IH]; intros [|x' a']; cbn;
    try discriminate; [auto|].
  intros [= Hl] [= -> H]. destruct (IH a' Hl H) as [-> ->]. auto.
Qed.

Lemma datetime_eq_dec (d1 d2 : datetime) : {d1 = d2} + {d1 <> d2}.
Proof. decide equality; apply N.eq_dec. Qed.

Lemma hyphenated_length d :
  wf_datetime d -> String.length (hyphenated d) = 19.
Proof.
  intros (Hy & Hm & Hd & HH & HM & HS). unfold hyphenated.
  rewrite !length_append.
  rewrite (field_length _ _ (year_field _ Hy)).
  rewrite !(fun n H => field_length _ _ (pad2_field n H)) by lia.
  reflexivity.
Qed.

(** Two clock readings with the same [YYYY-MM-DD HH-MM-SS] are the same
    reading. *)
Lemma hyphenated_inj d1 d2 :
  wf_datetime d1 -> wf_datetime d2 ->
  hyphenated d1 = hyphenated d2 -> d1 = d2.
Proof.
  intros (Hy1 & Hm1 & Hd1 & HH1 & HM1 & HS1) (Hy2 & Hm2 & Hd2 & HH2 & HM2 & HS2).
  unfold hyphenated. intros H.
  apply append_split in H as [Ey H];
    [|now rewrite (field_length _ _ (year_field _ Hy1)),
        (field_length _ _ (year_field _ Hy2))].
  injection H as H.
  apply append_split in H as [Em H];
    [|rewrite !(fun n K => field_length _ _ (pad2_field n K)) by lia; auto].
  injection H as H.
  apply append_split in H as [Ed H];
    [|rewrite !(fun n K => field_length _ _ (pad2_field n K)) by lia; auto].
  injection H as H.
  apply append_split in H as [EH H];
    [|rewrite !(fun n K => field_length _ _ (pad2_field n K)) by lia; auto].
  injection H as H.
  apply append_split in H as [EM ES];
    [|rewrite !(fun n K => field_length _ _ (pad2_field n K)) by lia; auto].
  injection ES as ES.
  apply (f_equal decode) in Ey, Em, Ed, EH, EM, ES.
  rewrite !decode_str in Ey. rewrite !decode_pad2 in Em, Ed, EH, EM, ES by lia.
  destruct d1, d2; cbn in *. congruence.
Qed.

(** Bursts of different seconds share no path. *)
Lemma burst_names_apart out d1 d2 i j :
  wf_datetime d1 -> wf_datetime d2 -> d1 <> d2 ->
  burst_name out d1 i <> burst_name out d2 j.
Proof.
  intros W1 W2 Hd H. apply Hd. unfold burst_name in H.
  apply append_cancel in H. injection H as H.
  apply append_split in H as [H _];
    [|now rewrite !hyphenated_length].
  now apply hyphenated_inj.
Qed.

Lemma tick_wf d0 t : wf_datetime d0 -> wf_datetime (tick d0 t).
Proof.
  intros (Hy & Hm & Hd & _). unfold tick, wf_datetime. cbn.
  repeat split; try lia; apply N.mod_upper_bound; discriminate.
Qed.

(** *** Each capture and its own detection *)

Lemma led_plain w out ext :
  Forall (fun e => is_capture e = false) ext -> led w out ext.
Proof.
  intros F x e y -> He. exfalso. rewrite Forall_forall in F.
  rewrite (F e) in He; [discriminate He|].
  apply in_or_app. right. now left.
Qed.

Lemma led_app w out a b : led w out a -> led w out b -> led w out (a ++ b).
Proof.
  intros Ha Hb x e y H He.
  apply app_eq_app in H as (l & [(-> & H)|(-> & H)]).
  - destruct l as [|e' l]; cbn [app] in H.
    + exfalso. destruct (Hb [] e y (eq_sym H) He) as (x' & t0 & t1 & t2 & K & _).
      destruct x' as [|? [|? [|? ?]]]; discriminate K.
    + injection H as <- ->. exact (Ha x e l eq_refl He).
  - destruct (Hb l e y H He) as (x' & t0 & t1 & t2 & -> & Hact).
    exists (a ++ x')%list, t0, t1, t2. rewrite app_assoc. auto.
Qed.

(** The capture of a detection stands right after its clock read, its
    line and its caption. *)
Lemma led_captured w out t0 t1 t2 t3 r rest :
  Forall (fun e => is_capture e = false) rest ->
  led w out (captured w out t0 t1 t2 t3 r ++ rest).
Proof.
  intros F x e y H He. unfold captured in H. rewrite <- app_assoc in H.
  cbn [app] in H.
  change (mk_entry t0 (Now AtDetection) (Clock (wall w t0))
          :: mk_entry t1 (Print (detection_time_at w t0)) Done
          :: mk_entry t2 (Annotate (detection_time_at w t0)) Done
          :: mk_entry t3 (CaptureSequence
                            (sequence out (detection_time_at w t0))) r
          :: rest)
    with (captioned w t0 t1 t2 Done
          ++ mk_entry t3 (CaptureSequence
                            (sequence out (detection_time_at w t0))) r
          :: rest)%list in H.
  apply (split_unique is_capture) in H as (-> & -> & _);
    [|repeat constructor|exact F|exact He].
  exists [], t0, t1, t2. split; reflexivity.
Qed.

Lemma led_cycle w out ext c : cycle w out ext c -> led w out ext.
Proof.
  assert (Hconf : forall t r,
             Forall (fun e => is_capture e = false) (confirmation t r))
    by (intros t [| | | | | |]; repeat constructor).
  intros [t0 t1 t2 e _|t0 t1 t2 t3 e _|t0 t1 t2 t3 t4
         |t0 t1 t2 t3 t4 t5 t6 r e _ _
         |t0 t1 t2 t3 t4 t5 t6 t7 r u _ _
         |t0 t1 t2 t3 t4 t5 t6 r u _ _].
  - apply led_plain. repeat constructor.
  - rewrite <- (app_nil_r (captured _ _ _ _ _ _ _)).
    apply led_captured. constructor.
  - unfold mailed. apply led_captured. repeat constructor.
  - unfold mailed. rewrite <- app_assoc. apply led_captured.
    apply Forall_app. split; [repeat constructor|].
    apply Forall_app. split; [apply Hconf|repeat constructor].
  - unfold mailed. rewrite <- app_assoc. apply led_captured.
    apply Forall_app. split; [repeat constructor|].
    apply Forall_app. split; [apply Hconf|repeat constructor].
  - unfold mailed. rewrite <- app_assoc. apply led_captured.
    apply Forall_app. split; [repeat constructor|].
    apply Forall_app. split; [apply Hconf|repeat constructor].
Qed.

Section Captures.

Variable w : World.

Lemma led_yields {A} (m : M A) (P : entry -> Prop) E :
  (forall e, P e -> is_capture e = false) ->
  emits m P E -> yields m (fun _ _ => led w out_directory).
Proof.
  intros HP Hm s. destruct (Hm s) as (ext & Hx & F & _).
  exists ext. split; [exact Hx|]. apply led_plain.
  eapply Forall_impl; [|exact F]. exact HP.
Qed.

Lemma led_detect fuel :
  yields (detect w fuel out_directory) (fun _ _ => led w out_directory).
Proof.
  induction fuel as [|fuel IH]; intros s; cbn [detect].
  { exists []. cbn. rewrite app_nil_r. split; [reflexivity|].
    apply led_plain. constructor. }
  unfold bind at 1. unfold GPIO_input, call.
  destruct (ctrl_c w (now s)).
  { eexists [_]. cbn [snd log trace]. split; [reflexivity|].
    apply led_plain. repeat constructor. }
  destruct (pir w (now s)).
  - unfold bind at 1.
    match goal with
    | |- context [detection w out_directory ?s0] =>
        destruct (detection_cycle w out_directory s0) as (ext & Hx & Hc);
        destruct (detection w out_directory s0) as [[[]|e|] s1]
    end; cbn [fst snd] in *.
    + destruct (IH s1) as (ext2 & Hx2 & L2).
      eexists (_ :: ext ++ ext2)%list. split.
      * rewrite Hx2, Hx. cbn [log trace]. rewrite <- !app_assoc. reflexivity.
      * apply (led_app _ _ [_]); [apply led_plain; repeat constructor|].
        apply led_app; [exact (led_cycle _ _ _ _ Hc)|exact L2].
    + eexists (_ :: ext)%list. split.
      * rewrite Hx. cbn [log trace]. rewrite <- !app_assoc. reflexivity.
      * apply (led_app _ _ [_]); [apply led_plain; repeat constructor|].
        exact (led_cycle _ _ _ _ Hc).
    + eexists (_ :: ext)%list. split.
      * rewrite Hx. cbn [log trace]. rewrite <- !app_assoc. reflexivity.
      * apply (led_app _ _ [_]); [apply led_plain; repeat constructor|].
        exact (led_cycle _ _ _ _ Hc).
  - eexists [_]. cbn [snd log trace]. split; [reflexivity|].
    apply led_plain. repeat constructor.
Qed.

(** Every capture of a run is led by the clock read of its own
    detection. *)
Lemma run_led fuel : led w out_directory (trace (snd (run w fuel))).
Proof.
  assert (T_nil : forall a : N, led w out_directory []).
  { intros _. apply led_plain. constructor. }
  assert (T_app : forall (a b c : N) x y,
             led w out_directory x -> led w out_directory y ->
             led w out_directory (x ++ y)%list)
    by (intros _ _ _ x y; apply led_app).
  assert (Hm : forall fuel',
             yields (monitor w fuel' out_directory)
                    (fun _ _ => led w out_directory)).
  { induction fuel' as [|fuel' IH]; cbn [monitor];
      [apply (yields_running _ T_nil)|].
    apply (yields_bind _ T_app); [|intros _].
    { eapply (led_yields _ idle_entry);
        [|exact (emits_idle_status_update w)].
      intros e He. exact (proj2 He). }
    apply (yields_bind _ T_app); [apply led_detect|intros _; exact IH]. }
  assert (Hy : yields (script w fuel) (fun _ _ => led w out_directory)).
  { unfold script, system.
    apply (yields_bind _ T_app); [|intros _].
    { exact (led_yields _ _ _ (setup_entry_plain is_capture ltac:(auto 10))
               (emits_setup w)). }
    apply (yields_try_finally _ T_app);
      [|exact (led_yields _ _ _ (final_entry_plain is_capture ltac:(auto 10))
                 (emits_teardown w))].
    apply yields_except_both. unfold suite.
    apply (yields_bind _ T_app); [apply (yields_set_armed _ T_nil)|intros _].
    apply (yields_bind _ T_app); [|intros _].
    { exact (led_yields _ _ _
               (disarmed_entry_plain is_capture ltac:(auto 10))
               (emits_checks w fuel)). }
    apply (yields_bind _ T_app); [|intros _].
    { exact (led_yields _ _ _
               (disarmed_entry_plain is_capture ltac:(auto 10))
               (emits_preparation w _)). }
    apply (yields_bind _ T_app); [|intros _].
    { exact (led_yields _ _ _
               (disarmed_entry_plain is_capture ltac:(auto 10))
               (emits_arming_delay w)). }
    apply (yields_bind _ T_app); [apply (yields_set_armed _ T_nil)|intros _].
    apply (yields_bind _ T_app); [|intros _; apply Hm].
    eapply (led_yields _ idle_entry); [|exact (emits_idle_announce w)].
    intros e He. exact (proj2 He). }
  destruct (Hy boot) as (ext & Hx & Tx).
  unfold run. cbn [boot trace app] in Hx. rewrite Hx. exact Tx.
Qed.

Lemma nth_error_after (x l : list entry) k :
  nth_error (x ++ l) (List.length x + k) = nth_error l k.
Proof.
  rewrite nth_error_app2 by lia. f_equal. lia.
Qed.

(** A capture of a run: the three calls before it are the clock read of
    its detection, the line and the caption, and its paths are made from
    that reading. *)
Lemma capture_of_run fuel i e :
  nth_error (trace (snd (run w fuel))) i = Some e ->
  is_capture e = true ->
  exists t0 t1 t2,
    3 <= i /\
    nth_error (trace (snd (run w fuel))) (i - 3)
    = Some (mk_entry t0 (Now AtDetection) (Clock (wall w t0))) /\
    nth_error (trace (snd (run w fuel))) (i - 2)
    = Some (mk_entry t1 (Print (strftime (wall w t0) detection_format)) Done) /\
    nth_error (trace (snd (run w fuel))) (i - 1)
    = Some (mk_entry t2 (Annotate (strftime (wall w t0) detection_format))
                     Done) /\
    capture_paths e
    = sequence out_directory (strftime (wall w t0) detection_format).
Proof.
  intros Hi Hc.
  destruct (nth_error_split _ _ Hi) as (x & y & Htr & Hlen).
  destruct (run_led fuel x e y Htr Hc) as (x' & t0 & t1 & t2 & -> & Hact).
  exists t0, t1, t2. rewrite Htr.
  rewrite length_app in Hlen. cbn [List.length captioned] in Hlen.
  split; [lia|].
  rewrite <- !app_assoc.
  replace (i - 3) with (List.length x' + 0) by lia.
  replace (i - 2) with (List.length x' + 1) by lia.
  replace (i - 1) with (List.length x' + 2) by lia.
  rewrite !nth_error_after. unfold captioned, detection_time_at.
  cbn [app nth_error].
  repeat split. unfold capture_paths. rewrite Hact. reflexivity.
Qed.

End Captures.

(** C7.  Every capture of every run is handed five paths named after the
    one clock reading of its own detection.  The three calls right
    before the capture are the clock read of the detection, answered
    [d], the line Detection printed from [d] and the caption made from
    [d]; the five paths are, in the output directory, the word
    Detection, the date and the time of that same [d] with hyphens, then
    [_1] to [_5] in this order, then [.jpg].  On a clock that shows a
    four-digit year the year takes four digits and every other field
    two. *)
Theorem burst_names (w : World) (fuel : nat) (i : nat) (e : entry) :
  nth_error (trace (snd (run w fuel))) i = Some e ->
  is_capture e = true ->
  exists t0 t1 t2,
    let d := wall w t0 in
    3 <= i /\
    nth_error (trace (snd (run w fuel))) (i - 3)
    = Some (mk_entry t0 (Now AtDetection) (Clock d)) /\
    nth_error (trace (snd (run w fuel))) (i - 2)
    = Some (mk_entry t1 (Print (strftime d "Detection %Y-%m-%d %H:%M:%S"))
                     Done) /\
    nth_error (trace (snd (run w fuel))) (i - 1)
    = Some (mk_entry t2 (Annotate (strftime d "Detection %Y-%m-%d %H:%M:%S"))
                     Done) /\
    capture_paths e
    = map (fun k => "/media/pi/STORAGE/Detections/" ++ "Detection "
                    ++ str (year d) ++ "-" ++ pad2 (month d) ++ "-"
                    ++ pad2 (day d) ++ " " ++ pad2 (hour d) ++ "-"
                    ++ pad2 (minute d) ++ "-" ++ pad2 (second d)
                    ++ "_" ++ k ++ ".jpg")
          ["1"; "2"; "3"; "4"; "5"] /\
    List.length (capture_paths e) = 5 /\
    (wf_datetime d ->
     field 4 (str (year d)) = true /\ field 2 (pad2 (month d)) = true /\
     field 2 (pad2 (day d)) = true /\ field 2 (pad2 (hour d)) = true /\
     field 2 (pad2 (minute d)) = true /\ field 2 (pad2 (second d)) = true).
Proof.
  intros Hi Hc.
  destruct (capture_of_run w fuel i e Hi Hc)
    as (t0 & t1 & t2 & Hle & N0 & N1 & N2 & Ht).
  exists t0, t1, t2. intros d.
  split; [exact Hle|]. split; [exact N0|]. split; [exact N1|].
  split; [exact N2|].
  rewrite Ht, sequence_names. fold d.
  split; [|split; [reflexivity|]].
  - unfold burst_name, hyphenated, out_directory, DIRECTORY.
    cbn [map]. rewrite !append_assoc. reflexivity.
  - intros (Hy & Hm & Hd & HH & HM & HS).
    repeat split; try apply year_field; try apply pad2_field; lia.
Qed.

Lemma burst_names_witness :
  let tr := trace (snd (run full_disk_world 30)) in
  let e := mk_entry 82250000
             (CaptureSequence
                (sequence out_directory "Detection 2024-01-02 08:59:22"))
             Done in
  nth_error tr 36 = Some e /\
  is_capture e = true /\
  nth_error tr 33
  = Some (mk_entry 82250000 (Now AtDetection)
                   (Clock (mk_datetime 2024 1 2 8 59 22))) /\
  capture_paths e
  = ["/media/pi/STORAGE/Detections/Detection 2024-01-02 08-59-22_1.jpg";
     "/media/pi/STORAGE/Detections/Detection 2024-01-02 08-59-22_2.jpg";
     "/media/pi/STORAGE/Detections/Detection 2024-01-02 08-59-22_3.jpg";
     "/media/pi/STORAGE/Detections/Detection 2024-01-02 08-59-22_4.jpg";
     "/media/pi/STORAGE/Detections/Detection 2024-01-02 08-59-22_5.jpg"] /\
  exists t0,
    nth_error tr (36 - 3)
    = Some (mk_entry t0 (Now AtDetection) (Clock (wall full_disk_world t0))) /\
    List.length (capture_paths e) = 5.
Proof.
  intros tr e.
  assert (H : nth_error tr 36 = Some e) by (vm_compute; reflexivity).
  assert (Hc : is_capture e = true) by reflexivity.
  split; [exact H|]. split; [exact Hc|].
  split; [vm_compute; reflexivity|]. split; [reflexivity|].
  destruct (burst_names full_disk_world 30 36 e H Hc)
    as (t0 & t1 & t2 & _ & N0 & _ & _ & _ & Hl & _).
  exists t0. split; [exact N0|exact Hl].
Defined.

(** C9, as the code has it.  On a clock that shows well-formed dates,
    each capture of a run is handed the paths made from the clock
    reading of its own detection, the clock read that stands three
    calls before it.  Two captures whose detections read different
    seconds (or anything above the second) share no path; two captures
    whose detections read the same second are handed the very same five
    paths. *)
Theorem bursts_apart_or_equal (w : World) (fuel : nat) :
  (forall t, wf_datetime (wall w t)) ->
  forall i j e1 e2,
    nth_error (trace (snd (run w fuel))) i = Some e1 ->
    nth_error (trace (snd (run w fuel))) j = Some e2 ->
    is_capture e1 = true -> is_capture e2 = true ->
    exists t1 t2,
      3 <= i /\ 3 <= j /\
      nth_error (trace (snd (run w fuel))) (i - 3)
      = Some (mk_entry t1 (Now AtDetection) (Clock (wall w t1))) /\
      nth_error (trace (snd (run w fuel))) (j - 3)
      = Some (mk_entry t2 (Now AtDetection) (Clock (wall w t2))) /\
      capture_paths e1
      = sequence out_directory (strftime (wall w t1) detection_format) /\
      capture_paths e2
      = sequence out_directory (strftime (wall w t2) detection_format) /\
      (wall w t1 = wall w t2 -> capture_paths e1 = capture_paths e2) /\
      (wall w t1 <> wall w t2 ->
       forall p, In p (capture_paths e1) -> ~ In p (capture_paths e2)).
Proof.
  intros Hwf i j e1 e2 H1 H2 C1 C2.
  destruct (capture_of_run w fuel i e1 H1 C1)
    as (t1 & _ & _ & L1 & N1 & _ & _ & E1).
  destruct (capture_of_run w fuel j e2 H2 C2)
    as (t2 & _ & _ & L2 & N2 & _ & _ & E2).
  exists t1, t2. split; [exact L1|]. split; [exact L2|].
  split; [exact N1|]. split; [exact N2|].
  split; [exact E1|]. split; [exact E2|]. split.
  - intros E. rewrite E1, E2, E. reflexivity.
  - intros Hd p P1 P2. rewrite E1, sequence_names in P1.
    rewrite E2, sequence_names in P2.
    apply in_map_iff in P1 as (k1 & <- & _).
    apply in_map_iff in P2 as (k2 & K & _).
    symmetry in K. revert K. apply burst_names_apart; auto.
Qed.

Lemma bursts_apart_or_equal_witness :
  let tr := trace (snd (run long_motion_world 12)) in
  let e1 := mk_entry 82250000
              (CaptureSequence
                 (sequence out_directory "Detection 2024-01-02 08:59:22"))
              Done in
  let e2 := mk_entry 86000000
              (CaptureSequence
                 (sequence out_directory "Detection 2024-01-02 08:59:26"))
              Done in
  (forall t, wf_datetime (wall long_motion_world t)) /\
  nth_error tr 37 = Some e1 /\
  nth_error tr 45 = Some e2 /\
  is_capture e1 = true /\ is_capture e2 = true /\
  nth_error tr 34
  = Some (mk_entry 82250000 (Now AtDetection)
                   (Clock (mk_datetime 2024 1 2 8 59 22))) /\
  nth_error tr 42
  = Some (mk_entry 86000000 (Now AtDetection)
                   (Clock (mk_datetime 2024 1 2 8 59 26))) /\
  forall p, In p (capture_paths e1) -> ~ In p (capture_paths e2).
Proof.
  intros tr e1 e2.
  assert (Hwf : forall t, wf_datetime (wall long_motion_world t)).
  { intros t. apply tick_wf. unfold wf_datetime. cbn. lia. }
  assert (H1 : nth_error tr 37 = Some e1) by (vm_compute; reflexivity).
  assert (H2 : nth_error tr 45 = Some e2) by (vm_compute; reflexivity).
  assert (C1 : is_capture e1 = true) by reflexivity.
  assert (C2 : is_capture e2 = true) by reflexivity.
  split; [exact Hwf|]. split; [exact H1|]. split; [exact H2|].
  split; [exact C1|]. split; [exact C2|].
  split; [vm_compute; reflexivity|]. split; [vm_compute; reflexivity|].
  destruct (bursts_apart_or_equal long_motion_world 12 Hwf 37 45 e1 e2
              H1 H2 C1 C2)
    as (t1 & t2 & _ & _ & _ & _ & E1 & E2 & _ & Hapart).
  apply Hapart. intros E.
  assert (K : capture_paths e1 = capture_paths e2)
    by (rewrite E1, E2, E; reflexivity).
  vm_compute in K. discriminate K.
Defined.

(** C9, as the claim has it, fails.  In this world the clock runs true
    and the camera is quick: the second detection of the motion starts
    four tenths of a second after the first, both read 08:59:20, and the
    second capture is handed the five paths the first one wrote. *)
Lemma bursts_collide :
  firstn 2 (map (fun e => (at_ e, capture_paths e))
                (filter is_capture (trace (snd (run brisk_world 50)))))
  = [(80510000%N,
      map (burst_name out_directory (mk_datetime 2024 1 2 8 59 20))
          ["1"; "2"; "3"; "4"; "5"]);
     (80920000%N,
      map (burst_name out_directory (mk_datetime 2024 1 2 8 59 20))
          ["1"; "2"; "3"; "4"; "5"])].
Proof. vm_compute. reflexivity. Qed.

(** ** The free-space cutoff *)

(** *** The division and the comparison, in binary64 *)

Section Binary64.

Local Open Scope Z_scope.

Lemma digits2_pos_size p : digits2_pos p = Pos.size p.
Proof. induction p; cbn; congruence. Qed.

Lemma Zdigits2_bounds q :
  0 < q -> 2 ^ (Zdigits2 q - 1) <= q < 2 ^ Zdigits2 q.
Proof.
  destruct q as [|p|p]; try lia. intros _. cbn [Zdigits2].
  rewrite digits2_pos_size.
  pose proof (Pos.size_gt p) as H1. pose proof (Pos.size_le p) as H2.
  apply Pos2Z.pos_lt_pos in H1. apply Pos2Z.pos_le_pos in H2.
  rewrite Pos2Z.inj_pow in H1, H2.
  change (Z.pos p~0) with (2 * Z.pos p) in H2.
  replace (Z.pos (Pos.size p)) with (Z.succ (Z.pos (Pos.size p) - 1)) in H2 at 1
    by lia.
  rewrite Z.pow_succ_r in H2 by lia. lia.
Qed.

Lemma Zdigits2_unique q d :
  0 < d -> 2 ^ (d - 1) <= q < 2 ^ d -> Zdigits2 q = d.
Proof.
  intros Hd [H1 H2].
  assert (Hq : 0 < q) by (pose proof (Z.pow_pos_nonneg 2 (d - 1)); lia).
  destruct (Zdigits2_bounds q Hq) as [K1 K2].
  assert (Hp : 0 < Zdigits2 q) by (destruct q; cbn; lia).
  assert (L1 : 2 ^ (d - 1) < 2 ^ Zdigits2 q) by lia.
  assert (L2 : 2 ^ (Zdigits2 q - 1) < 2 ^ d) by lia.
  apply Z.pow_lt_mono_r_iff in L1; try lia.
  apply Z.pow_lt_mono_r_iff in L2; lia.
Qed.

Lemma shr_1_m mrs : 0 <= shr_m mrs -> shr_m (shr_1 mrs) = shr_m mrs / 2.
Proof.
  destruct mrs as [m r s]. cbn [shr_m]. intros H.
  destruct m as [|[p|p|]|p]; try lia; cbn [shr_1 shr_m].
  - reflexivity.
  - rewrite Pos2Z.inj_xI. apply Z.div_unique with 1; lia.
  - rewrite Pos2Z.inj_xO. apply Z.div_unique with 0; lia.
  - reflexivity.
Qed.

Lemma iter_shr_m p :
  forall mrs, 0 <= shr_m mrs ->
              shr_m (iter_pos shr_1 p mrs) = shr_m mrs / 2 ^ Zpos p.
Proof.
  induction p as [p IH|p IH|]; intros mrs H; cbn [iter_pos].
  - assert (H1 : 0 <= shr_m (shr_1 mrs))
      by (rewrite shr_1_m by exact H; apply Z.div_pos; lia).
    assert (H2 : 0 <= shr_m (iter_pos shr_1 p (shr_1 mrs)))
      by (rewrite IH by exact H1; apply Z.div_pos; [lia|apply Z.pow_pos_nonneg; lia]).
    rewrite IH, IH, shr_1_m by assumption.
    rewrite !Z.div_div by (try apply Z.pow_pos_nonneg; lia).
    f_equal.
    replace (Z.pos p~1) with (1 + Z.pos p + Z.pos p) by lia.
    rewrite !Z.pow_add_r by lia. lia.
  - assert (H2 : 0 <= shr_m (iter_pos shr_1 p mrs))
      by (rewrite IH by exact H; apply Z.div_pos; [lia|apply Z.pow_pos_nonneg; lia]).
    rewrite IH, IH by assumption.
    rewrite !Z.div_div by (try apply Z.pow_pos_nonneg; lia).
    f_equal.
    replace (Z.pos p~0) with (Z.pos p + Z.pos p) by lia.
    rewrite !Z.pow_add_r by lia. lia.
  - rewrite shr_1_m by exact H. reflexivity.
Qed.

Lemma shr_record_of_loc_m m l : shr_m (shr_record_of_loc m l) = m.
Proof. destruct l as [|[]]; reflexivity. Qed.

Lemma shr_spec m l e n :
  0 <= m ->
  shr_m (fst (shr (shr_record_of_loc m l) e n)) = m / 2 ^ Z.max n 0 /\
  snd (shr (shr_record_of_loc m l) e n) = e + Z.max n 0.
Proof.
  intros H. destruct n as [|p|p]; cbn [shr fst snd].
  - rewrite shr_record_of_loc_m. cbn. rewrite Z.div_1_r. split; lia.
  - rewrite iter_shr_m by (rewrite shr_record_of_loc_m; exact H).
    rewrite shr_record_of_loc_m. split; [reflexivity|lia].
  - rewrite shr_record_of_loc_m. cbn. rewrite Z.div_1_r. split; lia.
Qed.

Lemma round_nearest_even_cases m l :
  m <= round_nearest_even m l <= m + 1.
Proof.
  destruct l as [|[]]; cbn; try lia. destruct (Z.even m); lia.
Qed.

Lemma binary_round_aux_spec sx q e l :
  0 <= q ->
  let n1 := Z.max (fexp 53 1024 (Zdigits2 q + e) - e) 0 in
  exists m2,
    q / 2 ^ n1 <= m2 <= q / 2 ^ n1 + 1 /\
    binary_round_aux 53 1024 sx q e l =
      let n2 := Z.max (fexp 53 1024 (Zdigits2 m2 + (e + n1)) - (e + n1)) 0 in
      match m2 / 2 ^ n2 with
      | Z0 => S754_zero sx
      | Zpos m =>
          if e + n1 + n2 <=? 1024 - 53 then S754_finite sx m (e + n1 + n2)
          else S754_infinity sx
      | Zneg _ => S754_nan
      end.
Proof.
  intros Hq n1. unfold binary_round_aux, shr_fexp.
  destruct (shr_spec q l e (fexp 53 1024 (Zdigits2 q + e) - e) Hq) as [M1 E1].
  fold n1 in M1, E1.
  destruct (shr (shr_record_of_loc q l) e (fexp 53 1024 (Zdigits2 q + e) - e))
    as [mrs1 e1]. cbn [fst snd] in M1, E1. subst e1.
  set (m2 := round_nearest_even (shr_m mrs1) (loc_of_shr_record mrs1)).
  pose proof (round_nearest_even_cases (shr_m mrs1) (loc_of_shr_record mrs1))
    as R. fold m2 in R. rewrite M1 in R.
  assert (H2 : 0 <= m2).
  { assert (0 <= q / 2 ^ n1)
      by (apply Z.div_pos; [lia|apply Z.pow_pos_nonneg; lia]). lia. }
  exists m2. split; [exact R|].
  destruct (shr_spec m2 loc_Exact (e + n1)
              (fexp 53 1024 (Zdigits2 m2 + (e + n1)) - (e + n1)) H2)
    as [M2 E2].
  destruct (shr (shr_record_of_loc m2 loc_Exact) (e + n1)
                (fexp 53 1024 (Zdigits2 m2 + (e + n1)) - (e + n1)))
    as [mrs2 e2]. cbn [fst snd] in M2, E2. subst e2. rewrite M2.
  cbv zeta. reflexivity.
Qed.

Lemma normalised q :
  2 ^ 52 <= q -> 2 ^ 52 <= q / 2 ^ (Zdigits2 q - 53) < 2 ^ 53 /\ 53 <= Zdigits2 q.
Proof.
  intros H.
  destruct (Zdigits2_bounds q) as [K1 K2]; [lia|].
  assert (D : 53 <= Zdigits2 q).
  { assert (L : 2 ^ 52 < 2 ^ Zdigits2 q) by lia.
    apply Z.pow_lt_mono_r_iff in L; [lia|lia|].
    destruct q; cbn; lia. }
  assert (P : 0 < 2 ^ (Zdigits2 q - 53)) by (apply Z.pow_pos_nonneg; lia).
  split; [split|exact D].
  - apply Z.div_le_lower_bound; [exact P|].
    rewrite Z.mul_comm, <- Z.pow_add_r by lia.
    replace (52 + (Zdigits2 q - 53)) with (Zdigits2 q - 1) by lia. exact K1.
  - apply Z.div_lt_upper_bound; [exact P|].
    rewrite <- Z.pow_add_r by lia.
    replace (Zdigits2 q - 53 + 53) with (Zdigits2 q) by lia. exact K2.
Qed.

(** The rounding of a quotient [q * 2^e] that has 53 bits or more, above
    the subnormal range. *)
Lemma round_outcome sx q e l :
  2 ^ 52 <= q -> -1074 <= e ->
  exists m e',
    binary_round_aux 53 1024 sx q e l
    = (if e' <=? 971 then S754_finite sx m e' else S754_infinity sx) /\
    2 ^ 52 <= Zpos m < 2 ^ 53 /\
    let n := Zdigits2 q - 53 in
    (e' = e + n /\ q / 2 ^ n <= Zpos m <= q / 2 ^ n + 1) \/
    (e' = e + n + 1 /\ Zpos m = 2 ^ 52 /\ q / 2 ^ n = 2 ^ 53 - 1).
Proof.
  intros Hq He.
  destruct (normalised q Hq) as [N D].
  destruct (binary_round_aux_spec sx q e l) as (m2 & R & ->); [lia|].
  unfold fexp, emin in *.
  replace (Z.max (Z.max (Zdigits2 q + e - 53) (3 - 1024 - 53) - e) 0)
    with (Zdigits2 q - 53) in * by lia.
  set (n := Zdigits2 q - 53) in *.
  destruct (Z.eq_dec m2 (2 ^ 53)) as [C|C].
  - (* the rounding carried to the next binade *)
    rewrite C.
    replace (Zdigits2 (2 ^ 53)) with 54 by reflexivity.
    replace (Z.max (Z.max (54 + (e + n) - 53) (3 - 1024 - 53) - (e + n)) 0)
      with 1 by lia.
    exists (Z.to_pos (2 ^ 52)), (e + n + 1).
    split; [reflexivity|]. split; [cbn; lia|].
    right. split; [reflexivity|]. split; [reflexivity|]. lia.
  - assert (B : 2 ^ 52 <= m2 < 2 ^ 53) by lia.
    rewrite (Zdigits2_unique m2 53) by (cbn in *; lia).
    replace (Z.max (Z.max (53 + (e + n) - 53) (3 - 1024 - 53) - (e + n)) 0)
      with 0 by lia.
    rewrite Z.div_1_r, Z.add_0_r.
    destruct m2 as [|p|p]; try (cbn in B; lia).
    exists p, (e + n). split; [reflexivity|]. split; [exact B|].
    left. split; [reflexivity|exact R].
Qed.

Lemma div_core (a : positive) :
  let e := Z.min (Z.max (Zpos (digits2_pos a) - 83) (-1074)) 0 in
  SFdiv_core_binary 53 1024 (Zpos a) 0 1000000000 0
  = (Zpos a * 2 ^ (- e) / 1000000000, e,
     new_location 1000000000 ((Zpos a * 2 ^ (- e)) mod 1000000000)).
Proof.
  intros e. unfold SFdiv_core_binary, fexp, emin. cbn [Zdigits2].
  replace (Z.pos (digits2_pos 1000000000)) with 30 by reflexivity.
  replace (Z.min (Z.max (Z.pos (digits2_pos a) + 0 - (30 + 0) - 53)
                        (3 - 1024 - 53)) (0 - 0)) with e by (unfold e; lia).
  replace (0 - 0 - e) with (- e) by lia.
  assert (He : 0 <= - e) by (unfold e; lia).
  assert (Hm : match - e with
               | 0 => Z.pos a
               | Z.pos _ => Z.shiftl (Z.pos a) (- e)
               | Z.neg _ => 0
               end = Z.pos a * 2 ^ (- e)).
  { destruct (- e) as [|p|p] eqn:E.
    - cbn. lia.
    - apply Z.shiftl_mul_pow2. lia.
    - lia. }
  rewrite Hm. unfold Z.div, Z.modulo.
  destruct (Z.div_eucl (Z.pos a * 2 ^ (- e)) 1000000000). reflexivity.
Qed.

Lemma float_of_int_5 :
  float_of_int 5 = S754_finite false 5629499534213120 (-50).
Proof. reflexivity. Qed.

Lemma leb_five m e :
  SFleb (S754_finite false m e) (S754_finite false 5629499534213120 (-50)) = true
  <-> e < -50 \/ (e = -50 /\ Zpos m <= 5629499534213120).
Proof.
  unfold SFleb, SFcompare.
  destruct (Z.compare_spec e (-50)) as [E|E|E].
  - rewrite Pos.compare_cont_spec. unfold Pos.switch_Eq.
    destruct (Pos.compare m 5629499534213120) eqn:C.
    + apply Pos.compare_eq_iff in C. subst m. split; [lia|reflexivity].
    + apply Pos2Z.pos_lt_pos in C. split; [lia|reflexivity].
    + apply Pos.compare_gt_iff, Pos2Z.pos_lt_pos in C.
      split; [discriminate|lia].
  - split; [lia|reflexivity].
  - split; [discriminate|lia].
Qed.

Lemma low_positive (a : positive) :
  SFleb (int_truediv (Zpos a) 1000000000) (float_of_int 5) = true
  <-> Zpos a <= 5000000000.
Proof.
  destruct (Pos.eq_dec a 5000000000) as [->|Ha]; [split; [lia|reflexivity]|].
  assert (Ha' : Zpos a <> 5000000000) by congruence. clear Ha.
  unfold int_truediv, SFdiv. cbn [int_operand]. rewrite float_of_int_5.
  rewrite div_core. cbn [xorb].
  destruct (Zdigits2_bounds (Zpos a)) as [D1 D2]; [lia|]. cbn [Zdigits2] in D1, D2.
  assert (Hd : 1 <= Zpos (digits2_pos a)) by lia.
  set (d := Zpos (digits2_pos a)) in *. clearbody d.
  set (e := Z.min (Z.max (d - 83) (-1074)) 0).
  assert (Ee : e = Z.min (Z.max (d - 83) (-1074)) 0) by reflexivity.
  clearbody e.
  set (A := Zpos a * 2 ^ (- e)).
  assert (HA : 2 ^ 82 <= A).
  { unfold A. destruct (Z_le_gt_dec d 83) as [L|L].
    - replace (- e) with (83 - d) by lia.
      replace 82 with (d - 1 + (83 - d)) by lia.
      rewrite Z.pow_add_r by lia.
      apply Z.mul_le_mono_nonneg_r; [apply Z.pow_nonneg; lia|exact D1].
    - replace (- e) with 0 by lia. rewrite Z.mul_1_r.
      assert (2 ^ 82 <= 2 ^ (d - 1)) by (apply Z.pow_le_mono_r; lia). lia. }
  assert (HA' : d <= 83 -> A < 2 ^ 83).
  { intros L. unfold A.
    replace (- e) with (83 - d) by lia.
    replace 83 with (d + (83 - d)) at 2 by lia.
    rewrite Z.pow_add_r by lia.
    apply Z.mul_lt_mono_pos_r; [apply Z.pow_pos_nonneg; lia|exact D2]. }
  assert (A33 : d = 33 -> A = Zpos a * 2 ^ 50).
  { intros L. unfold A. replace (- e) with 50 by lia. reflexivity. }
  clearbody A.
  set (l := new_location 1000000000 (A mod 1000000000)). clearbody l.
  change (2 ^ 82) with 4835703278458516698824704 in HA.
  change (2 ^ 83) with 9671406556917033397649408 in HA'.
  change (2 ^ 50) with 1125899906842624 in A33.
  pose proof (Z.div_mod A 1000000000 ltac:(lia)) as DM.
  pose proof (Z.mod_pos_bound A 1000000000 ltac:(lia)) as MB.
  set (q := A / 1000000000) in *. set (r := A mod 1000000000) in *.
  clearbody q r.
  assert (Hq : 2 ^ 52 <= q) by (change (2 ^ 52) with 4503599627370496; lia).
  destruct (round_outcome false q e l Hq) as (m & e' & -> & M & O); [lia|].
  destruct (normalised _ Hq) as [_ N].
  cbv zeta in O.
  change (2 ^ 52) with 4503599627370496 in *.
  change (2 ^ 53) with 9007199254740992 in *.
  destruct (Z_le_gt_dec 34 d) as [Big|Small].
  - (* 2^33 <= a: the exponent of the quotient is above that of 5.0 *)
    assert (a33 : 2 ^ 33 <= Zpos a).
    { assert (2 ^ 33 <= 2 ^ (d - 1)) by (apply Z.pow_le_mono_r; lia). lia. }
    change (2 ^ 33) with 8589934592 in a33.
    assert (E' : -49 <= e') by lia.
    split; [|lia]. intros K. exfalso.
    destruct (e' <=? 971); [|discriminate K].
    apply leb_five in K. lia.
  - specialize (HA' ltac:(lia)).
    assert (He : e = d - 83) by lia.
    assert (a33 : Zpos a < 2 ^ 33).
    { assert (2 ^ d <= 2 ^ 33) by (apply Z.pow_le_mono_r; lia). lia. }
    change (2 ^ 33) with 8589934592 in a33.
    assert (a32 : d <= 32 -> Zpos a < 2 ^ 32).
    { intros L. assert (2 ^ d <= 2 ^ 32) by (apply Z.pow_le_mono_r; lia). lia. }
    change (2 ^ 32) with 4294967296 in a32.
    assert (C : d <= 32 \/ (d = 33 /\ A = Z.pos a * 1125899906842624)) by lia.
    clear A33 D1 D2.
    destruct (Z_lt_ge_dec q 9007199254740992) as [Q1|Q1].
    + (* the quotient has 53 bits *)
      rewrite (Zdigits2_unique q 53) in O
        by (change (2 ^ (53 - 1)) with 4503599627370496;
            change (2 ^ 53) with 9007199254740992; lia).
      change (53 - 53) with 0 in O. rewrite Z.div_1_r in O.
      assert (F : e' <= 971) by lia.
      apply Z.leb_le in F. rewrite F. clear F.
      rewrite leb_five. lia.
    + (* the quotient has 54 bits *)
      rewrite (Zdigits2_unique q 54) in O
        by (change (2 ^ (54 - 1)) with 9007199254740992;
            change (2 ^ 54) with 18014398509481984; lia).
      change (54 - 53) with 1 in O. change (2 ^ 1) with 2 in O.
      pose proof (Z.div_mod q 2 ltac:(lia)) as DM2.
      pose proof (Z.mod_pos_bound q 2 ltac:(lia)) as MB2.
      set (q2 := q / 2) in *. set (r2 := q mod 2) in *. clearbody q2 r2.
      assert (F : e' <= 971) by lia.
      apply Z.leb_le in F. rewrite F. clear F.
      rewrite leb_five. lia.
Qed.

Lemma low_negative (a : positive) :
  SFleb (int_truediv (Zneg a) 1000000000) (float_of_int 5) = true.
Proof.
  unfold int_truediv, SFdiv. cbn [int_operand]. rewrite float_of_int_5.
  rewrite div_core. cbn [xorb].
  set (e := Z.min (Z.max (Zpos (digits2_pos a) - 83) (-1074)) 0).
  assert (He : 0 <= - e) by (unfold e; lia). clearbody e.
  set (q := Zpos a * 2 ^ (- e) / 1000000000).
  assert (Hq : 0 <= q).
  { apply Z.div_pos; [|lia].
    apply Z.mul_nonneg_nonneg; [lia|apply Z.pow_nonneg; lia]. }
  clearbody q.
  destruct (binary_round_aux_spec true q e
              (new_location 1000000000 ((Zpos a * 2 ^ (- e)) mod 1000000000)) Hq)
    as (m2 & R & ->).
  cbv zeta.
  match goal with |- context [m2 / 2 ^ ?n] =>
    assert (H2 : 0 <= m2 / 2 ^ n);
    [apply Z.div_pos; [|apply Z.pow_pos_nonneg; lia]|
     destruct (m2 / 2 ^ n) as [|p|p]]
  end.
  - assert (0 <= q / 2 ^ Z.max (fexp 53 1024 (Zdigits2 q + e) - e) 0)
      by (apply Z.div_pos; [lia|apply Z.pow_pos_nonneg; lia]). lia.
  - reflexivity.
  - match goal with |- context [if ?c then _ else _] => destruct c end;
      reflexivity.
  - lia.
Qed.

(** The comparison of the script, on the integers. *)
Lemma low_space_iff (u : usage) :
  low_space u = true <-> free u <= 5000000000.
Proof.
  unfold low_space. destruct (free u) as [|a|a].
  - split; [lia|reflexivity].
  - apply low_positive.
  - split; [lia|intros _; apply low_negative].
Qed.

End Binary64.

(** *** What the readings say about the end of the loop *)

Lemma low_space_not (u : usage) :
  low_space u = false <-> (5000000000 < free u)%Z.
Proof.
  pose proof (low_space_iff u) as H.
  destruct (low_space u); split; intros K; try discriminate; lia.
Qed.

Lemma readings_app x y : readings (x ++ y) = (readings x ++ readings y)%list.
Proof. apply flat_map_app. Qed.

Lemma readings_idle ext : Forall idle_entry ext -> readings ext = [].
Proof.
  induction 1 as [|[t a r] ext [H _] _ IH]; [reflexivity|].
  destruct a; try discriminate H; cbn; exact IH.
Qed.

Lemma readings_confirmation t r : readings (confirmation t r) = [].
Proof. destruct r; reflexivity. Qed.

Lemma verdict_nil : verdict [] None.
Proof. constructor. Qed.

Lemma verdict_seq x y r : verdict x None -> verdict y r -> verdict (x ++ y) r.
Proof.
  unfold verdict. intros Hx Hy.
  destruct r as [[[]|]|]; rewrite readings_app;
    try (apply Forall_app; split; assumption).
  destruct Hy as (earlier & u & Hr & Hu & He).
  exists (readings x ++ earlier)%list, u.
  rewrite Hr, app_assoc. repeat split; auto.
  apply Forall_app; split; assumption.
Qed.

Lemma verdict_idle ext r :
  Forall idle_entry ext -> (forall e, r = Some e -> not_low_space e) ->
  verdict ext r.
Proof.
  intros Hx Hr. unfold verdict. rewrite (readings_idle ext Hx).
  destruct r as [[[]|]|]; try constructor.
  exfalso. now apply (Hr (Exception_ LowFreeSpace)).
Qed.

Section Conclusions.

Variable Q : list entry -> option exc -> Prop.
Hypothesis Q_nil : Q [] None.
Hypothesis Q_seq : forall x y r, Q x None -> Q y r -> Q (x ++ y)%list r.

Lemma concludes_ret {A} (a : A) : concludes (ret a) Q.
Proof. intros s. exists []. cbn. now rewrite app_nil_r. Qed.

Lemma concludes_running {A} : concludes (@running A) Q.
Proof. intros s. exists []. cbn. now rewrite app_nil_r. Qed.

Lemma concludes_set_armed b : concludes (set_armed b) Q.
Proof. intros s. exists []. cbn. now rewrite app_nil_r. Qed.

Lemma concludes_bind {A B} (m : M A) (f : A -> M B) :
  concludes m Q -> (forall a, concludes (f a) Q) -> concludes (bind m f) Q.
Proof.
  intros Hm Hf s. unfold bind.
  destruct (Hm s) as (x & Hx & Qx).
  destruct (m s) as [[a|e|] s1]; cbn [fst snd raised] in *.
  - destruct (Hf a s1) as (y & Hy & Qy).
    exists (x ++ y)%list. rewrite Hy, Hx, app_assoc. auto.
  - exists x. auto.
  - exists x. auto.
Qed.

End Conclusions.

Lemma concludes_idle {A} (m : M A) :
  emits m idle_entry not_low_space -> concludes m verdict.
Proof.
  intros H s. destruct (H s) as (tr & Ht & Hp & _ & He & _).
  exists tr. split; [exact Ht|]. apply verdict_idle; [exact Hp|].
  intros e Hr. apply He. destruct (fst (m s)); now inversion Hr.
Qed.

Section Cutoff.

Variable w : World.

Lemma readings_mailed out t0 t1 t2 t3 t4 r :
  readings (mailed w out t0 t1 t2 t3 t4 r) = [].
Proof. reflexivity. Qed.

(** One pass through the body of the detection loop: what it read and
    how it ended. *)
Lemma cutoff_cycle out ext c : cycle w out ext c -> cutoff ext c.
Proof.
  unfold cutoff.
  intros [t0 t1 t2 e He|t0 t1 t2 t3 e He|t0 t1 t2 t3 t4
         |t0 t1 t2 t3 t4 t5 t6 r e Hr He
         |t0 t1 t2 t3 t4 t5 t6 t7 r u Hr Hu
         |t0 t1 t2 t3 t4 t5 t6 r u Hr Hu];
    rewrite ?readings_app, ?readings_mailed, ?readings_confirmation.
  - left. split; [reflexivity|]. now exists e.
  - left. split; [reflexivity|]. now exists e.
  - left. split; [reflexivity|]. exists KeyboardInterrupt. now split.
  - left. split; [reflexivity|]. now exists e.
  - right. exists u. split; [reflexivity|]. left.
    split; [now apply low_space_iff|reflexivity].
  - right. exists u. split; [reflexivity|]. right.
    split; [now apply low_space_not|reflexivity].
Qed.

Lemma verdict_cutoff ext c : cutoff ext c -> verdict ext (raised c).
Proof.
  unfold cutoff, verdict.
  intros [[-> (e & -> & He)]|(u & -> & [[Hu ->]|[Hu ->]])]; cbn [raised].
  - destruct e as [[]|]; try constructor. now contradiction He.
  - exists [], u. repeat split; auto.
  - repeat constructor. exact Hu.
Qed.

Lemma cutoff_detection out s :
  exists ext,
    trace (snd (detection w out s)) = (trace s ++ ext)%list /\
    cutoff ext (fst (detection w out s)).
Proof.
  destruct (detection_cycle w out s) as (ext & Hx & Hc).
  exists ext. split; [exact Hx|]. eapply cutoff_cycle; exact Hc.
Qed.

Lemma concludes_detection out : concludes (detection w out) verdict.
Proof.
  intros s. destruct (cutoff_detection out s) as (ext & Hx & Hc).
  exists ext. split; [exact Hx|]. apply verdict_cutoff. exact Hc.
Qed.

Lemma concludes_detect fuel out : concludes (detect w fuel out) verdict.
Proof.
  induction fuel as [|fuel IH]; cbn [detect]; [apply concludes_running, verdict_nil|].
  apply concludes_bind; [exact verdict_seq|apply concludes_idle, emits_idle_poll|].
  intros [|]; [|apply concludes_ret, verdict_nil].
  apply concludes_bind; [exact verdict_seq|apply concludes_detection|].
  intros _. exact IH.
Qed.

Lemma concludes_monitor fuel out : concludes (monitor w fuel out) verdict.
Proof.
  induction fuel as [|fuel IH]; cbn [monitor]; [apply concludes_running, verdict_nil|].
  apply concludes_bind;
    [exact verdict_seq|apply concludes_idle, emits_idle_status_update|].
  intros _.
  apply concludes_bind; [exact verdict_seq|apply concludes_detect|].
  intros _. exact IH.
Qed.

Lemma concludes_suite fuel : concludes (suite w fuel) verdict.
Proof.
  unfold suite.
  apply concludes_bind; [exact verdict_seq|apply concludes_set_armed, verdict_nil|].
  intros _.
  apply concludes_bind;
    [exact verdict_seq
    |apply concludes_idle, emits_idle_disarmed, emits_checks|].
  intros _. cbv zeta.
  apply concludes_bind;
    [exact verdict_seq
    |apply concludes_idle, emits_idle_disarmed, emits_preparation|].
  intros _.
  apply concludes_bind;
    [exact verdict_seq
    |apply concludes_idle, emits_idle_disarmed, emits_arming_delay|].
  intros _.
  apply concludes_bind; [exact verdict_seq|apply concludes_set_armed, verdict_nil|].
  intros _.
  apply concludes_bind;
    [exact verdict_seq|apply concludes_idle, emits_idle_announce|].
  intros _. apply concludes_monitor.
Qed.

End Cutoff.

(** C3.  The cutoff is an inclusive comparison with 5 GB, made after
    each detection.  (1) On every integer number of free bytes the test
    of the script, a binary64 division by 1,000,000,000 and a comparison
    with 5, holds exactly when the free bytes are 5,000,000,000 or
    fewer: it holds at 5,000,000,000 and fails at 5,000,000,001.  (2) A
    pass through the body of the detection loop that reads the free
    space ends by the low-space exception when the reading is of
    5,000,000,000 bytes or less and ends normally, so that the loop goes
    on, when it is of more; a pass that does not get to read it ends by
    another exception.  (3) The suite of the [try] statement is left by
    the low-space exception exactly on the first reading of 5,000,000,000
    bytes or less: that reading is its last, every reading before it was
    of more, and if it ends otherwise every reading was of more.  (4) In
    every run the free space is read once for each detection mail that
    was sent and not interrupted, and at no other time. *)
Theorem free_space_cutoff (w : World) :
  (forall u, low_space u = true <-> (free u <= 5000000000)%Z) /\
  low_space (mk_usage 32000000000 27000000000 5000000000) = true /\
  low_space (mk_usage 32000000000 26999999999 5000000001) = false /\
  (forall out s,
     exists ext,
       trace (snd (detection w out s)) = (trace s ++ ext)%list /\
       cutoff ext (fst (detection w out s))) /\
  (forall fuel, concludes (suite w fuel) verdict) /\
  (forall fuel,
     count is_disk_usage (trace (snd (run w fuel)))
     = count settled_mail (trace (snd (run w fuel)))).
Proof.
  split; [exact low_space_iff|].
  split; [reflexivity|]. split; [reflexivity|].
  split; [apply cutoff_detection|].
  split; [intros fuel; apply concludes_suite|].
  intros fuel. apply (run_tallies w fuel).
Qed.

(** With exactly 5,000,000,000 bytes free the first detection is the
    last: one reading, the line of the low-space exit, and the run is
    over. *)
Example exactly_5_GB_ends_monitoring :
  let tr := trace (snd (run full_disk_world 30)) in
  fst (run full_disk_world 30) = Normal tt /\
  map free (readings tr) = [5000000000%Z] /\
  count is_high tr = 1 /\
  count (is_print (nl ++ "Low free space")) tr = 1 /\
  count (is_send AtDisarmed) tr = 1.
Proof. vm_compute. repeat split. Qed.

(** With one byte more the loop goes on: a second detection follows the
    first and nothing has ended the run. *)
Example one_byte_more_continues :
  let tr := trace (snd (run roomy_world 12)) in
  fst (run roomy_world 12) = Running /\
  map free (readings tr) = [5000000001%Z; 5000000001%Z] /\
  count is_high tr = 2 /\
  count (is_print (nl ++ "Low free space")) tr = 0 /\
  count is_close tr = 0.
Proof. vm_compute. repeat split. Qed.

(** ** The scheduled status update *)

Lemma chain_le a l b : chain a l b -> (a <= b)%N.
Proof.
  revert a. induction l as [|t l IH]; intros a; cbn; [auto|].
  intros [H1 H2]. apply IH in H2. lia.
Qed.

Lemma chain_weaken a a' l b : (a' <= a)%N -> chain a l b -> chain a' l b.
Proof. destruct l as [|t l]; cbn; intros H; [lia|]. intros [H1 H2]. split; [lia|exact H2]. Qed.

Lemma chain_app a l b l' c :
  chain a l b -> chain b l' c -> chain a (l ++ l')%list c.
Proof.
  revert a. induction l as [|t l IH]; intros a; cbn.
  - intros H. now apply chain_weaken.
  - intros [H1 H2] H3. split; [exact H1|]. now apply IH.
Qed.

Lemma chain_app_inv a l t l' b :
  chain a (l ++ t :: l')%list b -> (a <= t)%N /\ chain (t + 1000000) l' b.
Proof.
  revert a. induction l as [|u l IH]; intros a; cbn.
  - auto.
  - intros [H1 H2]. apply IH in H2 as [H2 H3]. split; [lia|exact H3].
Qed.

Lemma stamps_app x y : stamps (x ++ y) = (stamps x ++ stamps y)%list.
Proof. unfold stamps. now rewrite filter_app, map_app. Qed.

Lemma off_schedule_triggers e : off_schedule e -> triggers e = false.
Proof.
  destruct e as [t a r]. unfold off_schedule, triggers. cbn.
  destruct a as [|st| | | | | | | | | | | | | | | | |]; try reflexivity.
  destruct st; try reflexivity. intros H. now contradiction H.
Qed.

Lemma off_schedule_send e : off_schedule e -> is_send AtUpdate e = false.
Proof.
  destruct e as [t a r]. unfold off_schedule, is_send. cbn.
  destruct a as [| | | | | | | | | | | | | | |st ? ? ?| | |]; try reflexivity.
  destruct st; try reflexivity. intros H. now contradiction H.
Qed.

Lemma off_schedule_reading w e : off_schedule e -> true_reading w e.
Proof.
  destruct e as [t a r]. unfold off_schedule, true_reading. cbn.
  destruct a as [|st| | | | | | | | | | | | | | | | |]; try tauto.
  destruct st; tauto.
Qed.

Lemma stamps_off ext : Forall off_schedule ext -> stamps ext = [].
Proof.
  unfold stamps. induction 1 as [|e ext He _ IH]; [reflexivity|].
  cbn. now rewrite (off_schedule_triggers e He).
Qed.

Lemma one_ping_each_due ext :
  forall due, one_ping_each due ext -> one_ping_each true ext.
Proof.
  induction ext as [|e ext IH]; intros due; cbn; [auto|].
  destruct (triggers e); [auto|].
  destruct (is_send AtUpdate e); [|apply IH].
  intros [_ H]. auto.
Qed.

Lemma one_ping_each_app x y :
  forall due,
    one_ping_each due x -> one_ping_each false y -> one_ping_each due (x ++ y).
Proof.
  induction x as [|e x IH]; intros due; cbn.
  - intros _ H. destruct due; [now apply one_ping_each_due in H|exact H].
  - destruct (triggers e); [apply IH|].
    destruct (is_send AtUpdate e); [|apply IH].
    intros [H1 H2] H3. split; [exact H1|]. now apply IH.
Qed.

Lemma one_ping_each_off ext :
  Forall off_schedule ext -> forall due, one_ping_each due ext.
Proof.
  induction 1 as [|e ext He _ IH]; intros due; cbn; [exact I|].
  rewrite (off_schedule_triggers e He), (off_schedule_send e He). apply IH.
Qed.

Section OnSchedule.

Variable w : World.

Lemma on_schedule_nil a : on_schedule w a a [].
Proof. repeat split; cbn; auto. lia. Qed.

Lemma on_schedule_app a b c x y :
  on_schedule w a b x -> on_schedule w b c y -> on_schedule w a c (x ++ y).
Proof.
  intros (H1 & H2 & H3) (K1 & K2 & K3). repeat split.
  - rewrite stamps_app. eapply chain_app; eauto.
  - apply Forall_app; auto.
  - now apply one_ping_each_app.
Qed.

Lemma on_schedule_off a b ext :
  (a <= b)%N -> Forall off_schedule ext -> on_schedule w a b ext.
Proof.
  intros Hab H. repeat split.
  - rewrite (stamps_off ext H). exact Hab.
  - eapply Forall_impl; [|exact H]. apply off_schedule_reading.
  - now apply one_ping_each_off.
Qed.

Lemma outside_off_schedule e : outside_loop e -> off_schedule e.
Proof.
  destruct e as [t a r]. unfold outside_loop, off_schedule. cbn.
  destruct a; try tauto; intros H;
    repeat match goal with
           | H : _ \/ _ |- _ => destruct H
           end; subst; discriminate.
Qed.

Lemma emits_off_schedule_detect fuel out :
  emits (detect w fuel out) off_schedule (fun _ => True).
Proof.
  induction fuel as [|fuel IH]; cbn [detect]; [apply emits_running|].
  apply emits_poll; [side_condition | exact I | intros t].
  destruct (pir w t); [|apply emits_ret].
  apply emits_bind; [|intros _; exact IH].
  unfold detection, print, annotate_text, capture_sequence, disk_usage.
  footprint; unfold off_schedule; side_condition.
Qed.

Opaque strftime str_in.

(** One pass through the schedule check.  When it triggers, the pass
    lasts a second at the least. *)
Lemma on_schedule_status_update :
  yields (status_update w) (on_schedule w).
Proof.
  intros s. destruct (status_update w s) as [c s1] eqn:H. cbn [fst snd].
  unfold status_update, print, time_sleep in H.
  unravel;
    repeat match goal with
           | K : trace _ = _ |- _ => rewrite K; clear K
           end;
    rewrite <- ?app_assoc; cbn [app];
    (eexists; split; [reflexivity|]);
    unfold on_schedule, stamps.
  all: repeat match goal with
              | r : reply |- _ => destruct r
              end;
    cbn [confirmation filter map triggers one_ping_each is_send site_eqb
         act answer at_ app];
    repeat match goal with
           | K : str_in _ _ = _ |- _ => rewrite K
           end;
    cbn [confirmation filter map triggers one_ping_each is_send site_eqb
         act answer at_ app chain];
    (split; [lia|split; [repeat constructor|auto]]).
Qed.

Transparent strftime str_in.

(** The schedule is kept throughout a run. *)
Lemma run_on_schedule fuel :
  on_schedule w 0 (now (snd (run w fuel))) (trace (snd (run w fuel))).
Proof.
  apply (run_yields (on_schedule w)).
  - apply on_schedule_nil.
  - apply on_schedule_app.
  - intros a b ext Hab H. apply on_schedule_off; [exact Hab|].
    eapply Forall_impl; [|exact H]. apply outside_off_schedule.
  - apply on_schedule_status_update.
  - intros fuel' out. eapply yields_of_emits.
    + apply emits_off_schedule_detect.
    + intros a b ext Hab H. now apply on_schedule_off.
Qed.

End OnSchedule.

Lemma stamps_cons e ext :
  triggers e = true -> stamps (e :: ext) = at_ e :: stamps ext.
Proof. unfold stamps. cbn. now intros ->. Qed.

(** Two checks that triggered are a second apart, and the later one is a
    second old when the stretch ends. *)
Lemma chain_spaced a b x e1 y e2 z :
  chain a (stamps (x ++ e1 :: y ++ e2 :: z)) b ->
  triggers e1 = true -> triggers e2 = true ->
  (at_ e1 + 1000000 <= at_ e2 /\ at_ e2 + 1000000 <= b)%N.
Proof.
  intros H T1 T2.
  rewrite stamps_app, (stamps_cons e1 _ T1) in H.
  apply chain_app_inv in H as [_ H].
  rewrite stamps_app, (stamps_cons e2 _ T2) in H.
  apply chain_app_inv in H as [H1 H2]. apply chain_le in H2. lia.
Qed.

Lemma filter_one {A} (p : A -> bool) l :
  1 <= List.length (filter p l) ->
  exists y e z, l = (y ++ e :: z)%list /\ p e = true.
Proof.
  induction l as [|a l IH]; cbn; [lia|].
  destruct (p a) eqn:Ha.
  - intros _. now exists [], a, l.
  - intros H. destruct (IH H) as (y & e & z & -> & He).
    now exists (a :: y), e, z.
Qed.

Lemma filter_two {A} (p : A -> bool) l :
  2 <= List.length (filter p l) ->
  exists x e1 y e2 z,
    l = (x ++ e1 :: y ++ e2 :: z)%list /\ p e1 = true /\ p e2 = true.
Proof.
  induction l as [|a l IH]; cbn; [lia|].
  destruct (p a) eqn:Ha.
  - cbn. intros H.
    destruct (filter_one p l) as (y & e & z & -> & He); [lia|].
    now exists [], a, y, e, z.
  - intros H. destruct (IH H) as (x & e1 & y & e2 & z & -> & H1 & H2).
    now exists (a :: x), e1, y, e2, z.
Qed.

Lemma datetime_eqb_eq d1 d2 : datetime_eqb d1 d2 = true -> d1 = d2.
Proof.
  destruct d1, d2. unfold datetime_eqb. cbn.
  rewrite !andb_true_iff, !N.eqb_eq. intuition congruence.
Qed.

(** What a check that triggered on [d] read is the clock at its
    instant. *)
Lemma triggered_at_reading w d e :
  true_reading w e -> triggered_at d e = true ->
  triggers e = true /\ d = wall w (at_ e).
Proof.
  destruct e as [t a r]. unfold true_reading, triggered_at, triggers. cbn.
  destruct a as [|st| | | | | | | | | | | | | | | | |]; try discriminate.
  destruct st; try discriminate.
  destruct r; try discriminate.
  intros -> H. apply andb_true_iff in H as [H1 H2].
  split; [exact H1|]. now apply datetime_eqb_eq.
Qed.

(** A clock that ticks: while the day lasts it shows another second a
    second later. *)
Lemma tick_runs_true d0 horizon :
  (hour d0 * 3600 + minute d0 * 60 + second d0 + horizon / 1000000 < 86400)%N ->
  forall t t',
    (t + 1000000 <= t')%N -> (t' <= horizon)%N -> tick d0 t <> tick d0 t'.
Proof.
  intros Hday t t' Htt Hh E.
  assert (EH : hour (tick d0 t) = hour (tick d0 t')) by congruence.
  assert (EM : minute (tick d0 t) = minute (tick d0 t')) by congruence.
  assert (ES : second (tick d0 t) = second (tick d0 t')) by congruence.
  cbn [tick hour minute second] in EH, EM, ES.
  assert (H1 : (t' / 1000000 <= horizon / 1000000)%N)
    by (apply N.Div0.div_le_mono; exact Hh).
  assert (H2 : (t / 1000000 + 1 <= t' / 1000000)%N).
  { replace (t / 1000000 + 1)%N with ((t + 1 * 1000000) / 1000000)%N
      by (rewrite N.div_add by discriminate; reflexivity).
    apply N.Div0.div_le_mono. lia. }
  set (b := (hour d0 * 3600 + minute d0 * 60 + second d0)%N) in *.
  set (q := (t / 1000000)%N) in *. set (q' := (t' / 1000000)%N) in *.
  clearbody b q q'. clear E Htt Hh.
  zify. Z.to_euclidean_division_equations. lia.
Qed.

(** C8.  In every run: (1) two schedule checks that found the time of
    day in [TIMES] are at least one second of elapsed time apart, because
    the pass that follows such a check sleeps for a second before the
    loop comes back to the check; (2) every scheduled status mail is the
    mail of one such check, and a check has at most one; (3) so, as long
    as the wall clock is not set back or stopped during the run, no
    wall-clock second is found in [TIMES] twice: for every entry of the
    schedule and every second that shows it, at most one check triggers,
    and at most one status mail is sent for it, however often the loop
    polls in a second. *)
Theorem one_ping_per_matching_second (w : World) (fuel : nat) :
  let tr := trace (snd (run w fuel)) in
  (forall x e1 y e2 z,
     tr = (x ++ e1 :: y ++ e2 :: z)%list ->
     triggers e1 = true -> triggers e2 = true ->
     (at_ e1 + 1000000 <= at_ e2)%N) /\
  one_ping_each false tr /\
  (runs_true w (now (snd (run w fuel))) ->
   forall d, count (triggered_at d) tr <= 1).
Proof.
  intros tr.
  destruct (run_on_schedule w fuel) as (Hc & Hr & Hp). fold tr in Hc, Hr, Hp.
  split; [|split; [exact Hp|]].
  - intros x e1 y e2 z E T1 T2. rewrite E in Hc.
    now destruct (chain_spaced _ _ _ _ _ _ _ Hc T1 T2).
  - intros Htrue d.
    destruct (le_lt_dec (count (triggered_at d) tr) 1) as [L|L]; [exact L|].
    exfalso.
    destruct (filter_two (triggered_at d) tr L)
      as (x & e1 & y & e2 & z & E & D1 & D2).
    assert (R1 : true_reading w e1).
    { eapply Forall_forall; [exact Hr|]. rewrite E.
      apply in_or_app. right. now left. }
    assert (R2 : true_reading w e2).
    { eapply Forall_forall; [exact Hr|]. rewrite E.
      apply in_or_app. right. right. apply in_or_app. right. now left. }
    destruct (triggered_at_reading w d e1 R1 D1) as [T1 W1].
    destruct (triggered_at_reading w d e2 R2 D2) as [T2 W2].
    rewrite E in Hc.
    destruct (chain_spaced _ _ _ _ _ _ _ Hc T1 T2) as [S1 S2].
    apply (Htrue (at_ e1) (at_ e2)); [exact S1|lia|congruence].
Qed.

Lemma one_ping_per_matching_second_witness :
  runs_true quiet_world (now (snd (run quiet_world 180))) /\
  stamps (trace (snd (run quiet_world 180))) = [120000000%N] /\
  count (is_send AtUpdate) (trace (snd (run quiet_world 180))) = 1 /\
  forall d, count (triggered_at d) (trace (snd (run quiet_world 180))) <= 1.
Proof.
  assert (H : runs_true quiet_world (now (snd (run quiet_world 180)))).
  { intros t t' H1 H2.
    refine (tick_runs_true (mk_datetime 2024 1 2 8 58 0) _ _ t t' H1 H2).
    vm_compute. reflexivity. }
  split; [exact H|]. split; [vm_compute; reflexivity|].
  split; [vm_compute; reflexivity|].
  exact (proj2 (proj2 (one_ping_per_matching_second quiet_world 180)) H).
Defined.

(** The loop of [quiet_world] looks at the clock four times a second;
    09:00:00 is seen once. *)
Example four_checks_a_second :
  let checks_at d :=
    count (fun e => match act e, answer e with
                    | Now AtSchedule, Clock d' => datetime_eqb d d'
                    | _, _ => false
                    end) (trace (snd (run quiet_world 180))) in
  checks_at (mk_datetime 2024 1 2 8 59 59) = 4 /\
  checks_at (mk_datetime 2024 1 2 9 0 0) = 1 /\
  checks_at (mk_datetime 2024 1 2 9 0 2) = 4.
Proof. vm_compute. repeat split. Qed.

(** Where the condition on the clock ends: set back by a second during
    the sleep, the clock shows 09:00:00 again when the loop comes back to
    the check, a second and three quarters later, and a second status
    mail goes out. *)
Example clock_set_back_fires_twice :
  let tr := trace (snd (run set_back_world 180)) in
  stamps tr = [120000000%N; 121750000%N] /\
  count (triggered_at (mk_datetime 2024 1 2 9 0 0)) tr = 2 /\
  count (is_send AtUpdate) tr = 2.
Proof. vm_compute. repeat split. Qed.

(** * More of the script *)

(** ** Runs, step by step

    A property of stretches of the trace that holds of nothing, survives
    sequencing, holds of each single call outside [send_mail] and of each
    mail with the lines that follow it, holds of every run. *)

Section Steps.

Variable w : World.
Variable T : N -> N -> list entry -> Prop.
Hypothesis T_nil : forall a, T a a [].
Hypothesis T_app :
  forall a b c x y, T a b x -> T b c y -> T a c (x ++ y)%list.
Hypothesis T_step :
  forall a b e,
    (a + hold (act e) <= b)%N -> at_ e = a -> scripted e -> T a b [e].
Hypothesis T_mail :
  forall a b st subject body files r,
    (a <= b)%N -> st <> AtDisarmed ->
    T a b (mk_entry a (SendMail st subject body files) r :: confirmation b r).
Hypothesis T_farewell :
  forall a b c subject body r,
    (a <= b)%N -> (b <= c)%N ->
    T a c (mk_entry a (SendMail AtDisarmed subject body None) r
           :: confirmation b r ++ status_line b r)%list.

Lemma steps_atomic a :
  (forall t, scripted (mk_entry t a Done)) -> hold a = 0%N ->
  yields (atomic w a) T.
Proof.
  intros Hq Hh s. exists [mk_entry (now s) a Done]. split; [reflexivity|].
  apply T_step; [cbn; rewrite Hh; lia|reflexivity|apply Hq].
Qed.

Lemma steps_call {A} a d (ans : N -> result A) show :
  (forall t r, scripted (mk_entry t a r)) -> (hold a <= d)%N ->
  yields (call w a d ans show) T.
Proof.
  intros Hq Hh s. unfold call.
  destruct (ctrl_c w (now s)); [|destruct (ans (now s))];
    eexists [_]; (split; [reflexivity|]);
    (apply T_step; [cbn; lia|reflexivity|apply Hq]).
Qed.

Lemma steps_now st :
  (forall t d, scripted (mk_entry t (Now st) (Clock d))) ->
  yields (datetime_now w st) T.
Proof.
  intros Hq s. eexists [_]. split; [reflexivity|].
  apply T_step; [cbn; lia|reflexivity|apply Hq].
Qed.

Lemma steps_get_armed : yields get_armed T.
Proof. intros s. exists []. cbn. rewrite app_nil_r. auto. Qed.

Lemma steps_attempt st user app_pwd recipient subject body files server port :
  st <> AtDisarmed ->
  yields (except_Exception
            (send_mail w st user app_pwd recipient subject body files
                       server port)) T.
Proof.
  intros Hst s.
  destruct (except_Exception _ s) as [c s1] eqn:H. cbn [fst snd].
  apply attempt_inv in H as (r & Ht & Hn & _).
  eexists. split; [exact Ht|].
  rewrite N.add_0_l, <- Hn. apply T_mail; [lia|exact Hst].
Qed.

(** The disarm mail and the line after it, under one [try]. *)
Lemma steps_farewell user app_pwd recipient subject body server port :
  yields (except_Exception
            (bind (send_mail w AtDisarmed user app_pwd recipient subject body
                             None server port)
                  (fun _ => print w "Status Transmitted"))) T.
Proof.
  intros s.
  unfold except_Exception, bind, send_mail, bind, call, print_transmitted,
    print, atomic.
  destruct (ctrl_c w (now s)).
  - eexists [_]. cbn. split; [reflexivity|].
    apply (T_farewell _ (now s) _ _ _ (Threw KeyboardInterrupt)); lia.
  - destruct (deliver _ _ _ _ _ _) as [m|[x|]] eqn:Hd.
    + eexists [_; _; _]. cbn. rewrite <- !app_assoc. split; [reflexivity|].
      rewrite !N.add_0_r.
      match goal with
      | |- T _ ?c (?e :: mk_entry ?b _ _ :: _) =>
          apply (T_farewell _ b c _ _ (Delivered m)); lia
      end.
    + eexists [_]. cbn. split; [reflexivity|].
      apply (T_farewell _ (now s) _ _ _ (Threw (Exception_ x))); lia.
    + eexists [_]. cbn. split; [reflexivity|].
      apply (T_farewell _ (now s) _ _ _ (Threw KeyboardInterrupt)); lia.
Qed.

Ltac stepping_step :=
  cbv beta zeta;
  lazymatch goal with
  | |- yields (ret _) _ => apply yields_ret
  | |- yields running _ => apply yields_running
  | |- yields (raise _) _ => apply yields_raise
  | |- yields get_armed _ => apply steps_get_armed
  | |- yields (set_armed _) _ => apply yields_set_armed
  | |- yields (atomic _ _) _ => apply steps_atomic
  | |- yields (call _ _ _ _ _) _ => apply steps_call
  | |- yields (datetime_now _ _) _ => apply steps_now
  | |- yields (except_Exception (send_mail _ _ _ _ _ _ _ _ _ _)) _ =>
      apply steps_attempt
  | |- yields (except_Exception (bind (send_mail _ _ _ _ _ _ _ _ _ _) _)) _ =>
      apply steps_farewell
  | |- yields (bind _ _) _ => apply yields_bind
  | |- yields (if ?b then _ else _) _ => destruct b
  | |- forall _ : _, yields _ _ => intro
  end.

Ltac stepping :=
  repeat stepping_step;
  try assumption;
  try solve [ intros; split; reflexivity
            | reflexivity
            | discriminate
            | cbn [hold]; lia ].

Lemma steps_setup : yields (setup w) T.
Proof. unfold setup, print, PiCamera, time_sleep. stepping. Qed.

Lemma steps_datetime_check fuel : yields (datetime_check w fuel) T.
Proof.
  induction fuel as [|fuel IH]; cbn [datetime_check]; [stepping|].
  unfold input, print. stepping.
Qed.

Lemma steps_checks fuel : yields (checks w fuel) T.
Proof.
  unfold checks, check_output, print.
  stepping; apply steps_datetime_check.
Qed.

Lemma steps_preparation out : yields (preparation w out) T.
Proof.
  unfold preparation, mkdir, start_preview, stop_preview, annotate_text,
    time_sleep.
  stepping.
Qed.

Lemma steps_arming_delay : yields (arming_delay w) T.
Proof. unfold arming_delay, print, time_sleep. stepping. Qed.

Lemma steps_announce : yields (announce w) T.
Proof. unfold announce, print. stepping. Qed.

Lemma steps_status_update : yields (status_update w) T.
Proof. unfold status_update, print, time_sleep. stepping. Qed.

Lemma steps_detection out : yields (detection w out) T.
Proof.
  unfold detection, print, annotate_text, capture_sequence, disk_usage.
  stepping.
Qed.

Lemma steps_detect fuel out : yields (detect w fuel out) T.
Proof.
  induction fuel as [|fuel IH]; cbn [detect]; [stepping|].
  unfold GPIO_input. stepping. apply steps_detection.
Qed.

Lemma steps_monitor fuel out : yields (monitor w fuel out) T.
Proof.
  induction fuel as [|fuel IH]; cbn [monitor]; [stepping|].
  stepping; [apply steps_status_update|apply steps_detect].
Qed.

Lemma steps_suite fuel : yields (suite w fuel) T.
Proof.
  unfold suite.
  stepping;
    [apply steps_checks|apply steps_preparation|apply steps_arming_delay
    |apply steps_announce|apply steps_monitor].
Qed.

Lemma steps_teardown : yields (teardown w) T.
Proof. unfold teardown, print. stepping. Qed.

Lemma steps_script fuel : yields (script w fuel) T.
Proof.
  unfold script, system.
  apply yields_bind; try assumption; [apply steps_setup|intros _].
  apply yields_try_finally; try assumption; [|apply steps_teardown].
  apply yields_except_both, steps_suite.
Qed.

(** The same, read on the trace of a run. *)
Lemma run_steps fuel :
  T 0 (now (snd (run w fuel))) (trace (snd (run w fuel))).
Proof.
  destruct (steps_script fuel boot) as (ext & Hx & Tx).
  unfold run. cbn [boot trace app] in Hx. rewrite Hx. exact Tx.
Qed.

End Steps.

(** ** The lines printed after a mail *)

Lemma pairs_ind {A} (P : list A -> Prop) :
  P [] -> (forall e, P [e]) ->
  (forall e p x, P x -> P (p :: x) -> P (e :: p :: x)) ->
  forall l, P l.
Proof.
  intros H0 H1 H2 l.
  assert (H : P l /\ forall e, P (e :: l)); [|exact (proj1 H)].
  induction l as [|p x [IH1 IH2]]; [now split|].
  split; [apply IH2|]. intros e. apply H2; [exact IH1|apply IH2].
Qed.

Lemma confirmed_app x y : confirmed x -> confirmed y -> confirmed (x ++ y).
Proof.
  induction x as [|e|e p x IH1 IH2] using pairs_ind; cbn [app confirmed].
  - auto.
  - destruct (delivered e); [intros []|]. intros [H _] Hy. auto.
  - destruct (delivered e).
    + intros [H1 H2] Hy. split; [exact H1|]. apply IH1; assumption.
    + intros [H1 H2] Hy. split; [exact H1|]. apply IH2; assumption.
Qed.

Lemma delivered_not_print text e :
  delivered e = true -> is_print text e = false.
Proof.
  destruct e as [t a r]. unfold delivered, is_print. cbn.
  destruct a; try discriminate. reflexivity.
Qed.

(** After a delivered mail comes the line. *)
Lemma confirmed_after x e y :
  confirmed (x ++ e :: y) -> delivered e = true ->
  exists p y', y = p :: y' /\ is_print "Transmitted" p = true.
Proof.
  induction x as [|e0|e0 p x IH1 IH2] using pairs_ind; cbn [app confirmed].
  - intros H He. rewrite He in H. destruct y as [|p y']; [destruct H|].
    exists p, y'. now split.
  - intros H He. destruct (delivered e0).
    + destruct H as [H _].
      rewrite (delivered_not_print _ e He) in H. discriminate H.
    + destruct H as [_ H]. rewrite He in H.
      destruct y as [|p y']; [destruct H|]. exists p, y'. now split.
  - intros H He. destruct (delivered e0).
    + destruct H as [_ H]. apply (IH1 H He).
    + destruct H as [_ H]. apply (IH2 H He).
Qed.

(** Before the line comes a delivered mail. *)
Lemma confirmed_before x p y :
  confirmed (x ++ p :: y) -> is_print "Transmitted" p = true ->
  exists x' e, x = (x' ++ [e])%list /\ delivered e = true.
Proof.
  induction x as [|e0|e0 q x IH1 IH2] using pairs_ind; cbn [app confirmed].
  - intros H Hp. destruct (delivered p) eqn:D.
    + rewrite (delivered_not_print _ p D) in Hp. discriminate Hp.
    + destruct H as [H _]. rewrite Hp in H. discriminate H.
  - intros H Hp. destruct (delivered e0) eqn:D.
    + exists [], e0. now split.
    + destruct H as [_ H]. destruct (delivered p) eqn:Dp.
      * rewrite (delivered_not_print _ p Dp) in Hp. discriminate Hp.
      * destruct H as [H _]. rewrite Hp in H. discriminate H.
  - intros H Hp. destruct (delivered e0) eqn:D.
    + destruct H as [_ H]. destruct (IH1 H Hp) as (x' & e & -> & He).
      exists (e0 :: q :: x'), e. now split.
    + destruct H as [_ H]. destruct (IH2 H Hp) as (x' & e & E & He).
      exists (e0 :: x'), e. cbn. rewrite <- E. now split.
Qed.

Lemma confirmed_count ext :
  confirmed ext -> count (is_print "Transmitted") ext = count delivered ext.
Proof.
  unfold count.
  induction ext as [|e|e p x IH1 IH2] using pairs_ind; cbn [confirmed].
  - reflexivity.
  - cbn. destruct (delivered e); [intros []|].
    intros [-> _]. reflexivity.
  - cbn [filter]. destruct (delivered e) eqn:D.
    + intros [H1 H2]. rewrite (delivered_not_print _ e D), H1.
      destruct (delivered p) eqn:Dp;
        [rewrite (delivered_not_print _ p Dp) in H1; discriminate H1|].
      cbn [List.length]. rewrite (IH1 H2). reflexivity.
    + intros [H1 H2]. rewrite H1. apply IH2. exact H2.
Qed.

Section Truthful.

Variable w : World.

Lemma run_truthful fuel :
  truthful 0 (now (snd (run w fuel))) (trace (snd (run w fuel))).
Proof.
  apply (run_steps w truthful).
  - intros a. split; [exact I|reflexivity].
  - intros a b c x y [H1 H2] [K1 K2]. split.
    + now apply confirmed_app.
    + rewrite !count_app. congruence.
  - intros a b [t k r] _ _ [Hm Hc]. unfold is_mail, is_confirmation in *.
    cbn in *. apply orb_false_iff in Hc as [Hc1 Hc2].
    split.
    + cbn. unfold delivered. cbn.
      destruct k; try discriminate Hm; cbn; auto.
    + unfold count, farewell_delivered, is_send, is_print. cbn.
      destruct k; try discriminate Hm; cbn; try reflexivity.
      unfold is_print in Hc2. cbn in Hc2. now rewrite Hc2.
  - intros a b st subject body files r _ Hst. split.
    + destruct r; cbn; auto.
    + unfold count, farewell_delivered, delivered.
      destruct r; cbn; destruct st; try reflexivity; now contradiction Hst.
  - intros a b c subject body r _ _. split.
    + destruct r; cbn; auto.
    + unfold count, farewell_delivered, delivered. destruct r; reflexivity.
Qed.

End Truthful.

(** X1.  What the console says about the mails is true.  In every run
    the line Transmitted is printed right after each mail that was
    delivered and nowhere else: a mail that failed, or that Ctrl+C
    interrupted, is followed by no such line.  The line Status
    Transmitted is printed once for a disarm mail that was delivered and
    not otherwise.  (A [print] is taken not to be interrupted.) *)
Theorem console_is_truthful (w : World) (fuel : nat) :
  let tr := trace (snd (run w fuel)) in
  (forall x e y,
     tr = (x ++ e :: y)%list -> delivered e = true ->
     exists p y', y = p :: y' /\ is_print "Transmitted" p = true) /\
  (forall x p y,
     tr = (x ++ p :: y)%list -> is_print "Transmitted" p = true ->
     exists x' e, x = (x' ++ [e])%list /\ delivered e = true) /\
  count (is_print "Transmitted") tr = count delivered tr /\
  count (is_print "Status Transmitted") tr = count farewell_delivered tr.
Proof.
  intros tr. destruct (run_truthful w fuel) as [Hc Hs]. fold tr in Hc, Hs.
  split; [|split; [|split]].
  - intros x e y E. rewrite E in Hc. now apply (confirmed_after x e y).
  - intros x p y E. rewrite E in Hc. now apply (confirmed_before x p y).
  - now apply confirmed_count.
  - exact Hs.
Qed.

(** With a network that delivers, the armed mail and the disarm mail of
    this run: two lines Transmitted and one Status Transmitted; with a
    server that cannot be reached, three mails and no line at all. *)
Example console_lines :
  (count delivered (trace (snd (run dead_camera_world 30))) = 2 /\
   count (is_print "Transmitted") (trace (snd (run dead_camera_world 30))) = 2 /\
   count (is_print "Status Transmitted")
         (trace (snd (run dead_camera_world 30))) = 1) /\
  (count is_mail (trace (snd (run full_disk_world 30))) = 3 /\
   count (is_print "Transmitted") (trace (snd (run full_disk_world 30))) = 0 /\
   count (is_print "Status Transmitted")
         (trace (snd (run full_disk_world 30))) = 0).
Proof. vm_compute. repeat split. Qed.

(** ** The arming delay *)

Lemma chrono_le a ext b : chrono a ext b -> (a <= b)%N.
Proof.
  revert a. induction ext as [|e ext IH]; intros a; cbn; [auto|].
  intros [H1 H2]. apply IH in H2. lia.
Qed.

Lemma chrono_weaken a a' ext b :
  (a' <= a)%N -> chrono a ext b -> chrono a' ext b.
Proof.
  destruct ext as [|e ext]; cbn; intros H; [lia|].
  intros [H1 H2]. split; [lia|exact H2].
Qed.

Lemma chrono_app a x b y c :
  chrono a x b -> chrono b y c -> chrono a (x ++ y) c.
Proof.
  revert a. induction x as [|e x IH]; intros a; cbn.
  - intros H. now apply chrono_weaken.
  - intros [H1 H2] H3. split; [exact H1|]. now apply IH.
Qed.

Lemma chrono_app_inv a x e y b :
  chrono a (x ++ e :: y) b ->
  (a <= at_ e)%N /\ chrono (at_ e + hold (act e)) y b.
Proof.
  revert a. induction x as [|e0 x IH]; intros a; cbn.
  - auto.
  - intros [H1 H2]. apply IH in H2 as [H2 H3]. split; [lia|exact H3].
Qed.

(** Calls are logged in the order of their instants, and a call made
    after a [time.sleep(n)] is made [n] seconds later at the least. *)
Lemma chrono_apart a x e1 y e2 z b :
  chrono a (x ++ e1 :: y ++ e2 :: z) b ->
  (at_ e1 + hold (act e1) <= at_ e2)%N.
Proof.
  intros H. apply chrono_app_inv in H as [_ H].
  apply chrono_app_inv in H as [H _]. exact H.
Qed.

Section Chronology.

Variable w : World.

Lemma run_chrono fuel :
  chrono 0 (trace (snd (run w fuel))) (now (snd (run w fuel))).
Proof.
  apply (run_steps w (fun a b ext => chrono a ext b)).
  - intros a. cbn. lia.
  - intros a b c x y. apply chrono_app.
  - intros a b e H <- _. cbn. split; [lia|exact H].
  - intros a b st subject body files r H _.
    destruct r; cbn; repeat split; lia.
  - intros a b c subject body r H1 H2.
    destruct r; cbn; repeat split; lia.
Qed.

Opaque strftime sequence.

(** Once [armed] is true the arming delay is behind: the trace of the
    suite has the call of [time.sleep(60)], returned, before anything of
    the armed phase. *)
Lemma suite_slept fuel s c s1 :
  suite w fuel s = (c, s1) -> armed s1 = true ->
  exists tr0 t tr1,
    trace s1 = (trace s ++ tr0 ++ mk_entry t (Sleep 60) Done :: tr1)%list /\
    Forall disarmed_entry tr0 /\
    Forall (armed_entry w out_directory) tr1.
Proof.
  intros H Ha. unfold suite in H.
  apply bind_inv in H as [(? & s0 & H0 & H)|[(? & H0 & _)|(H0 & _)]];
    [|discriminate H0..].
  injection H0 as _ <-.
  set (s0 := {| now := now s; armed := false; trace := trace s |}) in *.
  assert (E0 : trace s0 = trace s) by reflexivity.
  assert (A0 : armed s0 = false) by reflexivity.
  clearbody s0. rewrite <- E0. clear E0 s.
  apply bind_inv in H as [(? & sa & Ea & H)|[(? & Ea & _)|(Ea & _)]];
    destruct (emits_inv _ _ _ _ _ _ (emits_checks w fuel) Ea)
      as (ta & Hta & Hpa & Haa & _);
    [|congruence..].
  cbv zeta in H.
  apply bind_inv in H as [(? & sb & Eb & H)|[(? & Eb & _)|(Eb & _)]];
    destruct (emits_inv _ _ _ _ _ _ (emits_preparation w _) Eb)
      as (tb & Htb & Hpb & Hab & _);
    [|congruence..].
  apply bind_inv in H as [(? & sc & Ec & H)|[(? & Ec & _)|(Ec & _)]];
    destruct (emits_inv _ _ _ _ _ _ (emits_arming_delay w) Ec)
      as (tc & Htc & Hpc & Hac & _);
    [|congruence..].
  clear Htc. revert H.
  match type of Ec with _ = (?k, _) => remember k as cc eqn:Ecc in Ec end.
  unfold arming_delay, print, time_sleep in Ec.
  unravel; try (exfalso; congruence). intros Hrest.
  match goal with
  | K1 : trace sc = _, K2 : trace ?x = (trace sb ++ _)%list |- _ =>
      rewrite K2 in K1; rename K1 into Hsc
  end.
  apply bind_inv in Hrest
    as [(? & sd & Ed & Hrest)|[(? & Ed & _)|(Ed & _)]];
    [|discriminate Ed..].
  injection Ed as _ <-.
  set (sd := {| now := now sc; armed := true; trace := trace sc |}) in *.
  assert (Ed : trace sd = trace sc) by reflexivity.
  clearbody sd.
  assert (Hm : exists tm, trace s1 = (trace sd ++ tm)%list /\
                          Forall (armed_entry w out_directory) tm).
  { apply bind_inv in Hrest
      as [(? & se & Ee & Hrest)|[(? & Ee & _)|(Ee & _)]];
      destruct (emits_inv _ _ _ _ _ _ (emits_announce w out_directory) Ee)
        as (te & Hte & Hpe & _);
      [|exists te; split; assumption..].
    destruct (emits_inv _ _ _ _ _ _ (emits_monitor w fuel out_directory)
                Hrest) as (tm & Htm & Hpm & _).
    exists (te ++ tm)%list. rewrite Htm, Hte, app_assoc.
    split; [reflexivity|]. apply Forall_app; split; assumption. }
  destruct Hm as (tm & Htm & Hpm).
  eexists (ta ++ tb ++ [_])%list, _, tm.
  rewrite Htm, Ed, Hsc, Htb, Hta, <- !app_assoc. cbn [app].
  split; [reflexivity|]. split; [|exact Hpm].
  repeat (apply Forall_app; split); auto.
  repeat constructor. cbn. discriminate.
Qed.

Transparent strftime sequence.

End Chronology.

Lemma setup_entry_not_armed e : setup_entry e -> is_armed_call e = false.
Proof.
  destruct e as [t a r]. unfold setup_entry, is_armed_call. cbn.
  destruct a; tauto.
Qed.

Lemma disarmed_entry_not_armed e :
  disarmed_entry e -> is_armed_call e = false.
Proof.
  destruct e as [t a r]. unfold disarmed_entry, is_armed_call. cbn.
  destruct a; try tauto; intros ->; reflexivity.
Qed.

Lemma final_entry_not_armed e : final_entry e -> is_armed_call e = false.
Proof.
  destruct e as [t a r]. unfold final_entry, farewell_entry, is_armed_call.
  cbn. destruct a; try tauto.
  - intros [-> | ->]; reflexivity.
  - intros [-> _]. reflexivity.
Qed.

Lemma not_armed_here (P : entry -> Prop) e l :
  (forall e, P e -> is_armed_call e = false) ->
  Forall P l -> In e l -> is_armed_call e = true -> False.
Proof.
  intros HP Hl Hin He. rewrite Forall_forall in Hl.
  rewrite (HP e (Hl e Hin)) in He. discriminate He.
Qed.

(** X2.  Nothing of the armed phase happens before the arming delay is
    over.  Every call of the armed phase in the trace of a run -- the
    clock read of the ARMED line, a schedule check, a poll of the PIR
    pin, a caption, a capture, a look at the free space, a mail other
    than the disarm mail -- comes after the call of [time.sleep(60)],
    and at least 60 seconds after that call was made. *)
Theorem armed_calls_wait (w : World) (fuel : nat) (i : nat) (e : entry) :
  nth_error (trace (snd (run w fuel))) i = Some e ->
  is_armed_call e = true ->
  exists x t y z,
    trace (snd (run w fuel))
    = (x ++ mk_entry t (Sleep 60) Done :: y ++ e :: z)%list /\
    (t + 60000000 <= at_ e)%N.
Proof.
  intros Hi He. apply nth_error_In in Hi.
  assert (Hs : exists pre tr0 t tr1 fin,
             trace (snd (run w fuel))
             = (pre ++ tr0 ++ mk_entry t (Sleep 60) Done :: tr1 ++ fin)%list /\
             In e tr1).
  { destruct (run_cases w fuel)
      as [(e0 & s0 & Hs & Hr)|(s0 & Hs & [(s1 & Hx & Hr)|(e0 & s1 & Hx & Hr)])];
      destruct (setup_trace w _ _ _ Hs) as (pre & Hpre & Fpre & Apre);
      cbn [boot trace app] in Hpre.
    - exfalso. rewrite Hr in Hi. cbn [snd] in Hi. rewrite Hpre in Hi.
      exact (not_armed_here _ e pre setup_entry_not_armed Fpre Hi He).
    - rewrite Hr in *. cbn [snd] in *.
      destruct (armed s1) eqn:Ha.
      + destruct (suite_slept w fuel s0 _ s1 Hx Ha)
          as (tr0 & t & tr1 & Htr & F0 & F1).
        exists pre, tr0, t, tr1, []. rewrite app_nil_r, Htr, Hpre.
        split; [reflexivity|].
        rewrite Htr, Hpre in Hi.
        apply in_app_or in Hi as [Hi|Hi];
          [exfalso; exact (not_armed_here _ e pre setup_entry_not_armed
                             Fpre Hi He)|].
        apply in_app_or in Hi as [Hi|[<-|Hi]];
          [exfalso; exact (not_armed_here _ e tr0 disarmed_entry_not_armed
                             F0 Hi He)
          |discriminate He|exact Hi].
      + exfalso.
        destruct (suite_outcome w fuel s0 _ s1 Hx)
          as (tr0 & tr1 & Htr & F0 & _ & _ & Hexc).
        rewrite Ha in Hexc. destruct Hexc as [-> _].
        rewrite Htr, Hpre, app_nil_r in Hi.
        apply in_app_or in Hi as [Hi|Hi].
        * exact (not_armed_here _ e pre setup_entry_not_armed Fpre Hi He).
        * exact (not_armed_here _ e tr0 disarmed_entry_not_armed F0 Hi He).
    - destruct (teardown_spec w s1) as (t1 & t2 & tl & Htl & Ftl & _).
      rewrite Hr in *.
      set (fin := mk_entry t1 CameraClose Done
                  :: mk_entry t2 GpioCleanup Done :: tl) in *.
      assert (Ffin : Forall final_entry fin).
      { repeat (apply Forall_cons; [exact I|]).
        eapply Forall_impl; [|exact Ftl].
        intros [t a r]; destruct a; cbn; tauto. }
      clearbody fin.
      destruct (armed s1) eqn:Ha.
      + destruct (suite_slept w fuel s0 _ s1 Hx Ha)
          as (tr0 & t & tr1 & Htr & F0 & F1).
        exists pre, tr0, t, tr1, fin.
        rewrite Htl, Htr, Hpre, <- !app_assoc. cbn [app].
        split; [reflexivity|].
        rewrite Htl, Htr, Hpre, <- !app_assoc in Hi. cbn [app] in Hi.
        apply in_app_or in Hi as [Hi|Hi];
          [exfalso; exact (not_armed_here _ e pre setup_entry_not_armed
                             Fpre Hi He)|].
        apply in_app_or in Hi as [Hi|[<-|Hi]];
          [exfalso; exact (not_armed_here _ e tr0 disarmed_entry_not_armed
                             F0 Hi He)
          |discriminate He|].
        apply in_app_or in Hi as [Hi|Hi]; [exact Hi|].
        exfalso. exact (not_armed_here _ e fin final_entry_not_armed
                          Ffin Hi He).
      + exfalso.
        destruct (suite_outcome w fuel s0 _ s1 Hx)
          as (tr0 & tr1 & Htr & F0 & _ & _ & Hexc).
        rewrite Ha in Hexc. destruct Hexc as [-> _].
        rewrite Htl, Htr, Hpre, app_nil_r in Hi.
        apply in_app_or in Hi as [Hi|Hi];
          [|exact (not_armed_here _ e fin final_entry_not_armed Ffin Hi He)].
        apply in_app_or in Hi as [Hi|Hi].
        * exact (not_armed_here _ e pre setup_entry_not_armed Fpre Hi He).
        * exact (not_armed_here _ e tr0 disarmed_entry_not_armed F0 Hi He). }
  destruct Hs as (pre & tr0 & t & tr1 & fin & Htr & Hin).
  apply in_split in Hin as (u & v & ->).
  exists (pre ++ tr0)%list, t, u, (v ++ fin)%list.
  assert (E : trace (snd (run w fuel))
              = ((pre ++ tr0) ++ mk_entry t (Sleep 60) Done
                   :: u ++ e :: v ++ fin)%list)
    by (rewrite Htr, <- !app_assoc; cbn [app]; reflexivity).
  split; [exact E|].
  pose proof (run_chrono w fuel) as Hc. rewrite E in Hc.
  apply chrono_apart in Hc. exact Hc.
Qed.

Lemma armed_calls_wait_witness :
  let e := mk_entry 80500000 (GpioInput 4) (Level false) in
  nth_error (trace (snd (run quiet_world 30))) 21 = Some e /\
  is_armed_call e = true /\
  exists x t y z,
    trace (snd (run quiet_world 30))
    = (x ++ mk_entry t (Sleep 60) Done :: y ++ e :: z)%list /\
    (t + 60000000 <= at_ e)%N.
Proof.
  intros e.
  assert (H : nth_error (trace (snd (run quiet_world 30))) 21 = Some e)
    by (vm_compute; reflexivity).
  assert (He : is_armed_call e = true) by reflexivity.
  split; [exact H|]. split; [exact He|].
  exact (armed_calls_wait quiet_world 30 21 e H He).
Defined.

(** ** Before the [try] statement *)

(** X3.  An exception in the lines before the [try] statement is not
    caught and the [finally] suite does not run.  When [PiCamera()]
    raises, or Ctrl+C arrives during it or during the [time.sleep(2)]
    that follows, the run ends at once with that exception: the banner
    is printed and the PIR pin set up, and nothing releases the pin or
    closes the camera, no farewell is printed and no mail is sent.
    (The calls of [GPIO.setmode] and [GPIO.setup] and the setting of the
    rotation are taken to return.) *)
Theorem setup_failure_skips_finally (w : World) (fuel : nat) (e : exc)
    (s : State) :
  setup w boot = (Raised e, s) ->
  run w fuel = (Raised e, s) /\
  setup_exc e /\
  ((exists t1 t2 t3,
      trace s = [mk_entry 0 (Print ("PiREye" ++ nl ++ nl ++ "Ctrl+C to abort"))
                          Done;
                 mk_entry t1 GpioSetmode Done;
                 mk_entry t2 (GpioSetup GPIO_PIR) Done;
                 mk_entry t3 PiCamera_ (Threw e)]) \/
   (e = KeyboardInterrupt /\
    exists t1 t2 t3 t4 t5,
      trace s = [mk_entry 0 (Print ("PiREye" ++ nl ++ nl ++ "Ctrl+C to abort"))
                          Done;
                 mk_entry t1 GpioSetmode Done;
                 mk_entry t2 (GpioSetup GPIO_PIR) Done;
                 mk_entry t3 PiCamera_ Done;
                 mk_entry t4 (SetRotation 180) Done;
                 mk_entry t5 (Sleep 2) (Threw KeyboardInterrupt)])).
Proof.
  intros H. split.
  - unfold run, script, bind. rewrite H. reflexivity.
  - unfold setup, bind, print, atomic in H.
    destruct (PiCamera w _) as [[[]|e4|] s4] eqn:E4;
      unfold PiCamera in E4; apply call_inv in E4 as (r4 & T4 & _ & C4).
    + destruct (time_sleep w 2 _) as [[[]|e6|] s6] eqn:E6;
        unfold time_sleep in E6; apply call_inv in E6 as (r6 & T6 & _ & C6);
        try discriminate H.
      injection H as <- <-.
      destruct C6 as [[C6 ->]|[(v & C6 & _)|(e6' & C6 & C6' & _)]];
        try discriminate; injection C6 as ->.
      split; [now left|]. right. split; [reflexivity|].
      rewrite T6. cbn [log trace now boot app]. rewrite T4.
      destruct C4 as [[C4 _]|[(v & _ & _ & ->)|(e4' & C4 & _)]];
        try discriminate C4.
      cbn [log trace now boot app]. do 5 eexists. reflexivity.
    + injection H as <- <-.
      destruct C4 as [[C4 ->]|[(v & C4 & _)|(e4' & C4 & C4' & ->)]];
        try discriminate C4; injection C4 as ->;
        rewrite T4; cbn [log trace now boot app].
      * split; [now left|]. left. do 3 eexists. reflexivity.
      * unfold guard in C4'. destruct (camera_present w _); [discriminate C4'|].
        injection C4' as <-.
        split; [now right|]. left. do 3 eexists. reflexivity.
    + discriminate H.
Qed.

Lemma setup_failure_skips_finally_witness :
  setup no_camera_world boot
  = (Raised (Exception_ PiCameraError), snd (setup no_camera_world boot)) /\
  fst (run no_camera_world 30) = Raised (Exception_ PiCameraError) /\
  count is_cleanup (trace (snd (run no_camera_world 30))) = 0.
Proof.
  assert (H : setup no_camera_world boot
              = (Raised (Exception_ PiCameraError),
                 snd (setup no_camera_world boot))) by reflexivity.
  split; [exact H|].
  rewrite (proj1 (setup_failure_skips_finally no_camera_world 30 _ _ H)).
  split; reflexivity.
Defined.


(** ** The checks *)

Lemma lower_ascii_y c :
  lower_ascii c = "y"%char -> c = "y"%char \/ c = "Y"%char.
Proof.
  destruct c as [[] [] [] [] [] [] [] []]; vm_compute; intros H;
    try discriminate H; auto.
Qed.

Lemma lower_ascii_n c :
  lower_ascii c = "n"%char -> c = "n"%char \/ c = "N"%char.
Proof.
  destruct c as [[] [] [] [] [] [] [] []]; vm_compute; intros H;
    try discriminate H; auto.
Qed.

Lemma lower_y line : lower line = "y" <-> line = "y" \/ line = "Y".
Proof.
  split; [|intros [-> | ->]; reflexivity].
  destruct line as [|c [|c' l]]; cbn [lower]; intros H; try discriminate H.
  injection H as H. apply lower_ascii_y in H as [-> | ->]; auto.
Qed.

Lemma lower_n line : lower line = "n" <-> line = "n" \/ line = "N".
Proof.
  split; [|intros [-> | ->]; reflexivity].
  destruct line as [|c [|c' l]]; cbn [lower]; intros H; try discriminate H.
  injection H as H. apply lower_ascii_n in H as [-> | ->]; auto.
Qed.

(** The answers the datetime check takes: y and n, in either case, and
    nothing around them. *)
Lemma yes_or_no_iff line :
  yes_or_no line = true <->
  (line = "y" \/ line = "Y") \/ (line = "n" \/ line = "N").
Proof.
  unfold yes_or_no, str_in. cbn [existsb].
  rewrite orb_false_r, orb_true_iff, !String.eqb_eq, lower_y, lower_n.
  reflexivity.
Qed.

Lemma yes_or_no_not line :
  yes_or_no line = false -> ~ In line ["y"; "Y"; "n"; "N"].
Proof.
  intros H Hin.
  assert (K : yes_or_no line = true)
    by (apply yes_or_no_iff; cbn in Hin; intuition).
  rewrite K in H. discriminate H.
Qed.

Section Checks.

Variable w : World.

Opaque strftime.

Lemma datetime_check_returned fuel :
  forall s data s1,
    datetime_check w fuel s = (Normal data, s1) ->
    exists rounds t t' line,
      trace s1
      = (trace s ++ flat_map (turned_down w) rounds ++ asked w t t' line)%list /\
      Forall (fun q => yes_or_no (line_of q) = false) rounds /\
      yes_or_no line = true /\ data = lower line.
Proof.
  induction fuel as [|fuel IH]; intros s data s1; cbn [datetime_check];
    [discriminate|].
  unfold bind at 1. unfold datetime_now.
  unfold bind at 1. unfold input, call. cbn [now log trace].
  destruct (ctrl_c w _); [discriminate|].
  destruct (keyboard w _) as [line|]; [|discriminate].
  fold (yes_or_no line). destruct (yes_or_no line) eqn:Hyn; cbn [negb].
  - intros [= <- <-]. eexists [], (now s), _, line.
    cbn [flat_map app asked trace log]. rewrite <- app_assoc.
    repeat split; auto.
  - unfold bind at 1, print, atomic. intros H.
    apply IH in H as (rounds & t & t' & l & Htr & Hf & Hy & Hd).
    eexists ((now s, _, line, _) :: rounds), t, t', l.
    rewrite Htr. cbn [flat_map turned_down asked log trace now].
    rewrite <- !app_assoc. cbn [app].
    repeat split; auto.
Qed.

Lemma checks_passed fuel s s1 :
  checks w fuel s = (Normal tt, s1) ->
  exists out rounds t t' line,
    trace s1
    = (trace s ++ mk_entry (now s) (CheckOutput "ifconfig") (Said out)
               :: flat_map (turned_down w) rounds ++ asked w t t' line)%list /\
    contains "wlan0:" out = false /\
    Forall (fun q => yes_or_no (line_of q) = false) rounds /\
    (line = "y" \/ line = "Y").
Proof.
  unfold checks. unfold bind at 1. unfold check_output, call.
  destruct (ctrl_c w _); [discriminate|].
  destruct (ifconfig w _) as [out|]; [|discriminate].
  unfold bind at 1.
  destruct (contains "wlan0:" out) eqn:Hout.
  { unfold bind at 1, print, atomic, raise. discriminate. }
  unfold ret at 1. unfold bind at 1.
  destruct (datetime_check w fuel _) as [[data|e|] sa] eqn:Hd;
    [|discriminate..].
  apply datetime_check_returned in Hd
    as (rounds & t & t' & line & Htr & Hf & Hy & ->).
  destruct (String.eqb (lower line) "n") eqn:Hn.
  { unfold bind at 1, print, atomic, raise. discriminate. }
  intros [= <-].
  exists out, rounds, t, t', line. rewrite Htr. cbn [log trace].
  rewrite <- app_assoc. cbn [app].
  repeat split; auto.
  apply yes_or_no_iff in Hy as [Hy|Hy]; [exact Hy|].
  apply lower_n in Hy. apply String.eqb_neq in Hn. contradiction.
Qed.

Transparent strftime.

End Checks.

(** X4.  The datetime prompt is put again until the line typed is y or
    n, in either case and with nothing around it.  When the loop ends,
    the trace shows the questions in order, each with the reading of
    the clock it was made from and each but the last followed by the
    line Invalid input; the lines turned down were none of y, Y, n, N,
    and the value handed on is y for y or Y and n for n or N. *)
Theorem prompt_repeats_until_y_or_n (w : World) (fuel : nat) (s : State)
    (data : string) (s1 : State) :
  datetime_check w fuel s = (Normal data, s1) ->
  exists rounds t t' line,
    trace s1
    = (trace s ++ flat_map (turned_down w) rounds ++ asked w t t' line)%list /\
    Forall (fun q => ~ In (line_of q) ["y"; "Y"; "n"; "N"]) rounds /\
    (((line = "y" \/ line = "Y") /\ data = "y") \/
     ((line = "n" \/ line = "N") /\ data = "n")).
Proof.
  intros H.
  apply datetime_check_returned in H
    as (rounds & t & t' & line & Htr & Hf & Hy & ->).
  exists rounds, t, t', line. split; [exact Htr|]. split.
  - eapply Forall_impl; [|exact Hf]. intros q. apply yes_or_no_not.
  - apply yes_or_no_iff in Hy as [Hy|Hy]; [left|right]; split; auto.
    + now apply lower_y.
    + now apply lower_n.
Qed.

Lemma prompt_repeats_until_y_or_n_witness :
  datetime_check hesitant_world 5 boot
  = (Normal "y", snd (datetime_check hesitant_world 5 boot)) /\
  map answer (filter (fun e => match act e with Input _ => true | _ => false end)
                     (trace (snd (datetime_check hesitant_world 5 boot))))
  = [Said "yes"; Said "yes"; Said "Y"] /\
  exists rounds t t' line,
    trace (snd (datetime_check hesitant_world 5 boot))
    = (trace boot ++ flat_map (turned_down hesitant_world) rounds
                  ++ asked hesitant_world t t' line)%list /\
    Forall (fun q => ~ In (line_of q) ["y"; "Y"; "n"; "N"]) rounds /\
    (((line = "y" \/ line = "Y") /\ "y" = "y") \/
     ((line = "n" \/ line = "N") /\ "y" = "n")).
Proof.
  assert (H : datetime_check hesitant_world 5 boot
              = (Normal "y", snd (datetime_check hesitant_world 5 boot)))
    by (vm_compute; reflexivity).
  split; [exact H|]. split; [vm_compute; reflexivity|].
  exact (prompt_repeats_until_y_or_n hesitant_world 5 boot "y" _ H).
Defined.

(** *** The way to arming *)

Section Arming.

Variable w : World.

Lemma call_done a hold (ans : N -> result unit) s c s1 :
  call w a hold ans (fun _ => Done) s = (Normal c, s1) ->
  trace s1 = (trace s ++ [mk_entry (now s) a Done])%list.
Proof.
  intros H. apply call_inv in H as (r & Htr & _ & [(K & _)|[(v & _ & _ & ->)|(e & K & _)]]);
    [discriminate K|exact Htr|discriminate K].
Qed.

Lemma preparation_returned out s c s1 :
  preparation w out s = (Normal c, s1) ->
  exists t2 t3 t4 t5,
    trace s1
    = (trace s ++ [mk_entry (now s) (Mkdir out) Done;
                   mk_entry t2 StartPreview Done;
                   mk_entry t3 (Annotate "Preview (15 seconds)") Done;
                   mk_entry t4 (Sleep 15) Done;
                   mk_entry t5 StopPreview Done])%list.
Proof.
  intros H. unfold preparation in H.
  apply bind_inv in H as [(u1 & s2 & E1 & H)|[(? & _ & K)|(_ & K)]];
    [|discriminate K..].
  apply bind_inv in H as [(u2 & s3 & E2 & H)|[(? & _ & K)|(_ & K)]];
    [|discriminate K..].
  apply bind_inv in H as [(u3 & s4 & E3 & H)|[(? & _ & K)|(_ & K)]];
    [|discriminate K..].
  apply bind_inv in H as [(u4 & s5 & E4 & H)|[(? & _ & K)|(_ & K)]];
    [|discriminate K..].
  apply call_done in E1, E2, E3, E4, H.
  exists (now s2), (now s3), (now s4), (now s5).
  rewrite H, E4, E3, E2, E1, <- !app_assoc. reflexivity.
Qed.

Lemma arming_delay_returned s c s1 :
  arming_delay w s = (Normal c, s1) ->
  exists t7,
    trace s1
    = (trace s ++ [mk_entry (now s) (Print (nl ++ "Arming in 60 seconds..."))
                            Done;
                   mk_entry t7 (Sleep 60) Done])%list.
Proof.
  intros H. unfold arming_delay in H.
  apply bind_inv in H as [(u1 & s2 & E1 & H)|[(? & _ & K)|(_ & K)]];
    [|discriminate K..].
  apply atomic_inv in E1 as (_ & E1 & _).
  apply call_done in H.
  exists (now s2). rewrite H, E1, <- !app_assoc. reflexivity.
Qed.

Opaque strftime sequence.

(** Once [armed] is true the checks were passed and the preparation and
    the arming delay went through. *)
Lemma suite_armed fuel s c s1 :
  suite w fuel s = (c, s1) -> armed s1 = true ->
  exists t0 out rounds t t' line t1 t2 t3 t4 t5 t6 t7 tr1,
    trace s1
    = (trace s ++ mk_entry t0 (CheckOutput "ifconfig") (Said out)
               :: flat_map (turned_down w) rounds ++ asked w t t' line
               ++ prepared t1 t2 t3 t4 t5 t6 t7 ++ tr1)%list /\
    contains "wlan0:" out = false /\
    Forall (fun q => yes_or_no (line_of q) = false) rounds /\
    (line = "y" \/ line = "Y") /\
    Forall (armed_entry w out_directory) tr1.
Proof.
  intros H Ha. unfold suite in H.
  apply bind_inv in H as [(? & s0 & H0 & H)|[(? & H0 & _)|(H0 & _)]];
    [|discriminate H0..].
  injection H0 as _ <-.
  set (s0 := {| now := now s; armed := false; trace := trace s |}) in *.
  assert (E0 : trace s0 = trace s) by reflexivity.
  assert (A0 : armed s0 = false) by reflexivity.
  clearbody s0. rewrite <- E0. clear E0 s.
  apply bind_inv in H as [(ua & sa & Ea & H)|[(? & Ea & _)|(Ea & _)]];
    destruct (emits_inv _ _ _ _ _ _ (emits_checks w fuel) Ea)
      as (ta & _ & _ & Haa & _);
    [|congruence..].
  clear ta. destruct ua.
  apply checks_passed in Ea
    as (out & rounds & t & t' & line & Hta & Hout & Hrounds & Hline).
  cbv zeta in H.
  apply bind_inv in H as [(ub & sb & Eb & H)|[(? & Eb & _)|(Eb & _)]];
    destruct (emits_inv _ _ _ _ _ _ (emits_preparation w _) Eb)
      as (tb & _ & _ & Hab & _);
    [|congruence..].
  clear tb. apply preparation_returned in Eb as (t2 & t3 & t4 & t5 & Htb).
  apply bind_inv in H as [(uc & sc & Ec & H)|[(? & Ec & _)|(Ec & _)]];
    destruct (emits_inv _ _ _ _ _ _ (emits_arming_delay w) Ec)
      as (tc & _ & _ & Hac & _);
    [|congruence..].
  clear tc. apply arming_delay_returned in Ec as (t7 & Htc).
  apply bind_inv in H as [(? & sd & Ed & H)|[(? & Ed & _)|(Ed & _)]];
    [|discriminate Ed..].
  injection Ed as _ <-.
  set (sd := {| now := now sc; armed := true; trace := trace sc |}) in *.
  assert (Ed : trace sd = trace sc) by reflexivity.
  clearbody sd.
  assert (Hm : exists tm, trace s1 = (trace sd ++ tm)%list /\
                          Forall (armed_entry w out_directory) tm).
  { apply bind_inv in H as [(? & se & Ee & H)|[(? & Ee & _)|(Ee & _)]];
      destruct (emits_inv _ _ _ _ _ _ (emits_announce w out_directory) Ee)
        as (te & Hte & Hpe & _);
      [|exists te; split; assumption..].
    destruct (emits_inv _ _ _ _ _ _ (emits_monitor w fuel out_directory) H)
      as (tm & Htm & Hpm & _).
    exists (te ++ tm)%list. rewrite Htm, Hte, app_assoc.
    split; [reflexivity|]. apply Forall_app; split; assumption. }
  destruct Hm as (tm & Htm & Hpm).
  exists (now s0), out, rounds, t, t', line, (now sa), t2, t3, t4, t5,
    (now sb), t7, tm.
  rewrite Htm, Ed, Htc, Htb, Hta, <- !app_assoc. cbn [app prepared].
  repeat split; try assumption.
  do 2 f_equal. rewrite <- !app_assoc. reflexivity.
Qed.

Transparent strftime sequence.

End Arming.

(** X5.  The script arms only after both checks were passed and the
    preparation went through.  In the trace of a run in which [armed]
    is true, after the setup lines come: the output of [ifconfig],
    without wlan0: in it; the questions of the datetime check, the last
    one answered y or Y; then, all returned, the making of the output
    directory, the preview with its caption and its 15 seconds, the
    line Arming in 60 seconds and the 60 seconds. *)
Theorem arming_protocol (w : World) (fuel : nat) :
  armed (snd (run w fuel)) = true ->
  exists x t0 out rounds t t' line t1 t2 t3 t4 t5 t6 t7 z,
    trace (snd (run w fuel))
    = (x ++ mk_entry t0 (CheckOutput "ifconfig") (Said out)
          :: flat_map (turned_down w) rounds ++ asked w t t' line
          ++ prepared t1 t2 t3 t4 t5 t6 t7 ++ z)%list /\
    Forall setup_entry x /\
    contains "wlan0:" out = false /\
    Forall (fun q => ~ In (line_of q) ["y"; "Y"; "n"; "N"]) rounds /\
    (line = "y" \/ line = "Y").
Proof.
  intros Ha.
  destruct (run_cases w fuel)
    as [(e0 & s0 & Hs & Hr)|(s0 & Hs & [(s1 & Hx & Hr)|(e0 & s1 & Hx & Hr)])];
    destruct (setup_trace w _ _ _ Hs) as (pre & Hpre & Fpre & Apre);
    cbn [boot trace app armed] in Hpre, Apre.
  - rewrite Hr in Ha. cbn [snd] in Ha. congruence.
  - rewrite Hr in *. cbn [snd] in *.
    destruct (suite_armed w fuel s0 _ s1 Hx Ha)
      as (t0 & out & rounds & t & t' & line & t1 & t2 & t3 & t4 & t5 & t6
          & t7 & tr1 & Htr & Hout & Hrounds & Hline & _).
    exists pre, t0, out, rounds, t, t', line, t1, t2, t3, t4, t5, t6, t7, tr1.
    rewrite Htr, Hpre. repeat split; try assumption.
    eapply Forall_impl; [|exact Hrounds]. intros q. apply yes_or_no_not.
  - destruct (teardown_spec w s1) as (c1 & c2 & tl & Htl & _ & _ & _ & Hat & _).
    rewrite Hr in *. rewrite Hat in Ha.
    destruct (suite_armed w fuel s0 _ s1 Hx Ha)
      as (t0 & out & rounds & t & t' & line & t1 & t2 & t3 & t4 & t5 & t6
          & t7 & tr1 & Htr & Hout & Hrounds & Hline & _).
    exists pre, t0, out, rounds, t, t', line, t1, t2, t3, t4, t5, t6, t7.
    eexists. rewrite Htl, Htr, Hpre, <- !app_assoc. cbn [app].
    split; [do 2 f_equal; rewrite <- !app_assoc; reflexivity|].
    repeat split; try assumption.
    eapply Forall_impl; [|exact Hrounds]. intros q. apply yes_or_no_not.
Qed.

Lemma arming_protocol_witness :
  armed (snd (run quiet_world 30)) = true /\
  exists x t0 out rounds t t' line t1 t2 t3 t4 t5 t6 t7 z,
    trace (snd (run quiet_world 30))
    = (x ++ mk_entry t0 (CheckOutput "ifconfig") (Said out)
          :: flat_map (turned_down quiet_world) rounds
          ++ asked quiet_world t t' line
          ++ prepared t1 t2 t3 t4 t5 t6 t7 ++ z)%list /\
    Forall setup_entry x /\
    contains "wlan0:" out = false /\
    Forall (fun q => ~ In (line_of q) ["y"; "Y"; "n"; "N"]) rounds /\
    (line = "y" \/ line = "Y").
Proof.
  assert (H : armed (snd (run quiet_world 30)) = true)
    by (vm_compute; reflexivity).
  split; [exact H|]. exact (arming_protocol quiet_world 30 H).
Defined.

(** ** The WiFi check *)






(** ** The end of a run *)

Lemma plain_forall (P : entry -> Prop) (p : entry -> bool) l :
  (forall e, P e -> p e = false) -> Forall P l ->
  Forall (fun e => p e = false) l.
Proof. intros HP. apply Forall_impl. exact HP. Qed.

Section Ends.

Variable w : World.

(** The [finally] suite is left by an exception only when Ctrl+C comes
    during the disarm mail. *)
Lemma teardown_raised s e :
  fst (teardown w s) = Raised e ->
  e = KeyboardInterrupt /\ armed s = true /\
  exists x t subject,
    trace (snd (teardown w s))
    = (x ++ [mk_entry t (SendMail AtDisarmed subject subject None)
                      (Threw KeyboardInterrupt)])%list.
Proof.
  unfold teardown, bind, atomic, get_armed, datetime_now, print, atomic,
    except_Exception, send_mail, bind, call, print_transmitted.
  cbn. destruct (armed s) eqn:Harmed; cbn; [|discriminate].
  destruct (ctrl_c w _); cbn.
  - intros [= <-]. repeat split. do 3 eexists. reflexivity.
  - match goal with
    | |- context [deliver ?a ?b ?c ?d ?e ?f] =>
        destruct (deliver a b c d e f) as [m|[x|]] eqn:Hd
    end; cbn; try discriminate.
    apply deliver_raises in Hd as [Hd|Hd]; discriminate Hd.
Qed.

End Ends.

(** X7.  How a run stands or ends.  While the script is running nothing
    has been released.  A run that ended without an error went through
    the lines before the [try] statement and released the camera and
    the pins, once each: whatever left the [try] suite, a Ctrl+C
    included, was swallowed.  The script ends by an exception in two
    cases only: the lines before the [try] statement raised it, and then
    nothing was released; or Ctrl+C came during the disarm mail, the
    last call of the run, after the release.  (Ctrl+C is taken to come
    during a call that waits -- a sleep, a command, the prompt, the
    camera, the pin, the storage, a mail -- and [camera.close()] and
    [GPIO.cleanup()] are taken to return.) *)
Theorem how_a_run_ends (w : World) (fuel : nat) :
  let tr := trace (snd (run w fuel)) in
  match fst (run w fuel) with
  | Running => count is_close tr = 0 /\ count is_cleanup tr = 0
  | Normal _ =>
      (exists s0, setup w boot = (Normal tt, s0)) /\
      count is_close tr = 1 /\ count is_cleanup tr = 1
  | Raised e =>
      (setup w boot = (Raised e, snd (run w fuel)) /\
       count is_close tr = 0 /\ count is_cleanup tr = 0) \/
      (e = KeyboardInterrupt /\ armed (snd (run w fuel)) = true /\
       count is_close tr = 1 /\ count is_cleanup tr = 1 /\
       exists x t subject,
         tr = (x ++ [mk_entry t (SendMail AtDisarmed subject subject None)
                              (Threw KeyboardInterrupt)])%list)
  end.
Proof.
  intros tr. subst tr.
  destruct (run_cases w fuel)
    as [(e0 & s0 & Hs & Hr)|(s0 & Hs & [(s1 & Hx & Hr)|(e0 & s1 & Hx & Hr)])].
  - rewrite Hr. cbn [fst snd]. left. split; [exact Hs|].
    destruct (setup_trace w _ _ _ Hs) as (pre & -> & Hpre & _).
    cbn [boot trace app]. split; tally; reflexivity.
  - rewrite Hr. cbn [fst snd].
    destruct (setup_trace w _ _ _ Hs) as (pre & Hpre & Fpre & _).
    destruct (suite_outcome w fuel s0 _ _ Hx)
      as (tr0 & tr1 & Htr & F0 & F1 & _).
    rewrite Htr, Hpre. cbn [boot trace app]. split; tally; reflexivity.
  - destruct (exit_anatomy w fuel s0 e0 s1 Hs Hx)
      as (pre & tr0 & tr1 & t1 & t2 & tl & Htr & _ & Fpre & F0 & F1 & Ftl
          & _ & _ & Ha & _ & Hend).
    assert (Hc : count is_close (trace (snd (run w fuel))) = 1
                 /\ count is_cleanup (trace (snd (run w fuel))) = 1)
      by (rewrite Htr; split; tally; reflexivity).
    destruct (fst (run w fuel)) as [[]|e|] eqn:Hfst.
    + split; [now exists s0|exact Hc].
    + right. rewrite Hr in Hfst.
      destruct (teardown_raised w s1 e Hfst) as (-> & Has & x & t & subject & Hl).
      split; [reflexivity|]. split; [congruence|].
      split; [exact (proj1 Hc)|]. split; [exact (proj2 Hc)|].
      exists x, t, subject. rewrite Hr. exact Hl.
    + destruct Hend as [K|K]; discriminate K.
Qed.

(** Ctrl+C during the disarm mail of an interrupted run. *)
Example ctrl_c_during_the_disarm_mail :
  fst (run insistent_world 30) = Raised KeyboardInterrupt /\
  map (fun e => (act e, answer e))
      (skipn 57 (trace (snd (run insistent_world 30))))
  = [(GpioInput 4, Threw KeyboardInterrupt);
     (CameraClose, Done);
     (GpioCleanup, Done);
     (Now AtDisarmed, Clock (mk_datetime 2024 1 2 8 59 25));
     (Print "*** DISARMED *** 2024-01-02 08:59:25", Done);
     (SendMail AtDisarmed "*** DISARMED *** 2024-01-02 08:59:25"
               "*** DISARMED *** 2024-01-02 08:59:25" None,
      Threw KeyboardInterrupt)].
Proof. split; vm_compute; reflexivity. Qed.

(** X8.  Nothing touches the camera or the pins once they are released,
    and the disarm mail goes out after the release, never before it.
    In the trace of any run, what follows the call of [camera.close()]
    is the call of [GPIO.cleanup()] and then the farewell only -- one
    reading of the clock, lines on the console and, when armed, the
    disarm mail -- and no disarm mail stands before it.
    ([camera.close()] and [GPIO.cleanup()] are taken to return.) *)
Theorem nothing_after_release (w : World) (fuel : nat) (x : list entry)
    (e : entry) (y : list entry) :
  trace (snd (run w fuel)) = (x ++ e :: y)%list ->
  is_close e = true ->
  count (is_send AtDisarmed) x = 0 /\
  exists t tl,
    y = mk_entry t GpioCleanup Done :: tl /\
    Forall farewell_entry tl /\
    Forall (fun e' => is_device_call e' = false) tl.
Proof.
  intros H He.
  assert (Hc : count is_close (trace (snd (run w fuel))) <> 0).
  { rewrite H, count_app. unfold count at 2. cbn [filter]. rewrite He.
    cbn [List.length]. lia. }
  destruct (run_cases w fuel)
    as [(e0 & s0 & Hs & Hr)|(s0 & Hs & [(s1 & Hx & Hr)|(e0 & s1 & Hx & Hr)])].
  - exfalso. apply Hc. rewrite Hr. cbn [snd].
    destruct (setup_trace w _ _ _ Hs) as (pre & -> & Hpre & _).
    cbn [boot trace app]. tally. reflexivity.
  - exfalso. apply Hc. rewrite Hr. cbn [snd].
    destruct (setup_trace w _ _ _ Hs) as (pre & Hpre & Fpre & _).
    destruct (suite_outcome w fuel s0 _ _ Hx)
      as (tr0 & tr1 & Htr & F0 & F1 & _).
    rewrite Htr, Hpre. cbn [boot trace app]. tally. reflexivity.
  - destruct (exit_anatomy w fuel s0 e0 s1 Hs Hx)
      as (pre & tr0 & tr1 & t1 & t2 & tl & Htr & _ & Fpre & F0 & F1 & Ftl & _).
    rewrite H in Htr. symmetry in Htr. rewrite !app_assoc in Htr.
    apply (split_unique is_close) in Htr as (-> & -> & ->); [| | |exact He].
    + split; [rewrite <- !app_assoc; tally; reflexivity|].
      exists t2, tl. split; [reflexivity|]. split; [exact Ftl|].
      eapply Forall_impl; [|exact Ftl].
      intros [t a r]. unfold farewell_entry, is_device_call. cbn [act].
      destruct a; tauto.
    + repeat (apply Forall_app; split).
      * exact (plain_forall _ _ _ (setup_entry_plain is_close ltac:(auto)) Fpre).
      * exact (plain_forall _ _ _ (disarmed_entry_plain is_close ltac:(auto)) F0).
      * exact (plain_forall _ _ _ (armed_entry_plain w is_close ltac:(auto)) F1).
    + apply Forall_cons; [reflexivity|].
      exact (plain_forall _ _ _ (farewell_entry_plain is_close ltac:(auto)) Ftl).
Qed.

Lemma nothing_after_release_witness :
  let tr := trace (snd (run full_disk_world 30)) in
  tr = (firstn 40 tr ++ mk_entry 85750000 CameraClose Done :: skipn 41 tr)%list /\
  is_close (mk_entry 85750000 CameraClose Done) = true /\
  count (is_send AtDisarmed) (firstn 40 tr) = 0 /\
  exists t tl,
    skipn 41 tr = mk_entry t GpioCleanup Done :: tl /\
    Forall farewell_entry tl /\
    Forall (fun e' => is_device_call e' = false) tl.
Proof.
  intros tr.
  assert (H : tr = (firstn 40 tr ++ mk_entry 85750000 CameraClose Done
                                 :: skipn 41 tr)%list)
    by (vm_compute; reflexivity).
  assert (He : is_close (mk_entry 85750000 CameraClose Done) = true)
    by reflexivity.
  split; [exact H|]. split; [exact He|].
  exact (nothing_after_release full_disk_world 30 _ _ _ H He).
Defined.

(** ** What the mails say *)

Lemma after_last_slash_none (acc s : string) :
  no_slash s = true -> after_last_slash acc s = acc.
Proof.
  revert acc. induction s as [|c s IH]; intros acc; cbn; [reflexivity|].
  destruct (Ascii.eqb c "/"); cbn; [discriminate|]. apply IH.
Qed.

Lemma after_last_slash_app (acc a b : string) :
  after_last_slash acc (a ++ "/" ++ b) = after_last_slash b b.
Proof.
  revert acc. induction a as [|c a IH]; intros acc; [reflexivity|].
  cbn [append after_last_slash]. destruct (Ascii.eqb c "/"); apply IH.
Qed.

(** [basename] drops the directory. *)
Lemma basename_app (a b : string) :
  no_slash b = true -> basename (a ++ "/" ++ b) = b.
Proof.
  intros H. unfold basename.
  now rewrite after_last_slash_app, after_last_slash_none.
Qed.

Lemma no_slash_app (a b : string) :
  no_slash (a ++ b) = no_slash a && no_slash b.
Proof.
  induction a as [|c a IH]; cbn; [reflexivity|].
  now rewrite IH, andb_assoc.
Qed.

Lemma no_slash_digits s : all_digits s = true -> no_slash s = true.
Proof.
  induction s as [|c s IH]; cbn; [reflexivity|].
  intros [Hc Hs]%andb_prop. rewrite (IH Hs), andb_true_r.
  destruct (Ascii.eqb_spec c "/") as [->|_]; [discriminate Hc|reflexivity].
Qed.

Lemma no_slash_hyphenated d : no_slash (hyphenated d) = true.
Proof.
  unfold hyphenated.
  rewrite !no_slash_app.
  rewrite !(no_slash_digits _ (all_digits_str _)).
  rewrite !(no_slash_digits _ (all_digits_pad2 _)).
  reflexivity.
Qed.

(** The attachments of a detection mail carry the names of the five
    images of the burst, without the directory. *)
Lemma attachments_of_burst d :
  map basename (sequence out_directory (strftime d detection_format))
  = attachment_names d.
Proof.
  rewrite sequence_names. unfold attachment_names. rewrite map_map.
  apply map_ext_in. intros i Hi. unfold burst_name.
  change (out_directory ++ "Detection " ++ hyphenated d ++ "_" ++ i ++ ".jpg")
    with ("/media/pi/STORAGE/Detections" ++ "/"
          ++ "Detection " ++ hyphenated d ++ "_" ++ i ++ ".jpg").
  apply basename_app.
  rewrite !no_slash_app, no_slash_hyphenated.
  cbn in Hi. destruct Hi as [<-|[<-|[<-|[<-|[<-|[]]]]]]; reflexivity.
Qed.

Section Posted.

Variable w : World.

Opaque strftime sequence.

Lemma emits_posted (E : exc -> Prop) (st : site) (t : N) :
  mail_site st -> E KeyboardInterrupt -> (forall x, E (Exception_ x)) ->
  emits (send_mail w st USER APP_PWD RECIPIENT
                   (strftime (wall w t) (subject_format st))
                   (strftime (wall w t) (subject_format st))
                   (files_at st (strftime (wall w t) (subject_format st)))
                   SERVER PORT)
        (posted w) E.
Proof.
  intros Hst Hk Hx. unfold send_mail. apply emits_bind.
  - intros s. unfold call. destruct (ctrl_c w (now s)).
    + eexists [_]. cbn [fst snd log trace armed now].
      repeat split; auto; try lia.
      * repeat constructor. exists t. repeat split; auto.
        cbn [answer]. discriminate.
      * intros e [= <-]. exact Hk.
    + rewrite deliver_spec.
      destruct (gets_through _ _).
      * eexists [_]. cbn [fst snd log trace armed now].
        repeat split; auto; try lia; try discriminate.
        repeat constructor. exists t. repeat split; auto.
        cbn [answer]. intros m [= <-]. f_equal.
        unfold files_at, parts_at.
        destruct Hst as [->|[->|[->| ->]]]; cbn [site_eqb files_or_empty map];
          try reflexivity.
        apply attachments_of_burst.
      * eexists [_]. cbn [fst snd log trace armed now].
        repeat split; auto; try lia.
        -- repeat constructor. exists t. repeat split; auto.
           cbn [answer]. discriminate.
        -- intros e [= <-]. apply Hx.
  - intros _ s. exists [mk_entry (now s) (Print "Transmitted") Done].
    cbn. repeat split; auto; try discriminate; try lia.
    repeat constructor.
Qed.

Ltac posting_step :=
  cbv beta zeta;
  lazymatch goal with
  | |- emits (send_mail _ ?st _ _ _ (strftime (wall _ ?t) _) _ _ _ _) _ ?E =>
      apply (emits_posted E st t)
  | _ => footprint_step
  end.

Ltac posting := repeat posting_step.

Ltac posted_side :=
  unfold mail_site, let_through; cbn; auto 6.

Lemma posted_detection :
  emits (detection w out_directory) (posted w) (fun _ => True).
Proof.
  unfold detection, print, annotate_text, capture_sequence, disk_usage.
  posting; posted_side.
Qed.

Lemma posted_detect fuel :
  emits (detect w fuel out_directory) (posted w) (fun _ => True).
Proof.
  induction fuel as [|fuel IH]; cbn [detect]; [apply emits_running|].
  apply emits_poll; [posted_side | posted_side | intros t].
  destruct (pir w t); [|apply emits_ret].
  apply emits_bind; [apply posted_detection|intros _; exact IH].
Qed.

Lemma posted_status_update :
  emits (status_update w) (posted w) (fun _ => True).
Proof.
  unfold status_update, print, time_sleep.
  posting; posted_side.
Qed.

Lemma posted_monitor fuel :
  emits (monitor w fuel out_directory) (posted w) (fun _ => True).
Proof.
  induction fuel as [|fuel IH]; cbn [monitor]; [apply emits_running|].
  apply emits_bind; [apply posted_status_update|intros _].
  apply emits_bind; [apply posted_detect|intros _; exact IH].
Qed.

Lemma posted_announce : emits (announce w) (posted w) (fun _ => True).
Proof.
  unfold announce, print.
  posting; posted_side.
Qed.

Lemma posted_teardown : emits (teardown w) (posted w) (fun _ => True).
Proof.
  unfold teardown, print.
  posting; posted_side.
Qed.

Lemma posted_unmailed {A} (m : M A) (P : entry -> Prop) E :
  (forall e, P e -> is_mail e = false) ->
  emits m P E -> emits m (posted w) (fun _ => True).
Proof.
  intros HP H. eapply emits_weaken; [exact H| |auto].
  intros [t a r] He. apply HP in He. unfold posted.
  destruct a; try exact I. discriminate He.
Qed.

Transparent strftime sequence.

Lemma setup_entry_unmailed e : setup_entry e -> is_mail e = false.
Proof. destruct e as [t a r]. destruct a; cbn; tauto. Qed.

Lemma disarmed_entry_unmailed e : disarmed_entry e -> is_mail e = false.
Proof. destruct e as [t a r]. destruct a; cbn; tauto. Qed.

Lemma everywhere_nil (P : entry -> Prop) a : everywhere P a a [].
Proof. constructor. Qed.

Lemma everywhere_app (P : entry -> Prop) a b c x y :
  everywhere P a b x -> everywhere P b c y -> everywhere P a c (x ++ y)%list.
Proof. intros Hx Hy. apply Forall_app. split; assumption. Qed.

Lemma yields_posted {A} (m : M A) :
  emits m (posted w) (fun _ => True) -> yields m (everywhere (posted w)).
Proof.
  intros H. eapply yields_of_emits; [exact H|]. intros a b ext _ F. exact F.
Qed.

(** Every call of [send_mail] in a run is one of the four the script
    makes, and what was delivered is the message it made. *)
Lemma run_posted fuel : Forall (posted w) (trace (snd (run w fuel))).
Proof.
  pose proof (everywhere_nil (posted w)) as T_nil.
  pose proof (everywhere_app (posted w)) as T_app.
  assert (Hy : yields (script w fuel) (everywhere (posted w))).
  { unfold script, system.
    apply (yields_bind _ T_app); [|intros _].
    { exact (yields_posted _ (posted_unmailed _ _ _ setup_entry_unmailed
                                (emits_setup w))). }
    apply (yields_try_finally _ T_app);
      [|exact (yields_posted _ posted_teardown)].
    apply yields_except_both. unfold suite.
    apply (yields_bind _ T_app); [apply (yields_set_armed _ T_nil)|intros _].
    apply (yields_bind _ T_app); [|intros _].
    { exact (yields_posted _ (posted_unmailed _ _ _ disarmed_entry_unmailed
                                (emits_checks w fuel))). }
    apply (yields_bind _ T_app); [|intros _].
    { exact (yields_posted _ (posted_unmailed _ _ _ disarmed_entry_unmailed
                                (emits_preparation w _))). }
    apply (yields_bind _ T_app); [|intros _].
    { exact (yields_posted _ (posted_unmailed _ _ _ disarmed_entry_unmailed
                                (emits_arming_delay w))). }
    apply (yields_bind _ T_app); [apply (yields_set_armed _ T_nil)|intros _].
    apply (yields_bind _ T_app); [|intros _].
    { exact (yields_posted _ posted_announce). }
    exact (yields_posted _ (posted_monitor fuel)). }
  destruct (Hy boot) as (ext & Hx & Tx).
  unfold run. cbn [boot trace app] in Hx. rewrite Hx. exact Tx.
Qed.

End Posted.

(** X9.  What a delivered mail says.  Every mail delivered in a run comes
    from one of the four call sites; it goes from [USER] to
    [RECIPIENT]; its subject and its text are one and the same line,
    made from one reading of the clock in the format of the site (ARMED,
    Active, Detection, DISARMED); a detection mail carries the five
    images of its burst, each under the name of its file without the
    directory, and the other mails carry no attachment. *)
Theorem what_the_mails_say (w : World) (fuel : nat) (i : nat) (e : entry)
    (m : message) :
  nth_error (trace (snd (run w fuel))) i = Some e ->
  is_mail e = true ->
  answer e = Delivered m ->
  exists st t,
    mail_site st /\
    act e = SendMail st (msg_subject m) (msg_text m)
                     (files_at st (msg_subject m)) /\
    msg_from m = USER /\ msg_to m = RECIPIENT /\
    msg_subject m = strftime (wall w t) (subject_format st) /\
    msg_text m = msg_subject m /\
    msg_parts m = parts_at st (wall w t).
Proof.
  intros Hi Hm Ha. apply nth_error_In in Hi.
  pose proof (run_posted w fuel) as Hp. rewrite Forall_forall in Hp.
  specialize (Hp e Hi). unfold posted in Hp.
  destruct e as [te a r]. cbn [act answer] in *.
  destruct a; try discriminate Hm.
  destruct Hp as (t & Hst & -> & -> & -> & Hd).
  rewrite (Hd m Ha). cbn [msg_from msg_to msg_subject msg_text msg_parts].
  exists at_site, t. repeat split; auto.
Qed.

Lemma what_the_mails_say_witness :
  let w := long_motion_world in
  let m := mk_message "@gmail.com" "" "Detection 2024-01-02 08:59:22"
             "Detection 2024-01-02 08:59:22"
             ["Detection 2024-01-02 08-59-22_1.jpg";
              "Detection 2024-01-02 08-59-22_2.jpg";
              "Detection 2024-01-02 08-59-22_3.jpg";
              "Detection 2024-01-02 08-59-22_4.jpg";
              "Detection 2024-01-02 08-59-22_5.jpg"] in
  let e := mk_entry 85250000
             (SendMail AtDetection "Detection 2024-01-02 08:59:22"
                "Detection 2024-01-02 08:59:22"
                (Some (sequence out_directory "Detection 2024-01-02 08:59:22")))
             (Delivered m) in
  nth_error (trace (snd (run w 30))) 38 = Some e /\
  is_mail e = true /\
  answer e = Delivered m /\
  exists st t,
    mail_site st /\
    act e = SendMail st (msg_subject m) (msg_text m)
                     (files_at st (msg_subject m)) /\
    msg_from m = USER /\ msg_to m = RECIPIENT /\
    msg_subject m = strftime (wall w t) (subject_format st) /\
    msg_text m = msg_subject m /\
    msg_parts m = parts_at st (wall w t).
Proof.
  intros w m e.
  assert (H1 : nth_error (trace (snd (run w 30))) 38 = Some e)
    by (vm_compute; reflexivity).
  assert (H2 : is_mail e = true) by reflexivity.
  assert (H3 : answer e = Delivered m) by reflexivity.
  split; [exact H1|]. split; [exact H2|]. split; [exact H3|].
  exact (what_the_mails_say w 30 38 e m H1 H2 H3).
Defined.

(** ** The pace of the monitoring loop *)

Lemma paced_quiet p ext : Forall unscheduled ext -> paced p ext.
Proof.
  intros F. revert p. induction F as [|e ext He F IH]; intros p; cbn [paced];
    [exact I|].
  split; [|apply IH]. unfold unscheduled in He. rewrite He. discriminate.
Qed.

Lemma ending_app p x y : ending p (x ++ y) = ending (ending p x) y.
Proof.
  revert p. induction x as [|e x IH]; intros p; cbn [app ending];
    [reflexivity|apply IH].
Qed.

Lemma paced_app p x y :
  paced p x -> paced (ending p x) y -> paced p (x ++ y).
Proof.
  revert p. induction x as [|e x IH]; intros p; cbn [app paced ending];
    [auto|].
  intros [He Hx] Hy. split; [exact He|]. apply IH; assumption.
Qed.

Lemma paced_spec p ext x e1 e2 y :
  paced p ext -> ext = (x ++ e1 :: e2 :: y)%list ->
  is_schedule_check e2 = true -> is_low e1 = true.
Proof.
  revert p ext. induction x as [|e x IH]; intros p ext H -> He2.
  - cbn [app paced] in H. destruct H as (_ & H & _). exact (H He2).
  - cbn [app paced] in H. destruct H as (_ & H).
    exact (IH _ _ H eq_refl He2).
Qed.

Lemma app_eq_pair {A} (l1 l2 x : list A) e1 e2 y :
  (l1 ++ l2 = x ++ e1 :: e2 :: y)%list ->
  (exists y', l1 = x ++ e1 :: e2 :: y')%list \/
  (l1 = x ++ [e1] /\ l2 = e2 :: y)%list \/
  (exists x', l2 = x' ++ e1 :: e2 :: y)%list.
Proof.
  intros H. apply app_eq_app in H as (l & [(-> & H)|(-> & H)]).
  - destruct l as [|a [|b l]].
    + right. right. exists []. rewrite H. reflexivity.
    + right. left. cbn [app] in H. injection H as <- <-. auto.
    + left. cbn [app] in H. injection H as <- <- ->. eauto.
  - right. right. exists l. exact H.
Qed.

Lemma unscheduled_setup e : setup_entry e -> unscheduled e.
Proof.
  destruct e as [t a r]. unfold setup_entry, unscheduled. cbn.
  destruct a; try reflexivity. tauto.
Qed.

Lemma unscheduled_disarmed e : disarmed_entry e -> unscheduled e.
Proof.
  destruct e as [t a r]. unfold disarmed_entry, unscheduled. cbn.
  destruct a; try reflexivity. now intros ->.
Qed.

Lemma unscheduled_final e : final_entry e -> unscheduled e.
Proof.
  destruct e as [t a r]. unfold final_entry, farewell_entry, unscheduled. cbn.
  destruct a; try reflexivity. now intros [-> | ->].
Qed.

Section Pace.

Variable w : World.

Ltac quiet := unfold unscheduled; side_condition.

Lemma unscheduled_announce :
  emits (announce w) unscheduled (fun _ => True).
Proof.
  unfold announce, print.
  footprint; quiet.
Qed.

Lemma unscheduled_detection out :
  emits (detection w out) unscheduled (fun _ => True).
Proof.
  unfold detection, print, annotate_text, capture_sequence, disk_usage.
  footprint; quiet.
Qed.

Lemma unscheduled_detect fuel out :
  emits (detect w fuel out) unscheduled (fun _ => True).
Proof.
  induction fuel as [|fuel IH]; cbn [detect]; [apply emits_running|].
  apply emits_poll; [quiet | quiet | intros t].
  destruct (pir w t); [|apply emits_ret].
  apply emits_bind; [apply unscheduled_detection|intros _; exact IH].
Qed.

(** The detection loop ends only on a poll that read low. *)
Lemma detect_still fuel :
  forall out s s1 p,
    detect w fuel out s = (Normal tt, s1) ->
    exists ext,
      trace s1 = (trace s ++ ext)%list /\ Forall unscheduled ext /\
      ending p ext = true.
Proof.
  induction fuel as [|fuel IH]; intros out s s1 p; cbn [detect];
    [discriminate|].
  unfold bind at 1. unfold GPIO_input, call.
  destruct (ctrl_c w (now s)); [discriminate|].
  destruct (pir w (now s)).
  - unfold bind at 1.
    destruct (detection w out _) as [[[]|e|] s2] eqn:Hd; try discriminate.
    destruct (emits_inv _ _ _ _ _ _ (unscheduled_detection out) Hd)
      as (ext1 & Ht1 & F1 & _).
    intros H.
    apply (IH _ _ _ (ending false ext1)) in H as (ext2 & Ht2 & F2 & E2).
    eexists (_ :: ext1 ++ ext2)%list.
    rewrite Ht2, Ht1. cbn [log trace]. rewrite <- !app_assoc. cbn [app].
    split; [reflexivity|]. split.
    + apply Forall_cons; [reflexivity|]. apply Forall_app; split; assumption.
    + cbn [ending is_low act answer]. rewrite ending_app. exact E2.
  - intros [= <-]. eexists [_]. cbn [log trace].
    split; [reflexivity|]. split; [repeat constructor|reflexivity].
Qed.

Lemma bind_now {B} st (f : datetime -> M B) s :
  bind (datetime_now w st) f s
  = f (wall w (now s))
      (log (now s) (Now st) (Clock (wall w (now s)))
           (latency w (Now st) (now s)) s).
Proof. reflexivity. Qed.

Opaque strftime str_in.

(** A pass of the monitoring loop begins with the schedule check, and
    the status update has no other. *)
Lemma status_update_paced s :
  exists ext,
    trace (snd (status_update w s)) = (trace s ++ ext)%list /\
    paced true ext.
Proof.
  unfold status_update. rewrite bind_now.
  set (s' := log _ _ _ _ s).
  assert (H : emits (if str_in (strftime (wall w (now s)) "%H:%M:%S") TIMES
                     then
                       bind (datetime_now w AtUpdate)
                         (fun d' =>
                            bind (print w (strftime d' "Active %Y-%m-%d %H:%M:%S"))
                              (fun _ =>
                                 bind (time_sleep w 1)
                                   (fun _ =>
                                      except_Exception
                                        (send_mail w AtUpdate USER APP_PWD
                                           RECIPIENT
                                           (strftime d' "Active %Y-%m-%d %H:%M:%S")
                                           (strftime d' "Active %Y-%m-%d %H:%M:%S")
                                           None SERVER PORT))))
                     else ret tt) unscheduled (fun _ => True)).
  { unfold print, time_sleep. footprint; quiet. }
  destruct (H s') as (tr & Htr & F & _).
  exists (mk_entry (now s) (Now AtSchedule) (Clock (wall w (now s))) :: tr).
  split.
  - rewrite Htr. subst s'. cbn [log trace]. rewrite <- app_assoc. reflexivity.
  - cbn [paced]. split; [reflexivity|]. apply paced_quiet, F.
Qed.

Transparent strftime str_in.

Lemma monitor_paced fuel :
  forall out s,
    exists ext,
      trace (snd (monitor w fuel out s)) = (trace s ++ ext)%list /\
      paced true ext.
Proof.
  induction fuel as [|fuel IH]; intros out s; cbn [monitor].
  - exists []. cbn. rewrite app_nil_r. auto.
  - unfold bind at 1.
    destruct (status_update_paced s) as (su & Hsu & Psu).
    destruct (status_update w s) as [[[]|e|] s1]; cbn [snd] in Hsu;
      [|exists su; auto..].
    unfold bind at 1.
    destruct (detect w fuel out s1) as [[[]|e|] s2] eqn:Hde.
    + apply (detect_still _ _ _ _ (ending true su)) in Hde
        as (de & Hde & Fde & Ede).
      destruct (IH out s2) as (mo & Hmo & Pmo).
      exists ((su ++ de) ++ mo)%list. split.
      * rewrite Hmo, Hde, Hsu, <- !app_assoc. reflexivity.
      * apply paced_app; [apply paced_app; [exact Psu|apply paced_quiet, Fde]|].
        rewrite ending_app, Ede. exact Pmo.
    + destruct (emits_inv _ _ _ _ _ _ (unscheduled_detect fuel out) Hde)
        as (de & Hd & Fde & _).
      exists (su ++ de)%list. cbn [snd]. split.
      * rewrite Hd, Hsu, <- !app_assoc. reflexivity.
      * apply paced_app; [exact Psu|apply paced_quiet, Fde].
    + destruct (emits_inv _ _ _ _ _ _ (unscheduled_detect fuel out) Hde)
        as (de & Hd & Fde & _).
      exists (su ++ de)%list. cbn [snd]. split.
      * rewrite Hd, Hsu, <- !app_assoc. reflexivity.
      * apply paced_app; [exact Psu|apply paced_quiet, Fde].
Qed.

Lemma unscheduled_part {A} (m : M A) E s c s1 :
  emits m disarmed_entry E -> m s = (c, s1) ->
  exists ext, trace s1 = (trace s ++ ext)%list /\ Forall unscheduled ext.
Proof.
  intros Hm H. destruct (emits_inv _ _ _ _ _ _ Hm H) as (ext & Ht & F & _).
  exists ext. split; [exact Ht|].
  eapply Forall_impl; [|exact F]. exact unscheduled_disarmed.
Qed.

(** The suite of the [try] statement: a stretch without a schedule
    check, then the monitoring loop at its pace. *)
Lemma suite_paced fuel s c s1 :
  suite w fuel s = (c, s1) ->
  exists quiet_ mo,
    trace s1 = (trace s ++ quiet_ ++ mo)%list /\
    Forall unscheduled quiet_ /\ paced true mo.
Proof.
  unfold suite. unfold bind at 1. cbn [set_armed].
  set (s0 := {| now := now s; armed := false; trace := trace s |}).
  assert (H0 : trace s0 = trace s) by reflexivity.
  clearbody s0. rewrite <- H0. clear H0 s.
  unfold bind at 1.
  destruct (checks w fuel s0) as [[[]|e|] sa] eqn:Ea;
    destruct (unscheduled_part _ _ _ _ _ (emits_checks w fuel) Ea)
      as (ta & Hta & Fa);
    [| intros [= <- <-]; exists ta, []; rewrite app_nil_r;
       repeat split; auto ..].
  unfold bind at 1.
  destruct (preparation w (DIRECTORY ++ "/Detections/") sa)
    as [[[]|e|] sb] eqn:Eb;
    destruct (unscheduled_part _ _ _ _ _ (emits_preparation w _) Eb)
      as (tb & Htb & Fb);
    [| intros [= <- <-]; exists (ta ++ tb)%list, [];
       rewrite app_nil_r, Htb, Hta, app_assoc;
       repeat split; auto; apply Forall_app; split; assumption ..].
  unfold bind at 1.
  destruct (arming_delay w sb) as [[[]|e|] sc] eqn:Ec;
    destruct (unscheduled_part _ _ _ _ _ (emits_arming_delay w) Ec)
      as (tc & Htc & Fc);
    [| intros [= <- <-]; exists (ta ++ tb ++ tc)%list, [];
       rewrite app_nil_r, Htc, Htb, Hta, <- !app_assoc;
       repeat split; auto;
       repeat (apply Forall_app; split); assumption ..].
  unfold bind at 1. cbn [set_armed].
  set (sd := {| now := now sc; armed := true; trace := trace sc |}).
  assert (Hd : trace sd = trace sc) by reflexivity.
  clearbody sd.
  unfold bind at 1.
  destruct (announce w sd) as [[[]|e|] se] eqn:Ee;
    destruct (emits_inv _ _ _ _ _ _ unscheduled_announce Ee)
      as (te & Hte & Fe & _);
    [| intros [= <- <-]; exists (ta ++ tb ++ tc ++ te)%list, [];
       rewrite app_nil_r, Hte, Hd, Htc, Htb, Hta, <- !app_assoc;
       repeat split; auto;
       repeat (apply Forall_app; split); assumption ..].
  intros Hm.
  destruct (monitor_paced fuel (DIRECTORY ++ "/Detections/") se)
    as (mo & Hmo & Pmo).
  rewrite Hm in Hmo. cbn [snd] in Hmo.
  exists (ta ++ tb ++ tc ++ te)%list, mo.
  rewrite Hmo, Hte, Hd, Htc, Htb, Hta, <- !app_assoc.
  repeat split; auto.
  repeat (apply Forall_app; split); assumption.
Qed.

(** The trace of a run: a stretch without a schedule check, the
    monitoring loop at its pace, and again a stretch without. *)
Lemma run_paced fuel :
  exists before mo after,
    trace (snd (run w fuel)) = (before ++ mo ++ after)%list /\
    Forall unscheduled before /\ paced true mo /\ Forall unscheduled after.
Proof.
  destruct (run_cases w fuel)
    as [(e0 & s0 & Hs & Hr)|(s0 & Hs & [(s1 & Hx & Hr)|(e0 & s1 & Hx & Hr)])];
    destruct (setup_trace w _ _ _ Hs) as (pre & Hpre & Fpre & _);
    cbn [boot trace app] in Hpre;
    apply (Forall_impl _ unscheduled_setup) in Fpre.
  - exists pre, [], []. rewrite Hr. cbn [snd]. rewrite Hpre, app_nil_r.
    repeat split; auto.
  - destruct (suite_paced fuel s0 _ _ Hx) as (q & mo & Htr & Fq & Pmo).
    exists (pre ++ q)%list, mo, []. rewrite Hr. cbn [snd].
    rewrite Htr, Hpre, app_nil_r, <- !app_assoc.
    repeat split; auto. apply Forall_app; split; assumption.
  - destruct (suite_paced fuel s0 _ _ Hx) as (q & mo & Htr & Fq & Pmo).
    destruct (emits_inv _ _ _ _ _ _ (emits_teardown w)
                (surjective_pairing (teardown w s1)))
      as (fin & Hfin & Ffin & _).
    apply (Forall_impl _ unscheduled_final) in Ffin.
    exists (pre ++ q)%list, mo, fin. rewrite Hr, Hfin, Htr, Hpre, <- !app_assoc.
    repeat split; auto. apply Forall_app; split; assumption.
Qed.

End Pace.

Lemma unscheduled_here l e :
  Forall unscheduled l -> In e l -> is_schedule_check e = true -> False.
Proof.
  intros F Hin He. rewrite Forall_forall in F.
  rewrite (F e Hin) in He. discriminate He.
Qed.

(** X10.  While the PIR pin reads high the script does not look at the
    schedule.  Every schedule check of a run but the first comes right
    after a poll of the pin that read low: once a poll reads high the
    script stays in the detection loop, burst after burst, until a poll
    reads low, and a scheduled time that passes meanwhile gets no status
    mail. *)
Theorem schedule_waits_for_stillness (w : World) (fuel : nat)
    (x : list entry) (e1 e2 : entry) (y : list entry) :
  trace (snd (run w fuel)) = (x ++ e1 :: e2 :: y)%list ->
  is_schedule_check e2 = true ->
  is_low e1 = true \/ count is_schedule_check (x ++ [e1]) = 0.
Proof.
  intros H He2.
  destruct (run_paced w fuel) as (before & mo & after & Htr & Fb & Pmo & Fa).
  rewrite H in Htr. symmetry in Htr.
  apply app_eq_pair in Htr as [(y' & ->)|[(-> & Htr)|(x' & Htr)]].
  - exfalso. apply (unscheduled_here _ e2 Fb); [|exact He2].
    apply in_or_app. right. right. now left.
  - right. apply count_none. exact Fb.
  - apply app_eq_pair in Htr as [(y' & ->)|[(-> & Htr)|(x'' & Htr)]].
    + left. exact (paced_spec _ _ _ _ _ _ Pmo eq_refl He2).
    + exfalso. apply (unscheduled_here _ e2 Fa); [|exact He2].
      rewrite Htr. now left.
    + exfalso. apply (unscheduled_here _ e2 Fa); [|exact He2].
      rewrite Htr. apply in_or_app. right. right. now left.
Qed.

Lemma schedule_waits_for_stillness_witness :
  let tr := trace (snd (run quiet_world 30)) in
  let e1 := mk_entry 80500000 (GpioInput 4) (Level false) in
  let e2 := mk_entry 80750000 (Now AtSchedule)
                     (Clock (mk_datetime 2024 1 2 8 59 20)) in
  tr = (firstn 21 tr ++ e1 :: e2 :: skipn 23 tr)%list /\
  is_schedule_check e2 = true /\
  (is_low e1 = true \/ count is_schedule_check (firstn 21 tr ++ [e1]) = 0).
Proof.
  intros tr e1 e2.
  assert (H : tr = (firstn 21 tr ++ e1 :: e2 :: skipn 23 tr)%list)
    by (vm_compute; reflexivity).
  assert (He : is_schedule_check e2 = true) by reflexivity.
  split; [exact H|]. split; [exact He|].
  exact (schedule_waits_for_stillness quiet_world 30 _ _ _ _ H He).
Defined.

(** Motion from 08:59:22 to 09:00:10: the script looks at the schedule
    at 08:59:22 and next at 09:00:11, and the status mail of 09:00:00 is
    never sent; with nothing moving it is. *)
Example status_update_missed_during_motion :
  map at_ (filter (fun e => is_schedule_check e
                            && between 82000000 132000000 (at_ e))
                  (trace (snd (run busy_world 200))))
  = [82000000; 131000000; 131250000; 131500000; 131750000]%N /\
  count (is_send AtUpdate) (trace (snd (run busy_world 200))) = 0 /\
  count (is_send AtUpdate) (trace (snd (run quiet_world 200))) = 1.
Proof. repeat split; vm_compute; reflexivity. Qed.

(** ** The times of the status update *)

Lemma time_of_day_inj h m s h' m' s' :
  (h < 100 -> m < 100 -> s < 100 -> h' < 100 -> m' < 100 -> s' < 100 ->
   pad2 h ++ ":" ++ pad2 m ++ ":" ++ pad2 s
   = pad2 h' ++ ":" ++ pad2 m' ++ ":" ++ pad2 s' ->
   h = h' /\ m = m' /\ s = s')%N.
Proof.
  intros Hh Hm Hs Hh' Hm' Hs' H.
  apply append_split in H as [EH H];
    [|rewrite !(fun n K => field_length _ _ (pad2_field n K)) by lia; auto].
  injection H as H.
  apply append_split in H as [EM ES];
    [|rewrite !(fun n K => field_length _ _ (pad2_field n K)) by lia; auto].
  injection ES as ES.
  apply (f_equal decode) in EH, EM, ES.
  rewrite !decode_pad2 in EH, EM, ES by lia. auto.
Qed.

Lemma strftime_time_of_day d :
  strftime d "%H:%M:%S"
  = pad2 (hour d) ++ ":" ++ pad2 (minute d) ++ ":" ++ pad2 (second d).
Proof.
  cbn -[pad2]. rewrite append_empty. reflexivity.
Qed.

(** The test [datetime.now().strftime("%H:%M:%S") in TIMES] holds at
    09:00:00 and at 21:00:00 and at no other second of the day. *)
Lemma in_TIMES_iff d :
  (hour d < 24 /\ minute d < 60 /\ second d < 60)%N ->
  str_in (strftime d "%H:%M:%S") TIMES = true <->
  ((hour d = 9 \/ hour d = 21) /\ minute d = 0 /\ second d = 0)%N.
Proof.
  intros (Hh & Hm & Hs). rewrite strftime_time_of_day.
  unfold str_in, TIMES. cbn [existsb].
  rewrite orb_false_r, orb_true_iff, !String.eqb_eq.
  change "09:00:00" with (pad2 9 ++ ":" ++ pad2 0 ++ ":" ++ pad2 0).
  change "21:00:00" with (pad2 21 ++ ":" ++ pad2 0 ++ ":" ++ pad2 0).
  split.
  - intros [H|H]; apply time_of_day_inj in H; try lia.
  - intros ([-> | ->] & -> & ->); auto.
Qed.

Section Due.

Variable w : World.

Opaque strftime str_in.

Lemma bind_atomic {B} a (f : unit -> M B) s :
  bind (atomic w a) f s = f tt (log (now s) a Done (latency w a (now s)) s).
Proof. reflexivity. Qed.

Lemma status_update_not_due s :
  str_in (strftime (wall w (now s)) "%H:%M:%S") TIMES = false ->
  status_update w s
  = (Normal tt,
     log (now s) (Now AtSchedule) (Clock (wall w (now s)))
         (latency w (Now AtSchedule) (now s)) s).
Proof.
  intros H. unfold status_update. rewrite bind_now, H. reflexivity.
Qed.

Lemma status_update_when_due s :
  str_in (strftime (wall w (now s)) "%H:%M:%S") TIMES = true ->
  exists t t' t'' r rest,
    trace (snd (status_update w s))
    = (trace s ++ mk_entry (now s) (Now AtSchedule) (Clock (wall w (now s)))
               :: mk_entry t (Now AtUpdate) (Clock (wall w t))
               :: mk_entry t' (Print (strftime (wall w t)
                                               "Active %Y-%m-%d %H:%M:%S"))
                           Done
               :: mk_entry t'' (Sleep 1) r :: rest)%list.
Proof.
  intros H. unfold status_update. rewrite bind_now, H.
  rewrite bind_now. unfold print. rewrite bind_atomic.
  unfold bind.
  match goal with
  | |- context [time_sleep w 1 ?s0] =>
      destruct (time_sleep w 1 s0) as [c s1] eqn:Hc
  end.
  unfold time_sleep in Hc. apply call_inv in Hc as (r & Htr & _ & _).
  unfold log in Htr. cbn [trace now] in Htr.
  assert (Hrest : exists rest,
             trace (snd (match c with
                         | Normal _ =>
                             except_Exception
                               (send_mail w AtUpdate USER APP_PWD RECIPIENT
                                  (strftime
                                     (wall w (now s + latency w (Now AtSchedule) (now s)))
                                     "Active %Y-%m-%d %H:%M:%S")
                                  (strftime
                                     (wall w (now s + latency w (Now AtSchedule) (now s)))
                                     "Active %Y-%m-%d %H:%M:%S")
                                  None SERVER PORT) s1
                         | Raised e => (Raised e, s1)
                         | Running => (Running, s1)
                         end))
             = (trace s1 ++ rest)%list).
  { destruct c as [[]|e|]; [|exists []; cbn [snd]; now rewrite app_nil_r..].
    match goal with
    | |- context [except_Exception ?m s1] =>
        destruct (except_Exception m s1) as [c2 s2] eqn:Hm
    end.
    apply attempt_inv in Hm as (r2 & Hm & _). eexists. exact Hm. }
  destruct Hrest as (rest & Hrest).
  do 4 eexists. exists rest. cbn [now log] in Hrest |- *.
  rewrite Hrest, Htr, <- !app_assoc. cbn [app]. reflexivity.
Qed.

Transparent strftime str_in.

End Due.

(** X11.  The status update is made at 09:00:00 and at 21:00:00 and at
    no other time.  When the clock read by the schedule check shows one
    of these two seconds, the script reads the clock again, prints the
    Active line made from that second reading and sleeps one second
    before the mail; at any other second the check is all the script
    does before it polls the pin. *)
Theorem status_update_due (w : World) (s : State) :
  let d := wall w (now s) in
  let check := mk_entry (now s) (Now AtSchedule) (Clock d) in
  (hour d < 24 /\ minute d < 60 /\ second d < 60)%N ->
  (((hour d = 9 \/ hour d = 21) /\ minute d = 0 /\ second d = 0)%N /\
   exists t t' t'' r rest,
     trace (snd (status_update w s))
     = (trace s ++ check
                :: mk_entry t (Now AtUpdate) (Clock (wall w t))
                :: mk_entry t' (Print (strftime (wall w t)
                                                "Active %Y-%m-%d %H:%M:%S"))
                            Done
                :: mk_entry t'' (Sleep 1) r :: rest)%list) \/
  (~ ((hour d = 9 \/ hour d = 21) /\ minute d = 0 /\ second d = 0)%N /\
   fst (status_update w s) = Normal tt /\
   trace (snd (status_update w s)) = (trace s ++ [check])%list).
Proof.
  intros d check Hd. apply in_TIMES_iff in Hd.
  destruct (str_in (strftime d "%H:%M:%S") TIMES) eqn:Hin.
  - left. split; [apply Hd; reflexivity|].
    exact (status_update_when_due w s Hin).
  - right. split; [intros K; apply Hd in K; discriminate K|].
    rewrite (status_update_not_due w s Hin). split; reflexivity.
Qed.

Lemma status_update_due_witness :
  let w := quiet_world in
  let s := {| now := 120000000; armed := true; trace := [] |} in
  let d := wall w (now s) in
  let check := mk_entry (now s) (Now AtSchedule) (Clock d) in
  (hour d < 24 /\ minute d < 60 /\ second d < 60)%N /\
  d = mk_datetime 2024 1 2 9 0 0 /\
  ((((hour d = 9 \/ hour d = 21) /\ minute d = 0 /\ second d = 0)%N /\
    exists t t' t'' r rest,
      trace (snd (status_update w s))
      = (trace s ++ check
                 :: mk_entry t (Now AtUpdate) (Clock (wall w t))
                 :: mk_entry t' (Print (strftime (wall w t)
                                                 "Active %Y-%m-%d %H:%M:%S"))
                             Done
                 :: mk_entry t'' (Sleep 1) r :: rest)%list) \/
   (~ ((hour d = 9 \/ hour d = 21) /\ minute d = 0 /\ second d = 0)%N /\
    fst (status_update w s) = Normal tt /\
    trace (snd (status_update w s)) = (trace s ++ [check])%list)).
Proof.
  intros w s d check.
  assert (H : (hour d < 24 /\ minute d < 60 /\ second d < 60)%N)
    by (vm_compute; repeat split; reflexivity).
  split; [exact H|]. split; [reflexivity|].
  exact (status_update_due w s H).
Defined.

(** ** Arming when nothing stands in the way *)

Lemma bind_assoc {A B C} (m : M A) (f : A -> M B) (g : B -> M C) s :
  bind (bind m f) g s = bind m (fun a => bind (f a) g) s.
Proof. unfold bind. destruct (m s) as [[a|e|] s1]; reflexivity. Qed.

Lemma bind_set_armed {B} b (f : unit -> M B) s :
  bind (set_armed b) f s
  = f tt {| now := now s; armed := b; trace := trace s |}.
Proof. reflexivity. Qed.

Lemma bind_ret {A B} (a : A) (f : A -> M B) s : bind (ret a) f s = f a s.
Proof. reflexivity. Qed.

Section AllIsWell.

Variable w : World.
Variables out line : string.
Hypothesis well : all_is_well w out line.

Lemma bind_call_well {A B} a hold (ans : N -> result A) show
    (f : A -> M B) s v :
  ans (now s) = Ret v ->
  bind (call w a hold ans show) f s
  = f v (log (now s) a (show v) (hold + latency w a (now s)) s).
Proof.
  intros H. unfold bind, call.
  rewrite (proj1 well), H. reflexivity.
Qed.

Lemma guard_well (ok : N -> bool) e t :
  (forall t, ok t = true) -> guard ok e t = Ret tt.
Proof. intros H. unfold guard. now rewrite H. Qed.

Lemma setup_well :
  exists s0 t1 t2 t3 t4 t5,
    setup w boot = (Normal tt, s0) /\ armed s0 = false /\
    trace s0 = set_up t1 t2 t3 t4 t5.
Proof.
  destruct well as (Hc & Hp & _).
  unfold setup, print, PiCamera, time_sleep.
  rewrite !bind_atomic.
  rewrite (bind_call_well _ _ _ _ _ _ tt) by (apply guard_well, Hp).
  rewrite bind_atomic.
  unfold call. rewrite Hc.
  eexists. do 5 eexists. split; [reflexivity|].
  unfold log. cbn [armed trace now boot app]. split; reflexivity.
Qed.

Opaque strftime.

Lemma lower_line : lower line = "y".
Proof. apply lower_y. apply well. Qed.

Lemma datetime_check_well fuel s :
  datetime_check w (S fuel) s
  = (Normal "y",
     log (now s + latency w (Now AtPrompt) (now s))
         (Input (datetime_prompt (wall w (now s)))) (Said line)
         (0 + latency w (Input (datetime_prompt (wall w (now s))))
                        (now s + latency w (Now AtPrompt) (now s)))
         (log (now s) (Now AtPrompt) (Clock (wall w (now s)))
              (latency w (Now AtPrompt) (now s)) s)).
Proof.
  destruct well as (_ & _ & _ & _ & _ & _ & Hk & _).
  cbn [datetime_check]. rewrite bind_now. unfold input.
  rewrite (bind_call_well _ _ _ _ _ _ line) by (now rewrite Hk).
  rewrite lower_line. reflexivity.
Qed.

Lemma checks_well fuel s :
  exists s1 t t',
    checks w (S fuel) s = (Normal tt, s1) /\ armed s1 = armed s /\
    trace s1
    = (trace s ++ mk_entry (now s) (CheckOutput "ifconfig") (Said out)
               :: asked w t t' line)%list.
Proof.
  destruct well as (_ & _ & _ & _ & Hi & Hout & _).
  unfold checks, check_output.
  rewrite (bind_call_well _ _ _ _ _ _ out) by (now rewrite Hi).
  rewrite Hout, bind_ret.
  unfold bind. rewrite datetime_check_well. cbn [String.eqb Ascii.eqb].
  eexists. do 2 eexists. split; [reflexivity|].
  unfold log, asked. cbn [armed trace now].
  split; [reflexivity|]. rewrite <- !app_assoc. reflexivity.
Qed.

Lemma preparation_well s :
  exists s1 t2 t3 t4 t5,
    preparation w out_directory s = (Normal tt, s1) /\ armed s1 = armed s /\
    trace s1
    = (trace s ++ [mk_entry (now s) (Mkdir out_directory) Done;
                   mk_entry t2 StartPreview Done;
                   mk_entry t3 (Annotate "Preview (15 seconds)") Done;
                   mk_entry t4 (Sleep 15) Done;
                   mk_entry t5 StopPreview Done])%list.
Proof.
  destruct well as (Hc & _ & Hok & Hw & _).
  unfold preparation, mkdir, start_preview, annotate_text, time_sleep,
    stop_preview.
  rewrite (bind_call_well _ _ _ _ _ _ tt) by (apply guard_well, Hw).
  rewrite (bind_call_well _ _ _ _ _ _ tt) by (apply guard_well, Hok).
  rewrite (bind_call_well _ _ _ _ _ _ tt) by (apply guard_well, Hok).
  rewrite (bind_call_well _ _ _ _ _ _ tt) by reflexivity.
  unfold call. rewrite Hc, guard_well by exact Hok.
  eexists. do 4 eexists. split; [reflexivity|].
  unfold log. cbn [armed trace now]. split; [reflexivity|].
  rewrite <- !app_assoc. reflexivity.
Qed.

Lemma arming_delay_well s :
  exists s1 t7,
    arming_delay w s = (Normal tt, s1) /\ armed s1 = armed s /\
    trace s1
    = (trace s ++ [mk_entry (now s) (Print (nl ++ "Arming in 60 seconds..."))
                            Done;
                   mk_entry t7 (Sleep 60) Done])%list.
Proof.
  destruct well as (Hc & _).
  unfold arming_delay, print, time_sleep. rewrite bind_atomic.
  unfold call. rewrite Hc.
  eexists. eexists. split; [reflexivity|].
  unfold log. cbn [armed trace now]. split; [reflexivity|].
  rewrite <- !app_assoc. reflexivity.
Qed.

Opaque sequence.

(** The armed phase begins with the ARMED line. *)
Lemma armed_phase fuel s c s1 :
  bind (announce w) (fun _ => monitor w fuel out_directory) s = (c, s1) ->
  exists t rest,
    armed s1 = armed s /\
    trace s1
    = (trace s ++ mk_entry (now s) (Now AtArmed) (Clock (wall w (now s)))
               :: mk_entry t (Print (strftime (wall w (now s))
                                      "*** ARMED *** %Y-%m-%d %H:%M:%S")) Done
               :: rest)%list.
Proof.
  unfold announce. rewrite bind_assoc, bind_now. unfold print.
  rewrite bind_assoc, bind_atomic. intros H.
  assert (Hm : emits
                 (bind (except_Exception
                          (send_mail w AtArmed USER APP_PWD RECIPIENT
                             (strftime (wall w (now s))
                                       "*** ARMED *** %Y-%m-%d %H:%M:%S")
                             (strftime (wall w (now s))
                                       "*** ARMED *** %Y-%m-%d %H:%M:%S")
                             None SERVER PORT))
                       (fun _ => monitor w fuel out_directory))
                 (fun _ => True) (fun _ => True)).
  { apply emits_bind.
    - footprint; side_condition.
    - intros _. eapply emits_weaken; [apply emits_monitor|auto..]. }
  destruct (emits_inv _ _ _ _ _ _ Hm H) as (rest & Htr & _ & Ha & _).
  eexists. exists rest. split; [exact Ha|].
  rewrite Htr. unfold log. cbn [trace now]. rewrite <- !app_assoc.
  reflexivity.
Qed.

Transparent strftime sequence.

Lemma suite_well fuel s c s1 :
  suite w (S fuel) s = (c, s1) ->
  armed s1 = true /\
  exists t0 t t' t1 t2 t3 t4 t5 t6 t7 ta tb rest,
    trace s1
    = (trace s ++ mk_entry t0 (CheckOutput "ifconfig") (Said out)
               :: asked w t t' line
               ++ prepared t1 t2 t3 t4 t5 t6 t7
               ++ mk_entry ta (Now AtArmed) (Clock (wall w ta))
               :: mk_entry tb (Print (strftime (wall w ta)
                                       "*** ARMED *** %Y-%m-%d %H:%M:%S")) Done
               :: rest)%list.
Proof.
  unfold suite. rewrite bind_set_armed.
  set (s0 := {| now := now s; armed := false; trace := trace s |}).
  assert (H0 : trace s0 = trace s) by reflexivity.
  assert (A0 : armed s0 = false) by reflexivity.
  clearbody s0.
  destruct (checks_well fuel s0) as (sa & t & t' & Ea & Aa & Ta).
  unfold bind at 1. rewrite Ea. cbv zeta.
  destruct (preparation_well sa) as (sb & t2 & t3 & t4 & t5 & Eb & Ab & Tb).
  unfold bind at 1.
  change (DIRECTORY ++ "/Detections/") with out_directory.
  rewrite Eb.
  destruct (arming_delay_well sb) as (sc & t7 & Ec & Ac & Tc).
  unfold bind at 1. rewrite Ec. rewrite bind_set_armed.
  set (sd := {| now := now sc; armed := true; trace := trace sc |}).
  assert (Hd : trace sd = trace sc) by reflexivity.
  assert (Ad : armed sd = true) by reflexivity.
  assert (Nd : now sd = now sc) by reflexivity.
  clearbody sd.
  intros H. apply armed_phase in H as (tb & rest & Ha & Htr).
  split; [congruence|].
  exists (now s0), t, t', (now sa), t2, t3, t4, t5, (now sb), t7, (now sd), tb,
    rest.
  rewrite Htr, Hd, Tc, Tb, Ta, H0, <- !app_assoc. reflexivity.
Qed.

End AllIsWell.

(** X12.  When nothing stands in the way the script arms, after one
    question.  With no Ctrl+C, a camera that is there and works, a
    storage that can be written, no wlan0: in the output of [ifconfig]
    and an operator who types y or Y, every run that is given the time
    sets [armed]: its trace begins with the setup lines, the WiFi
    check, one question of the datetime check, the output directory,
    the preview and the arming delay, all returned, and goes on with
    the ARMED line. *)
Theorem arms_when_all_is_well (w : World) (out line : string) (fuel : nat) :
  all_is_well w out line ->
  armed (snd (run w (S fuel))) = true /\
  exists s1 s2 s3 s4 s5 t0 t t' t1 t2 t3 t4 t5 t6 t7 ta tb rest,
    trace (snd (run w (S fuel)))
    = (set_up s1 s2 s3 s4 s5
       ++ mk_entry t0 (CheckOutput "ifconfig") (Said out)
       :: asked w t t' line
       ++ prepared t1 t2 t3 t4 t5 t6 t7
       ++ mk_entry ta (Now AtArmed) (Clock (wall w ta))
       :: mk_entry tb (Print (strftime (wall w ta)
                               "*** ARMED *** %Y-%m-%d %H:%M:%S")) Done
       :: rest)%list.
Proof.
  intros well.
  destruct (setup_well w out line well)
    as (s0 & s1 & s2 & s3 & s4 & s5 & Hs & A0 & T0).
  destruct (run_cases w (S fuel))
    as [(e' & s0' & H & _)|(s0' & H & [(sx & Hx & Hr)|(e' & sx & Hx & Hr)])];
    [congruence| |];
    (assert (s0' = s0) by congruence); subst s0'.
  - rewrite Hr. cbn [snd].
    destruct (suite_well w out line well fuel s0 _ _ Hx)
      as (Ha & t0 & t & t' & t1 & t2 & t3 & t4 & t5 & t6 & t7 & ta & tb
          & rest & Htr).
    split; [exact Ha|].
    exists s1, s2, s3, s4, s5, t0, t, t', t1, t2, t3, t4, t5, t6, t7, ta, tb,
      rest.
    rewrite Htr, T0. reflexivity.
  - destruct (suite_well w out line well fuel s0 _ _ Hx)
      as (Ha & t0 & t & t' & t1 & t2 & t3 & t4 & t5 & t6 & t7 & ta & tb
          & rest & Htr).
    destruct (teardown_spec w sx) as (c1 & c2 & tl & Htl & _ & _ & _ & Hat & _).
    rewrite Hr. split; [congruence|].
    exists s1, s2, s3, s4, s5, t0, t, t', t1, t2, t3, t4, t5, t6, t7, ta, tb.
    eexists. rewrite Htl, Htr, T0, <- !app_assoc. cbn [app asked prepared].
    reflexivity.
Qed.

Lemma arms_when_all_is_well_witness :
  all_is_well quiet_world "eth0: flags=4163" "y" /\
  armed (snd (run quiet_world 30)) = true.
Proof.
  assert (H : all_is_well quiet_world "eth0: flags=4163" "y")
    by (unfold all_is_well; repeat split; auto).
  split; [exact H|].
  exact (proj1 (arms_when_all_is_well quiet_world _ _ 29 H)).
Defined.


(** ** A datetime that is not confirmed *)

Lemma bind_call_returns (w : World) {A B} a hold (ans : N -> result A) show
    (f : A -> M B) s v :
  ctrl_c w (now s) = false -> ans (now s) = Ret v ->
  bind (call w a hold ans show) f s
  = f v (log (now s) a (show v) (hold + latency w a (now s)) s).
Proof. intros Hc H. unfold bind, call. rewrite Hc, H. reflexivity. Qed.

(** X13.  An operator who answers n or N cancels the run.  With the
    setup lines completed, no Ctrl+C, no wlan0: in the output of
    [ifconfig] and n or N typed at the prompt, the rest of the run is
    the WiFi check, one question, the advice to set the clock, the
    release of the camera and the pins and the line Cancelled: [armed]
    stays false, no directory is made, no preview shown and no mail
    sent, and the script ends without an error. *)
Theorem datetime_rejected_cancels (w : World) (fuel : nat) (s0 : State)
    (out line : string) :
  setup w boot = (Normal tt, s0) ->
  (forall t, ctrl_c w t = false) ->
  ifconfig w (now s0) = Some out ->
  contains "wlan0:" out = false ->
  (forall t, keyboard w t = Some line) ->
  line = "n" \/ line = "N" ->
  fst (run w (S fuel)) = Normal tt /\
  armed (snd (run w (S fuel))) = false /\
  exists t t' t1 t2 t3 t4 t5,
    trace (snd (run w (S fuel)))
    = (trace s0
       ++ mk_entry (now s0) (CheckOutput "ifconfig") (Said out)
       :: asked w t t' line
       ++ [mk_entry t1 (Print (nl ++ "Set with 'sudo date -s YYYY-MM-DD HH:MM' or sync over the network")) Done;
           mk_entry t2 CameraClose Done;
           mk_entry t3 GpioCleanup Done;
           mk_entry t4 (Now AtCancelled) (Clock (wall w t4));
           mk_entry t5 (Print "Cancelled") Done])%list.
Proof.
  intros Hs Hc Hi Hout Hk Hline.
  assert (Hl : lower line = "n") by (apply lower_n, Hline).
  assert (Hx : exists s1 t t' t1,
               suite w (S fuel) s0 = (Raised (Exception_ DatetimeRejected), s1) /\
               armed s1 = false /\
               trace s1
               = (trace s0
                  ++ mk_entry (now s0) (CheckOutput "ifconfig") (Said out)
                  :: asked w t t' line
                  ++ [mk_entry t1 (Print (nl ++ "Set with 'sudo date -s YYYY-MM-DD HH:MM' or sync over the network")) Done])%list).
  { unfold suite. rewrite bind_set_armed. unfold bind at 1.
    unfold checks, check_output.
    rewrite (bind_call_returns w _ _ _ _ _ _ out)
      by (auto; cbn [now]; rewrite Hi; reflexivity).
    rewrite Hout, bind_ret. cbn [datetime_check].
    rewrite bind_assoc, bind_now. unfold input.
    rewrite bind_assoc.
    rewrite (bind_call_returns w _ _ _ _ _ _ line)
      by (auto; rewrite Hk; reflexivity).
    rewrite Hl. cbn [str_in existsb String.eqb Ascii.eqb Bool.eqb orb negb].
    rewrite bind_ret. cbn [String.eqb Ascii.eqb Bool.eqb].
    unfold print. rewrite bind_atomic. unfold raise.
    do 4 eexists. split; [reflexivity|].
    unfold log, asked. cbn [armed trace now].
    split; [reflexivity|]. rewrite <- !app_assoc. reflexivity. }
  destruct Hx as (sx & t & t' & t1 & Hx & Hax & Htr).
  destruct (run_cases w (S fuel))
    as [(e' & s0' & H & _)|(s0' & H & [(s1 & H1 & _)|(e' & s1 & H1 & Hr)])];
    try congruence.
  assert (s0' = s0) by congruence. subst s0'.
  assert (s1 = sx) by congruence. subst s1.
  rewrite Hr. unfold teardown, bind, atomic, get_armed, datetime_now, print,
    atomic, log.
  cbn [fst snd trace armed now]. rewrite Hax.
  cbn [negb fst snd trace armed now].
  split; [reflexivity|]. split; [reflexivity|].
  rewrite Htr. exists t, t', t1. do 4 eexists.
  rewrite <- !app_assoc. cbn [app asked]. reflexivity.
Qed.

Lemma datetime_rejected_cancels_witness :
  let w := wrong_clock_world in
  let s0 := snd (setup w boot) in
  setup w boot = (Normal tt, s0) /\
  (forall t, ctrl_c w t = false) /\
  ifconfig w (now s0) = Some "eth0: flags=4163" /\
  contains "wlan0:" "eth0: flags=4163" = false /\
  (forall t, keyboard w t = Some "N") /\
  ("N" = "n" \/ "N" = "N") /\
  fst (run w 30) = Normal tt /\
  armed (snd (run w 30)) = false.
Proof.
  intros w s0.
  assert (H1 : setup w boot = (Normal tt, s0)) by (vm_compute; reflexivity).
  assert (H2 : forall t, ctrl_c w t = false) by reflexivity.
  assert (H3 : ifconfig w (now s0) = Some "eth0: flags=4163") by reflexivity.
  assert (H4 : contains "wlan0:" "eth0: flags=4163" = false) by reflexivity.
  assert (H5 : forall t, keyboard w t = Some "N") by reflexivity.
  assert (H6 : "N" = "n" \/ "N" = "N") by (right; reflexivity).
  repeat (split; [assumption|]).
  destruct (datetime_rejected_cancels w 29 s0 _ _ H1 H2 H3 H4 H5 H6)
    as (K1 & K2 & _).
  split; [exact K1|exact K2].
Defined.
